(** * AI-Drift-Monitor: metric functions, drift worker and HTTP API

    A shallow embedding of

    - [services/api/src/utils/metrics.ts]: [calculateCosineSimilarity] and
      [calculateKLDivergence];
    - [services/api/src/routes/drift.ts]: the [POST /calculate] handler;
    - [services/api/src/services/ingestion.ts]:
      [generateSampleDistribution];
    - the drift worker: [createAlert], [checkModel], [runDriftCheck],
      [waitForServices], [main];
    - [api/index.js]: the [GET /drift/latest], [GET /drift/history] and
      [GET /alerts] handlers.

    Conventions.  A JavaScript [throw new Error(msg)] is the value
    [Throw msg].  A JavaScript [number] is an IEEE 754 binary64 number.
    [Metrics64] and [DriftRoute64] embed the metric functions and the route
    that calls them on such numbers, one operation of the source for one
    rounded operation; [Math.log], whose value ECMAScript leaves to the
    engine, is a parameter.  The statements that depend on how numbers are
    rounded are made there.  [Metrics], [DriftRoute] and [Ingestion] embed
    the same code over the real numbers: [+ * /] are exact, [Math.sqrt] is
    [sqrt], [Math.log] is [ln], [Math.max] is [Rmax].  The worker and the
    read API only compare and store the numbers they are given. *)

From Stdlib Require Import Reals Lra Lia String ZArith Bool List.
From Stdlib Require PrimFloat Floats.
Import ListNotations.

#[local] Set Warnings "-inexact-float".

Inductive result (A : Type) : Type :=
| Ok (value : A)
| Throw (message : string).

Arguments Ok {A} value.
Arguments Throw {A} message.

(** ** metrics.ts over the real numbers *)

Module Metrics.

Local Open Scope R_scope.

(** [const epsilon = 1e-10] *)
Definition epsilon : R := 1e-10.

(** [p.reduce((acc, val) => acc + val, 0)] *)
Definition reduce_sum (p : list R) : R :=
  fold_left (fun acc val => acc + val) p 0.

(** [v[i]]; the loops below only read indices below the common length, so the
    default is never returned. *)
Definition at_index (v : list R) (i : nat) : R := nth i v 0.

(** Body of the loop of [calculateCosineSimilarity]; the accumulator is
    [(dotProduct, magnitudeA, magnitudeB)]. *)
Definition cosine_step (vectorA vectorB : list R) (acc : R * R * R) (i : nat)
  : R * R * R :=
  let '(dotProduct, magnitudeA, magnitudeB) := acc in
  (dotProduct + at_index vectorA i * at_index vectorB i,
   magnitudeA + at_index vectorA i * at_index vectorA i,
   magnitudeB + at_index vectorB i * at_index vectorB i).

Definition cosine_loop (vectorA vectorB : list R) : R * R * R :=
  fold_left (cosine_step vectorA vectorB) (seq 0 (length vectorA)) (0, 0, 0).

Definition calculateCosineSimilarity (vectorA vectorB : list R) : result R :=
  if negb (Nat.eqb (length vectorA) (length vectorB)) then
    Throw "Vectors must have the same length"
  else
    let '(dotProduct, magnitudeA, magnitudeB) := cosine_loop vectorA vectorB in
    let magnitudeA := sqrt magnitudeA in
    let magnitudeB := sqrt magnitudeB in
    if Req_dec_T magnitudeA 0 then Ok 0
    else if Req_dec_T magnitudeB 0 then Ok 0
    else Ok (dotProduct / (magnitudeA * magnitudeB)).

(** Body of the loop of [calculateKLDivergence]. *)
Definition kl_step (normalizedP normalizedQ : list R) (divergence : R)
  (i : nat) : R :=
  if Rgt_dec (at_index normalizedP i) epsilon then
    let qVal := Rmax (at_index normalizedQ i) epsilon in
    divergence + at_index normalizedP i * ln (at_index normalizedP i / qVal)
  else divergence.

Definition calculateKLDivergence (p q : list R) : result R :=
  if negb (Nat.eqb (length p) (length q)) then
    Throw "Distributions must have the same length"
  else
    let sumP := reduce_sum p in
    let sumQ := reduce_sum q in
    if Req_dec_T sumP 0 then Throw "Distributions cannot sum to zero"
    else if Req_dec_T sumQ 0 then Throw "Distributions cannot sum to zero"
    else
      let normalizedP := map (fun val => val / sumP) p in
      let normalizedQ := map (fun val => val / sumQ) q in
      Ok (fold_left (kl_step normalizedP normalizedQ)
            (seq 0 (length normalizedP)) 0).

(** *** Sums used to state what the loops compute *)

(** [dot a b] is the sum of the products of paired entries. *)
Fixpoint dot (a b : list R) : R :=
  match a, b with
  | x :: a', y :: b' => x * y + dot a' b'
  | _, _ => 0
  end.

Definition cosine_acc (acc : R * R * R) (x y : R) : R * R * R :=
  let '(dotProduct, magnitudeA, magnitudeB) := acc in
  (dotProduct + x * y, magnitudeA + x * x, magnitudeB + y * y).

(** One pass of the KL loop on the entries [x] of [normalizedP] and [y] of
    [normalizedQ]. *)
Definition kl_acc (divergence x y : R) : R :=
  if Rgt_dec x epsilon then divergence + x * ln (x / Rmax y epsilon)
  else divergence.


(** [normalize s v] is [v.map(val => val / s)]. *)
Definition normalize (s : R) (v : list R) : list R :=
  map (fun val => val / s) v.

End Metrics.

(** ** metrics.ts on binary64 numbers *)

(** The two functions again, operation by operation on IEEE 754 binary64
    numbers, in the order the source performs them.  [+ * /] round to
    nearest, ties to even; [===] on numbers is [=?] (false on NaN, true on
    [+0] and [-0]); [a > b] is [b <? a]; [Math.sqrt] is the correctly rounded
    square root.  ECMAScript leaves the value of [Math.log] to the engine
    except at boundary cases, so it is a parameter of
    [calculateKLDivergence]. *)
Module Metrics64.

Import PrimFloat.
Local Open Scope float_scope.

(** [const epsilon = 1e-10] *)
Definition epsilon : float := 1e-10.

(** [p.reduce((acc, val) => acc + val, 0)] *)
Definition reduce_sum (p : list float) : float :=
  fold_left (fun acc val => acc + val) p 0.

(** [v[i]]; past the end JavaScript yields [undefined], which arithmetic
    turns into NaN.  The loops below only read indices below the common
    length. *)
Definition at_index (v : list float) (i : nat) : float := nth i v nan.

(** Body of the loop of [calculateCosineSimilarity]; the accumulator is
    [(dotProduct, magnitudeA, magnitudeB)]. *)
Definition cosine_step (vectorA vectorB : list float)
  (acc : float * float * float) (i : nat) : float * float * float :=
  let '(dotProduct, magnitudeA, magnitudeB) := acc in
  (dotProduct + at_index vectorA i * at_index vectorB i,
   magnitudeA + at_index vectorA i * at_index vectorA i,
   magnitudeB + at_index vectorB i * at_index vectorB i).

Definition cosine_loop (vectorA vectorB : list float)
  : float * float * float :=
  fold_left (cosine_step vectorA vectorB) (seq 0 (length vectorA)) (0, 0, 0).

Definition calculateCosineSimilarity (vectorA vectorB : list float)
  : result float :=
  if negb (Nat.eqb (length vectorA) (length vectorB)) then
    Throw "Vectors must have the same length"
  else
    let '(dotProduct, magnitudeA, magnitudeB) := cosine_loop vectorA vectorB in
    let magnitudeA := sqrt magnitudeA in
    let magnitudeB := sqrt magnitudeB in
    if (magnitudeA =? 0) || (magnitudeB =? 0) then Ok 0
    else Ok (dotProduct / (magnitudeA * magnitudeB)).

Definition is_nan (x : float) : bool := negb (x =? x).

(** [Math.max(a, b)]: NaN when an argument is NaN; [+0] is larger than
    [-0]. *)
Definition Math_max (a b : float) : float :=
  if is_nan a || is_nan b then nan
  else if a <? b then b
  else if b <? a then a
  else match classify a with FloatClass.NZero => b | _ => a end.

Section MathLog.
Variable Math_log : float -> float.

(** Body of the loop of [calculateKLDivergence]. *)
Definition kl_step (normalizedP normalizedQ : list float) (divergence : float)
  (i : nat) : float :=
  if epsilon <? at_index normalizedP i then
    let qVal := Math_max (at_index normalizedQ i) epsilon in
    divergence
    + at_index normalizedP i * Math_log (at_index normalizedP i / qVal)
  else divergence.

Definition calculateKLDivergence (p q : list float) : result float :=
  if negb (Nat.eqb (length p) (length q)) then
    Throw "Distributions must have the same length"
  else
    let sumP := reduce_sum p in
    let sumQ := reduce_sum q in
    if (sumP =? 0) || (sumQ =? 0) then
      Throw "Distributions cannot sum to zero"
    else
      let normalizedP := map (fun val => val / sumP) p in
      let normalizedQ := map (fun val => val / sumQ) q in
      Ok (fold_left (kl_step normalizedP normalizedQ)
            (seq 0 (length normalizedP)) 0).

End MathLog.

(** *** Vocabulary of the statements *)

(** One pass of the cosine loop on the entries [x] of [vectorA] and [y] of
    [vectorB]. *)
Definition cosine_acc (acc : float * float * float) (x y : float)
  : float * float * float :=
  let '(dotProduct, magnitudeA, magnitudeB) := acc in
  (dotProduct + x * y, magnitudeA + x * x, magnitudeB + y * y).

(** One pass of the KL loop on the entries [x] of [normalizedP] and [y] of
    [normalizedQ]. *)
Definition kl_acc (Math_log : float -> float) (divergence x y : float)
  : float :=
  if epsilon <? x then divergence + x * Math_log (x / Math_max y epsilon)
  else divergence.

(** [normalize s v] is [v.map(val => val / s)]. *)
Definition normalize (s : float) (v : list float) : list float :=
  map (fun val => val / s) v.


(** No entry of [p], divided by the sum of [p], is [Infinity]. *)
Definition no_infinite_share (p : list float) : bool :=
  forallb (fun val => negb (val / reduce_sum p =? infinity)) p.

(** No entry is negative or NaN; [-0] and [Infinity] are allowed. *)
Definition nonnegative (p : list float) : bool :=
  forallb (fun val => 0 <=? val) p.

(** Some entry is above zero. *)
Definition has_positive (p : list float) : bool :=
  existsb (fun val => 0 <? val) p.


End Metrics64.

(** ** An instance of [Math.log] *)

(** The [log] of fdlibm ([e_log.c]), the algorithm V8 uses for [Math.log],
    on binary64 numbers: it serves to run [calculateKLDivergence] on concrete
    inputs.  The general statements below hold for every [Math_log]. *)
Module Fdlibm.

Import PrimFloat.
Local Open Scope float_scope.

Definition ln2_hi : float := 6.93147180369123816490e-01.
Definition ln2_lo : float := 1.90821492927058770002e-10.
Definition two54 : float := 1.80143985094819840000e+16.
Definition Lg1 : float := 6.666666666666735130e-01.
Definition Lg2 : float := 3.999999999940941908e-01.
Definition Lg3 : float := 2.857142874366239149e-01.
Definition Lg4 : float := 2.222219843214978396e-01.
Definition Lg5 : float := 1.818357216161805012e-01.
Definition Lg6 : float := 1.531383769920937332e-01.
Definition Lg7 : float := 1.479819860511658591e-01.

(** [(double)k] *)
Definition double_of_int (k : Z) : float :=
  FloatOps.SF2Prim
    (SpecFloat.binary_normalize FloatOps.prec FloatOps.emax k 0 false).

(** [log] on a normal [x = m * 2^e] with [2^52 <= m < 2^53].  [hx] is the
    high word of [x] without its exponent bits; [k0] is [-54] when a
    subnormal argument was first multiplied by [two54], else [0]. *)
Definition log_normal (k0 : Z) (m : positive) (e : Z) : float :=
  let hx := Z.shiftr (Z.pos m - 2 ^ 52) 32 in
  let k := (k0 + (e + 52))%Z in
  let i := Z.land (hx + 0x95f64) 0x100000 in
  let x :=
    FloatOps.SF2Prim
      (SpecFloat.S754_finite false m (if (i =? 0)%Z then -52 else -53)) in
  let k := (k + Z.shiftr i 20)%Z in
  let f := x - 1 in
  if (Z.land 0xfffff (2 + hx) <? 3)%Z then
    if f =? 0 then
      if (k =? 0)%Z then 0
      else let dk := double_of_int k in dk * ln2_hi + dk * ln2_lo
    else
      let R := f * f * (0.5 - 0.33333333333333333 * f) in
      if (k =? 0)%Z then f - R
      else let dk := double_of_int k in
           dk * ln2_hi - ((R - dk * ln2_lo) - f)
  else
    let s := f / (2 + f) in
    let dk := double_of_int k in
    let z := s * s in
    let i := (hx - 0x6147a)%Z in
    let w := z * z in
    let j := (0x6b851 - hx)%Z in
    let t1 := w * (Lg2 + w * (Lg4 + w * Lg6)) in
    let t2 := z * (Lg1 + w * (Lg3 + w * (Lg5 + w * Lg7))) in
    let i := Z.lor i j in
    let R := t2 + t1 in
    if (0 <? i)%Z then
      let hfsq := 0.5 * f * f in
      if (k =? 0)%Z then f - (hfsq - s * (hfsq + R))
      else dk * ln2_hi - ((hfsq - (s * (hfsq + R) + dk * ln2_lo)) - f)
    else
      if (k =? 0)%Z then f - s * (f - R)
      else dk * ln2_hi - ((s * (f - R) - dk * ln2_lo) - f).

Definition log (x : float) : float :=
  match FloatOps.Prim2SF x with
  | SpecFloat.S754_zero _ => neg_infinity
  | SpecFloat.S754_infinity false => infinity
  | SpecFloat.S754_finite false m e =>
      if (Z.pos (SpecFloat.digits2_pos m) <? 53)%Z then
        match FloatOps.Prim2SF (x * two54) with
        | SpecFloat.S754_finite _ m' e' => log_normal (-54) m' e'
        | _ => nan
        end
      else log_normal 0 m e
  | _ => nan
  end.

End Fdlibm.

(** ** Comparing binary64 numbers by their number of digits *)

(** Vocabulary on the specification of binary64 numbers ([SpecFloat]), where
    a finite number is a sign, a mantissa [m] and an exponent [e] and stands
    for [m * 2^e]. *)
Module Magnitude.

Local Open Scope Z_scope.

Abbreviation digits := SpecFloat.digits2_pos.
Abbreviation fexp := (SpecFloat.fexp 53 1024).

(** [+0], [-0], the positive finite numbers and [Infinity]. *)
Definition not_negative (f : SpecFloat.spec_float) : Prop :=
  match f with
  | SpecFloat.S754_zero _ => True
  | SpecFloat.S754_finite false _ _ => True
  | SpecFloat.S754_infinity false => True
  | _ => False
  end.

(** [covers S x]: neither is negative or NaN, and [S] has at least as many
    digits above the binary point as [x]. *)
Definition covers (S x : SpecFloat.spec_float) : Prop :=
  match x, S with
  | SpecFloat.S754_zero _, _ => not_negative S
  | SpecFloat.S754_finite false mx ex, SpecFloat.S754_finite false mS eS =>
      Z.pos (digits mx) + ex <= Z.pos (digits mS) + eS
  | SpecFloat.S754_finite false _ _, SpecFloat.S754_infinity false => True
  | SpecFloat.S754_infinity false, SpecFloat.S754_infinity false => True
  | _, _ => False
  end.

(** [+0], the positive finite numbers, [Infinity] and NaN: the numbers that
    are not below zero and not [-0]. *)
Definition sign_clear (f : SpecFloat.spec_float) : Prop :=
  match f with
  | SpecFloat.S754_zero false => True
  | SpecFloat.S754_finite false _ _ => True
  | SpecFloat.S754_infinity false => True
  | SpecFloat.S754_nan => True
  | _ => False
  end.

(** The same with [-0]. *)
Definition not_below_zero (f : SpecFloat.spec_float) : Prop :=
  match f with
  | SpecFloat.S754_zero _ => True
  | _ => sign_clear f
  end.

End Magnitude.

(** ** The drift worker *)

Module Worker.

Import PrimFloat.
Local Open Scope Z_scope.
Local Open Scope string_scope.
Local Open Scope list_scope.

Record DriftConfig : Type := {
  windowMinutes : Z;
  baselineMinutes : Z;
  criticalThreshold : float;
  cronSchedule : string
}.

Definition DRIFT_CONFIG : DriftConfig :=
  {| windowMinutes := 60;
     baselineMinutes := 1440;
     criticalThreshold := 0.5%float;
     cronSchedule := "*/5 * * * *" |}.

(** A row of [SELECT id, name FROM models]. *)
Record Model : Type := {
  id : Z;
  name : string
}.

(** The body of the answer of [POST /compute_drift]. *)
Record Drift : Type := {
  window_start : string;
  window_end : string;
  kl_divergence : float;
  cosine_similarity : float;
  drift_detected : bool
}.

(** The template literal
    [Drift detected: ${modelName} (KL=${kl.toFixed(4)},
    cosine=${cos.toFixed(4)})], kept as its three interpolated values. *)
Record AlertMessage : Type := {
  message_model : string;
  message_kl : float;
  message_cosine : float
}.

Record DriftRunRow : Type := {
  run_id : Z;
  run_model_id : Z;
  run_drift : Drift
}.

Record AlertRow : Type := {
  alert_model_id : Z;
  alert_drift_run_id : Z;
  severity : string;
  message : AlertMessage
}.

(** The statements the worker sends through [pool.query]. *)
Inductive Sql : Type :=
| SelectModels
| InsertDriftRun (modelId : Z) (drift : Drift)
| InsertAlert (modelId driftRunId : Z) (sev : string) (msg : AlertMessage)
| SelectOne.

(** Lines written with [console.log] and [console.error]; a timestamp is the
    clock reading in milliseconds. *)
Inductive Console : Type :=
| StartingDriftCheck (timestamp : Z)
| DriftCheckComplete (timestamp : Z)
| CycleError (timestamp : Z) (err : string)
| ModelLine (modelName : string) (kl cosine : float) (drift : bool)
| AlertLine (sev : string) (msg : AlertMessage)
| WaitingForServices
| ServicesReady
| Retrying (attemptsLeft : nat)
| WorkerRunning (schedule : string)
| Fatal (err : string).

(** Everything the worker does to the outside, in order. *)
Inductive Event : Type :=
| HttpPostComputeDrift (modelId window_minutes baseline_minutes : Z)
| HttpGetHealth
| Query (statement : Sql)
| Print (line : Console)
| Sleep (ms : Z)
| CronScheduled (schedule : string)
| ProcessExit (code : Z).

(** The world the worker runs in.  The first three fields are the behaviour
    of the outside: what the computation service answers for a model, whether
    its health endpoint answers at a given time, and the error (if any) with
    which the database rejects a statement at a given time.  The rest is
    state: the tables, the clock and the trace of events so far. *)
Record World : Type := {
  service_compute_drift : Z -> result Drift;
  service_health : Z -> bool;
  db_error : Z -> Sql -> option string;
  models : list Model;
  drift_runs : list DriftRunRow;
  alerts : list AlertRow;
  clock : Z;
  trace : list Event
}.

Definition emit (e : Event) (w : World) : World :=
  {| service_compute_drift := service_compute_drift w;
     service_health := service_health w;
     db_error := db_error w;
     models := models w;
     drift_runs := drift_runs w;
     alerts := alerts w;
     clock := clock w;
     trace := trace w ++ [e] |}.

Definition add_drift_run (row : DriftRunRow) (w : World) : World :=
  {| service_compute_drift := service_compute_drift w;
     service_health := service_health w;
     db_error := db_error w;
     models := models w;
     drift_runs := drift_runs w ++ [row];
     alerts := alerts w;
     clock := clock w;
     trace := trace w |}.

Definition add_alert (row : AlertRow) (w : World) : World :=
  {| service_compute_drift := service_compute_drift w;
     service_health := service_health w;
     db_error := db_error w;
     models := models w;
     drift_runs := drift_runs w;
     alerts := alerts w ++ [row];
     clock := clock w;
     trace := trace w |}.

Definition advance_clock (ms : Z) (w : World) : World :=
  {| service_compute_drift := service_compute_drift w;
     service_health := service_health w;
     db_error := db_error w;
     models := models w;
     drift_runs := drift_runs w;
     alerts := alerts w;
     clock := clock w + Z.max 0 ms;
     trace := trace w |}.

(** Asynchronous code that may throw: a state and error monad over the
    world.  [await] is sequencing. *)
Definition M (A : Type) : Type := World -> result A * World.

Definition ret {A : Type} (a : A) : M A := fun w => (Ok a, w).

Definition throw {A : Type} (msg : string) : M A := fun w => (Throw msg, w).

Definition bind {A B : Type} (m : M A) (k : A -> M B) : M B :=
  fun w =>
    match m w with
    | (Ok a, w') => k a w'
    | (Throw msg, w') => (Throw msg, w')
    end.

(** [try { body } catch (err) { handler(err.message) }] *)
Definition try_catch {A : Type} (body : M A) (handler : string -> M A) : M A :=
  fun w =>
    match body w with
    | (Ok a, w') => (Ok a, w')
    | (Throw msg, w') => handler msg w'
    end.

Notation "x <- m ;; k" := (bind m (fun x => k))
  (at level 61, m at next level, right associativity).
Notation "m ;;; k" := (bind m (fun _ => k))
  (at level 61, right associativity).

Definition effect (e : Event) : M unit := fun w => (Ok tt, emit e w).

Definition console_log (line : Console) : M unit := effect (Print line).

Definition console_error (line : Console) : M unit := effect (Print line).

Definition now : M Z := fun w => (Ok (clock w), w).

(** [pool.query(sql, params)]: the statement is recorded, then either
    rejected with the database's error or run. *)
Definition pool_query {A : Type} (statement : Sql) (run : M A) : M A :=
  fun w =>
    let w1 := emit (Query statement) w in
    match db_error w1 (clock w1) statement with
    | Some err => (Throw err, w1)
    | None => run w1
    end.

(** [query(sql, params)]: [pool.query] and then the rows of its result. *)
Definition query {A : Type} (statement : Sql) (rows : M A) : M A :=
  pool_query statement rows.

(** [await new Promise((r) => setTimeout(r, delayMs))] *)
Definition sleep (delayMs : Z) : M unit :=
  fun w => (Ok tt, advance_clock delayMs (emit (Sleep delayMs) w)).

Definition next_drift_run_id (w : World) : Z :=
  Z.of_nat (length (drift_runs w)) + 1.

Definition computeDrift (modelId : Z) : M Drift :=
  fun w =>
    let w1 :=
      emit (HttpPostComputeDrift modelId (windowMinutes DRIFT_CONFIG)
              (baselineMinutes DRIFT_CONFIG)) w in
    (service_compute_drift w1 modelId, w1).

Definition storeDriftRun (modelId : Z) (drift : Drift) : M Z :=
  query (InsertDriftRun modelId drift)
    (fun w =>
       let row := {| run_id := next_drift_run_id w;
                     run_model_id := modelId;
                     run_drift := drift |} in
       (Ok (run_id row), add_drift_run row w)).

Definition createAlert (modelId driftRunId : Z) (drift : Drift)
  (modelName : string) : M unit :=
  let severity :=
    if (criticalThreshold DRIFT_CONFIG <? kl_divergence drift)%float
    then "critical" else "warning" in
  let message :=
    {| message_model := modelName;
       message_kl := kl_divergence drift;
       message_cosine := cosine_similarity drift |} in
  query (InsertAlert modelId driftRunId severity message)
    (fun w =>
       (Ok tt, add_alert {| alert_model_id := modelId;
                            alert_drift_run_id := driftRunId;
                            severity := severity;
                            message := message |} w)) ;;;
  console_log (AlertLine severity message).

Definition checkModel (model : Model) : M unit :=
  drift <- computeDrift (id model) ;;
  console_log (ModelLine (name model) (kl_divergence drift)
                 (cosine_similarity drift) (drift_detected drift)) ;;;
  driftRunId <- storeDriftRun (id model) drift ;;
  if drift_detected drift
  then createAlert (id model) driftRunId drift (name model)
  else ret tt.

(** [for (const model of models) { await body(model); }] *)
Fixpoint for_of {A : Type} (items : list A) (body : A -> M unit) : M unit :=
  match items with
  | [] => ret tt
  | item :: rest => body item ;;; for_of rest body
  end.

Definition runDriftCheck : M unit :=
  timestamp <- now ;;
  console_log (StartingDriftCheck timestamp) ;;;
  try_catch
    (models <- query SelectModels (fun w => (Ok (models w), w)) ;;
     for_of models checkModel ;;;
     console_log (DriftCheckComplete timestamp))
    (fun err => console_error (CycleError timestamp err)).

(** [axios.get(`${PYTHON_SERVICE_URL}/health`)] rejects when the service
    does not answer; the message is dropped by the [catch] around it. *)
Definition axios_get_health : M unit :=
  fun w =>
    let w1 := emit HttpGetHealth w in
    if service_health w1 (clock w1) then (Ok tt, w1)
    else (Throw "health check failed", w1).

(** The loop of [waitForServices]; [i] counts down from [maxRetries]. *)
Fixpoint waitForServices_loop (i : nat) (delayMs : Z) : M unit :=
  match i with
  | O => throw "Services unavailable"
  | S i' =>
      try_catch
        (axios_get_health ;;;
         pool_query SelectOne (ret tt) ;;;
         console_log ServicesReady)
        (fun _ =>
           console_log (Retrying i') ;;;
           sleep delayMs ;;;
           waitForServices_loop i' delayMs)
  end.

Definition waitForServices (maxRetries : nat) (delayMs : Z) : M unit :=
  console_log WaitingForServices ;;;
  waitForServices_loop maxRetries delayMs.

(** The default arguments of [waitForServices]. *)
Definition default_maxRetries : nat := 30.
Definition default_delayMs : Z := 2000.

Definition main : M unit :=
  waitForServices default_maxRetries default_delayMs ;;;
  runDriftCheck ;;;
  effect (CronScheduled (cronSchedule DRIFT_CONFIG)) ;;;
  console_log (WorkerRunning (cronSchedule DRIFT_CONFIG)).

(** [main().catch((err) => { console.error("Fatal:", err.message);
    process.exit(1); })]: the world the process leaves behind. *)
Definition run_main (w : World) : World :=
  match main w with
  | (Ok _, w') => w'
  | (Throw err, w') => emit (ProcessExit 1) (emit (Print (Fatal err)) w')
  end.

(** Whether both start-up probes succeed at time [t]. *)
Definition services_ready (w : World) (t : Z) : bool :=
  service_health w t &&
  match db_error w t SelectOne with None => true | Some _ => false end.

(** The model ids for which [computeDrift] was requested, that is for which
    [checkModel] was entered, in order. *)
Fixpoint checked_models (events : list Event) : list Z :=
  match events with
  | [] => []
  | HttpPostComputeDrift modelId _ _ :: rest => modelId :: checked_models rest
  | _ :: rest => checked_models rest
  end.

(** The delays slept, in order. *)
Fixpoint sleeps (events : list Event) : list Z :=
  match events with
  | [] => []
  | Sleep ms :: rest => ms :: sleeps rest
  | _ :: rest => sleeps rest
  end.

(** The world in which the loop of [runDriftCheck] starts. *)
Definition cycle_start (w : World) : World :=
  emit (Query SelectModels) (emit (Print (StartingDriftCheck (clock w))) w).

End Worker.

(** ** api/index.js: GET /drift/latest *)

Module Api.

Import PrimFloat.
Local Open Scope Z_scope.
Local Open Scope string_scope.
Local Open Scope list_scope.

Definition DEFAULT_MODEL_ID : Z := 1.

(** A row of [drift_runs].  The metric columns and [drift_detected] may be
    NULL; [created_at] is filled by [DEFAULT NOW()] on every insert. *)
Record DriftRun : Type := {
  id : Z;
  model_id : Z;
  window_start : string;
  window_end : string;
  kl_divergence : option float;
  cosine_similarity : option float;
  drift_detected : option bool;
  created_at : Z
}.

(** The database as the handler sees it: the error with which [pool.query]
    rejects, if it does; how the server reads a text parameter bound to an
    integer column; and the table. *)
Record Database : Type := {
  query_error : option string;
  integer_of_text : string -> option Z;
  drift_runs : list DriftRun
}.

(** A query parameter: the string taken from the URL or the number
    [DEFAULT_MODEL_ID]. *)
Inductive Param : Type :=
| Text (s : string)
| Number (n : Z).

(** [req.query.model_id || DEFAULT_MODEL_ID]: an absent or empty parameter
    is falsy. *)
Definition modelId_of (query_model_id : option string) : Param :=
  match query_model_id with
  | None => Number DEFAULT_MODEL_ID
  | Some s => if String.eqb s "" then Number DEFAULT_MODEL_ID else Text s
  end.

(** [ORDER BY created_at DESC LIMIT 1]: a row with the greatest
    [created_at]; among equal timestamps the earliest stored row is taken
    (PostgreSQL leaves that choice open). *)
Fixpoint newest (rows : list DriftRun) : option DriftRun :=
  match rows with
  | [] => None
  | r :: rest =>
      match newest rest with
      | None => Some r
      | Some r' =>
          if (created_at r' <=? created_at r)%Z then Some r else Some r'
      end
  end.

(** [SELECT * FROM drift_runs WHERE model_id = $1 ORDER BY created_at DESC
    LIMIT 1] *)
Definition select_latest (db : Database) (m : Z) : list DriftRun :=
  match newest (filter (fun r => (model_id r =? m)%Z) (drift_runs db)) with
  | None => []
  | Some r => [r]
  end.

(** [query(sql, [modelId])] *)
Definition query (db : Database) (modelId : Param) : result (list DriftRun) :=
  match query_error db with
  | Some err => Throw err
  | None =>
      match modelId with
      | Number n => Ok (select_latest db n)
      | Text s =>
          match integer_of_text db s with
          | Some n => Ok (select_latest db n)
          | None => Throw "invalid input syntax for type integer"
          end
      end
  end.

Record MetricsBody : Type := {
  metrics_kl_divergence : option float;
  metrics_cosine_similarity : option float;
  metrics_drift_detected : option bool
}.

(** The JSON bodies the handler sends. *)
Inductive Body : Type :=
| NoData (status message : string)
| Latest (status : string) (metrics : MetricsBody)
    (window_start_ window_end_ : string) (created_at_ : Z)
| ErrorBody (error : string).

Record Response : Type := {
  http_status : Z;
  body : Body
}.

(** JavaScript truthiness of a nullable boolean column. *)
Definition truthy (b : option bool) : bool :=
  match b with
  | Some true => true
  | _ => false
  end.

(** The handler of [GET /drift/latest]. *)
Definition get_drift_latest (db : Database) (query_model_id : option string)
  : Response :=
  let modelId := modelId_of query_model_id in
  match query db modelId with
  | Throw err => {| http_status := 500; body := ErrorBody err |}
  | Ok rows =>
      match rows with
      | [] =>
          {| http_status := 200;
             body := NoData "no_data" "No drift runs found" |}
      | drift :: _ =>
          {| http_status := 200;
             body :=
               Latest
                 (if truthy (drift_detected drift)
                  then "drift_detected" else "stable")
                 {| metrics_kl_divergence := kl_divergence drift;
                    metrics_cosine_similarity := cosine_similarity drift;
                    metrics_drift_detected := drift_detected drift |}
                 (window_start drift) (window_end drift)
                 (created_at drift) |}
      end
  end.

(** The [status] field of a body, when it has one. *)
Definition status_of (b : Body) : option string :=
  match b with
  | NoData status _ => Some status
  | Latest status _ _ _ _ => Some status
  | ErrorBody _ => None
  end.

(** The model a request asks about, once the database has read the
    parameter. *)
Definition requested_model (db : Database) (query_model_id : option string)
  : option Z :=
  match modelId_of query_model_id with
  | Number n => Some n
  | Text s => integer_of_text db s
  end.

(** [r] is a latest drift run of model [m]. *)
Definition latest_run (db : Database) (m : Z) (r : DriftRun) : Prop :=
  In r (drift_runs db) /\ model_id r = m /\
  forall r' : DriftRun,
    In r' (drift_runs db) -> model_id r' = m -> created_at r' <= created_at r.

End Api.

(** ** Concrete worlds used as examples *)

Module Scenarios.

Import PrimFloat.
Import Worker.
Local Open Scope Z_scope.
Local Open Scope string_scope.
Local Open Scope list_scope.

(** A drift answer with the given KL divergence and verdict. *)
Definition drift_with_kl (kl : float) (detected : bool) : Drift :=
  {| window_start := "2024-01-01T00:00:00";
     window_end := "2024-01-01T01:00:00";
     kl_divergence := kl;
     cosine_similarity := 0.8%float;
     drift_detected := detected |}.

(** A fresh world whose services are up and whose database accepts every
    statement. *)
Definition quiet_world (ms : list Model) (svc : Z -> result Drift) : World :=
  {| service_compute_drift := svc;
     service_health := fun _ => true;
     db_error := fun _ _ => None;
     models := ms;
     drift_runs := [];
     alerts := [];
     clock := 0;
     trace := [] |}.

Definition fraud_model : Model := {| id := 1; name := "fraud-detector" |}.
Definition churn_model : Model := {| id := 2; name := "churn" |}.
Definition ranker_model : Model := {| id := 3; name := "ranker" |}.

(** The computation service answers every model but [bad]. *)
Definition service_failing_for (bad modelId : Z) : result Drift :=
  if (modelId =? bad)%Z then Throw "Request failed with status code 500"
  else Ok (drift_with_kl 0.05%float false).

(** Three registered models; the drift computation of the second fails. *)
Definition world_second_fails : World :=
  quiet_world [fraud_model; churn_model; ranker_model] (service_failing_for 2).

(** The computation service answers from time 4000 on, the database from
    time 2000 on. *)
Definition world_ready_at_4000 : World :=
  {| service_compute_drift := service_failing_for 0;
     service_health := fun t => (4000 <=? t)%Z;
     db_error :=
       fun t _ => if (2000 <=? t)%Z then None else Some "ECONNREFUSED";
     models := [fraud_model];
     drift_runs := [];
     alerts := [];
     clock := 0;
     trace := [] |}.

(** The computation service never answers. *)
Definition world_never_ready : World :=
  {| service_compute_drift := service_failing_for 0;
     service_health := fun _ => false;
     db_error := fun _ _ => None;
     models := [fraud_model];
     drift_runs := [];
     alerts := [];
     clock := 0;
     trace := [] |}.

Definition run_at (t : Z) (m : Z) (detected : option bool) : Api.DriftRun :=
  {| Api.id := t;
     Api.model_id := m;
     Api.window_start := "2024-01-01T00:00:00";
     Api.window_end := "2024-01-01T01:00:00";
     Api.kl_divergence := Some 0.05%float;
     Api.cosine_similarity := Some 0.8%float;
     Api.drift_detected := detected;
     Api.created_at := t |}.

Definition small_integer_of_text (s : string) : option Z :=
  if String.eqb s "1" then Some 1
  else if String.eqb s "2" then Some 2
  else if String.eqb s "3" then Some 3
  else None.

(** Model 1 drifted at time 100 and was stable at time 200; model 2 drifted
    at time 300; model 3 has no run. *)
Definition database_example : Api.Database :=
  {| Api.query_error := None;
     Api.integer_of_text := small_integer_of_text;
     Api.drift_runs :=
       [run_at 100 1 (Some true); run_at 200 1 (Some false);
        run_at 300 2 (Some true)] |}.

End Scenarios.

(** ** What one check of a model writes *)

Module WorkerViews.

Import PrimFloat.
Import Worker.
Local Open Scope Z_scope.
Local Open Scope string_scope.
Local Open Scope list_scope.

(** The world after [computeDrift] answered [drift], the line for the model
    was printed and the insert of the drift run was sent. *)
Definition after_store_query (w : World) (m : Model) (drift : Drift) : World :=
  emit (Query (InsertDriftRun (id m) drift))
    (emit (Print (ModelLine (name m) (kl_divergence drift)
                    (cosine_similarity drift) (drift_detected drift)))
       (emit (HttpPostComputeDrift (id m) (windowMinutes DRIFT_CONFIG)
                (baselineMinutes DRIFT_CONFIG)) w)).

(** The row [storeDriftRun] inserts for model [m] in world [w]. *)
Definition stored_run (w : World) (m : Model) (drift : Drift) : DriftRunRow :=
  {| run_id := next_drift_run_id w;
     run_model_id := id m;
     run_drift := drift |}.

(** The severity and message [createAlert] computes. *)
Definition alert_severity (drift : Drift) : string :=
  if (criticalThreshold DRIFT_CONFIG <? kl_divergence drift)%float
  then "critical" else "warning".

Definition alert_message (m : Model) (drift : Drift) : AlertMessage :=
  {| message_model := name m;
     message_kl := kl_divergence drift;
     message_cosine := cosine_similarity drift |}.

(** The row [createAlert] inserts for the run stored in world [w]. *)
Definition raised_alert (w : World) (m : Model) (drift : Drift) : AlertRow :=
  {| alert_model_id := id m;
     alert_drift_run_id := next_drift_run_id w;
     severity := alert_severity drift;
     message := alert_message m drift |}.

(** The insert [createAlert] sends for the run stored in world [w]. *)
Definition alert_insert (w : World) (m : Model) (drift : Drift) : Sql :=
  InsertAlert (id m) (next_drift_run_id w) (alert_severity drift)
    (alert_message m drift).

(** Whether the computation service reports drift for a model. *)
Definition drifting (w : World) (m : Model) : bool :=
  match service_compute_drift w (id m) with
  | Ok drift => drift_detected drift
  | Throw _ => false
  end.

(** The number of health probes and of [SELECT 1] probes in a trace. *)
Fixpoint health_probes (events : list Event) : nat :=
  match events with
  | [] => 0
  | HttpGetHealth :: rest => S (health_probes rest)
  | _ :: rest => health_probes rest
  end.

Fixpoint database_probes (events : list Event) : nat :=
  match events with
  | [] => 0
  | Query SelectOne :: rest => S (database_probes rest)
  | _ :: rest => database_probes rest
  end.

(** Each alert of [als] belongs to a run of [runs] that reports drift. *)
Definition alerts_match_runs (runs : list DriftRunRow) (als : list AlertRow)
  : Prop :=
  Forall (fun alert =>
            exists run : DriftRunRow,
              In run runs /\
              alert_drift_run_id alert = run_id run /\
              alert_model_id alert = run_model_id run /\
              drift_detected (run_drift run) = true) als.

(** The computation service reports drift for model [hot] only. *)
Definition service_drifting_for (hot modelId : Z) : result Drift :=
  if (modelId =? hot)%Z then Ok (Scenarios.drift_with_kl 0.6%float true)
  else Ok (Scenarios.drift_with_kl 0.05%float false).

(** Three registered models, everything up; the second model drifts. *)
Definition world_one_drifts : World :=
  Scenarios.quiet_world
    [Scenarios.fraud_model; Scenarios.churn_model; Scenarios.ranker_model]
    (service_drifting_for 2).

(** The database rejects every statement. *)
Definition world_database_down : World :=
  {| service_compute_drift := service_drifting_for 2;
     service_health := fun _ => true;
     db_error := fun _ _ => Some "connection refused";
     models := [Scenarios.fraud_model];
     drift_runs := [];
     alerts := [];
     clock := 0;
     trace := [] |}.

(** The database accepts drift runs but rejects alerts. *)
Definition world_rejecting_alerts : World :=
  {| service_compute_drift := service_drifting_for 1;
     service_health := fun _ => true;
     db_error :=
       fun _ s => match s with
                  | InsertAlert _ _ _ _ => Some "deadlock detected"
                  | _ => None
                  end;
     models := [Scenarios.fraud_model];
     drift_runs := [];
     alerts := [];
     clock := 0;
     trace := [] |}.

End WorkerViews.

(** ** api/index.js: GET /drift/history and GET /alerts *)

Module ApiLists.

Import Api.
Local Open Scope string_scope.
Local Open Scope list_scope.
Local Open Scope Z_scope.

(** A destructuring default, [{ name = value } = req.query]: the default is
    taken only when the parameter is absent. *)
Definition param_or (query_value : option string) (default : Z) : Param :=
  match query_value with
  | None => Number default
  | Some s => Text s
  end.

(** How the server reads a parameter bound to an integer. *)
Definition integer_of_param (read : string -> option Z) (p : Param)
  : result Z :=
  match p with
  | Number n => Ok n
  | Text s =>
      match read s with
      | Some n => Ok n
      | None => Throw "invalid input syntax for type integer"
      end
  end.

(** [ORDER BY created_at DESC]: insertion of a row into rows already in
    descending order; a row stored earlier stays before rows with the same
    timestamp. *)
Fixpoint insert_desc {A : Type} (key : A -> Z) (r : A) (sorted : list A)
  : list A :=
  match sorted with
  | [] => [r]
  | x :: rest =>
      if key x <=? key r then r :: x :: rest
      else x :: insert_desc key r rest
  end.

Fixpoint order_desc {A : Type} (key : A -> Z) (rows : list A) : list A :=
  match rows with
  | [] => []
  | r :: rest => insert_desc key r (order_desc key rest)
  end.

(** [LIMIT $n]: a negative count is an error. *)
Definition limit_rows {A : Type} (n : Z) (rows : list A) : result (list A) :=
  if n <? 0 then Throw "LIMIT must not be negative"
  else Ok (firstn (Z.to_nat n) rows).

(** [SELECT * FROM drift_runs WHERE model_id = $1 ORDER BY created_at DESC
    LIMIT $2] *)
Definition query_history (db : Database) (model_id limit : Param)
  : result (list DriftRun) :=
  match query_error db with
  | Some err => Throw err
  | None =>
      match integer_of_param (integer_of_text db) model_id with
      | Throw err => Throw err
      | Ok m =>
          match integer_of_param (integer_of_text db) limit with
          | Throw err => Throw err
          | Ok n =>
              limit_rows n
                (order_desc created_at
                   (filter (fun r => Api.model_id r =? m) (drift_runs db)))
          end
      end
  end.

(** The answer of a list endpoint: the rows, or status 500 with the error
    message. *)
Inductive ListResponse (A : Type) : Type :=
| Rows (rows : list A)
| Failed (status : Z) (error : string).

Arguments Rows {A} rows.
Arguments Failed {A} status error.

(** The handler of [GET /drift/history]. *)
Definition get_drift_history (db : Database)
  (query_model_id query_limit : option string) : ListResponse DriftRun :=
  let model_id := param_or query_model_id DEFAULT_MODEL_ID in
  let limit := param_or query_limit 50 in
  match query_history db model_id limit with
  | Ok rows => Rows (rev rows)
  | Throw err => Failed 500 err
  end.

(** Entries in descending order of [key]. *)
Fixpoint descending {A : Type} (key : A -> Z) (rows : list A) : Prop :=
  match rows with
  | [] => True
  | r :: rest =>
      (forall r', In r' rest -> key r' <= key r) /\ descending key rest
  end.

(** Rows in ascending order of [created_at]. *)
Fixpoint ascending (rows : list DriftRun) : Prop :=
  match rows with
  | [] => True
  | r :: rest =>
      (forall r', In r' rest -> created_at r <= created_at r') /\
      ascending rest
  end.

(** *** GET /alerts *)

(** A row of [alerts]; every column but the timestamp may be NULL. *)
Record Alert : Type := {
  alert_id : Z;
  alert_model_id : option Z;
  alert_drift_run_id : option Z;
  alert_severity : option string;
  alert_message : option string;
  alert_acknowledged : option bool;
  alert_created_at : Z
}.

(** A row of [models], as far as the join reads it. *)
Record ModelRow : Type := {
  model_row_id : Z;
  model_row_name : string
}.

(** A row of [SELECT a.*, m.name as model_name]. *)
Record AlertWithModel : Type := {
  alert : Alert;
  model_name : string
}.

Record AlertStore : Type := {
  store_query_error : option string;
  store_integer_of_text : string -> option Z;
  alerts_table : list Alert;
  models_table : list ModelRow
}.

(** [a.model_id = m.id]; a NULL [model_id] matches no model. *)
Definition joins (a : Alert) (m : ModelRow) : bool :=
  match alert_model_id a with
  | Some k => k =? model_row_id m
  | None => false
  end.

(** [FROM alerts a JOIN models m ON a.model_id = m.id] *)
Definition alerts_join_models (store : AlertStore) : list AlertWithModel :=
  flat_map
    (fun a =>
       map (fun m => {| alert := a; model_name := model_row_name m |})
         (filter (joins a) (models_table store)))
    (alerts_table store).

(** [WHERE a.model_id = $1] *)
Definition of_model (m : Z) (row : AlertWithModel) : bool :=
  match alert_model_id (alert row) with
  | Some k => k =? m
  | None => false
  end.

Definition newest_first (rows : list AlertWithModel) : list AlertWithModel :=
  order_desc (fun row => alert_created_at (alert row)) rows.

(** The query of [GET /alerts], with or without its [WHERE] clause. *)
Definition query_alerts (store : AlertStore) (where_model : option Param)
  (limit : Param) : result (list AlertWithModel) :=
  match store_query_error store with
  | Some err => Throw err
  | None =>
      let selected :=
        match where_model with
        | None => Ok (alerts_join_models store)
        | Some p =>
            match integer_of_param (store_integer_of_text store) p with
            | Throw err => Throw err
            | Ok m => Ok (filter (of_model m) (alerts_join_models store))
            end
        end in
      match selected with
      | Throw err => Throw err
      | Ok rows =>
          match integer_of_param (store_integer_of_text store) limit with
          | Throw err => Throw err
          | Ok n => limit_rows n (newest_first rows)
          end
      end
  end.

(** The handler of [GET /alerts]: the [WHERE] clause and its parameter are
    added only for a truthy [model_id], that is a non-empty string. *)
Definition get_alerts (store : AlertStore)
  (query_model_id query_limit : option string) : ListResponse AlertWithModel :=
  let limit := param_or query_limit 20 in
  let where_model :=
    match query_model_id with
    | None => None
    | Some s => if String.eqb s "" then None else Some (Text s)
    end in
  match query_alerts store where_model limit with
  | Ok rows => Rows rows
  | Throw err => Failed 500 err
  end.

(** Two registered models; one alert each, one alert without a model and
    one alert of an unregistered model. *)
Definition alert_at (t : Z) (m : option Z) : Alert :=
  {| alert_id := t;
     alert_model_id := m;
     alert_drift_run_id := Some t;
     alert_severity := Some "warning";
     alert_message := Some "Drift detected";
     alert_acknowledged := Some false;
     alert_created_at := t |}.

Definition alert_store_example : AlertStore :=
  {| store_query_error := None;
     store_integer_of_text := Scenarios.small_integer_of_text;
     alerts_table :=
       [alert_at 10 (Some 1); alert_at 20 (Some 2); alert_at 30 None;
        alert_at 40 (Some 9)];
     models_table :=
       [{| model_row_id := 1; model_row_name := "fraud-detector" |};
        {| model_row_id := 2; model_row_name := "churn" |}] |}.

End ApiLists.

(** ** routes/drift.ts: POST /api/drift/calculate *)

Module DriftRoute.

Import Metrics.
Local Open Scope string_scope.
Local Open Scope list_scope.
Local Open Scope R_scope.

(** A field of the request body: absent, some value that is not an array
    (truthy or falsy), or an array of numbers, the type the metric functions
    declare for their arguments. *)
Inductive BodyValue : Type :=
| Missing
| NotArray (truthy : bool)
| NumberArray (values : list R).

Record CalculateBody : Type := {
  baseline : BodyValue;
  current : BodyValue;
  modelId : option string
}.

(** JavaScript truthiness and [Array.isArray]. *)
Definition is_truthy (v : BodyValue) : bool :=
  match v with
  | Missing => false
  | NotArray t => t
  | NumberArray _ => true
  end.

Definition isArray (v : BodyValue) : bool :=
  match v with
  | NumberArray _ => true
  | _ => false
  end.

(** [v.length] of an array; the handler only asks it of arrays. *)
Definition elements (v : BodyValue) : list R :=
  match v with
  | NumberArray values => values
  | _ => []
  end.

(** A row of [drift_metrics]. *)
Record MetricRow : Type := {
  row_id : Z;
  row_model_id : string;
  row_cosine_distance : R;
  row_kl_divergence : R;
  row_baseline_distribution : list R;
  row_current_distribution : list R
}.

(** The server: the table, the error (if any) with which the database
    rejects the insert of a row, and what was written with
    [console.error]. *)
Record Server : Type := {
  drift_metrics : list MetricRow;
  insert_error : MetricRow -> option string;
  console : list string
}.

Record MetricsBody : Type := {
  cosineDistance : R;
  cosineSimilarity : R;
  klDivergence : R
}.

Inductive Body : Type :=
| ErrorBody (error : string)
| SuccessBody (metrics : MetricsBody) (stored : MetricRow).

Record Response : Type := {
  status : Z;
  body : Body
}.

(** [modelId || 'default'] *)
Definition model_id_or_default (modelId : option string) : string :=
  match modelId with
  | None => "default"
  | Some s => if String.eqb s "" then "default" else s
  end.

(** The [try] block: both metrics, then the insert. *)
Definition compute_and_store (server : Server) (req : CalculateBody)
  : result (MetricsBody * MetricRow) :=
  match calculateCosineSimilarity (elements (baseline req))
          (elements (current req)) with
  | Throw err => Throw err
  | Ok cosineSimilarity =>
      match calculateKLDivergence (elements (baseline req))
              (elements (current req)) with
      | Throw err => Throw err
      | Ok klDivergence =>
          let cosineDistance := 1 - cosineSimilarity in
          let row :=
            {| row_id := (Z.of_nat (length (drift_metrics server)) + 1)%Z;
               row_model_id := model_id_or_default (modelId req);
               row_cosine_distance := cosineDistance;
               row_kl_divergence := klDivergence;
               row_baseline_distribution := elements (baseline req);
               row_current_distribution := elements (current req) |} in
          match insert_error server row with
          | Some err => Throw err
          | None =>
              Ok ({| cosineDistance := cosineDistance;
                     cosineSimilarity := cosineSimilarity;
                     klDivergence := klDivergence |}, row)
          end
      end
  end.

(** The handler of [POST /calculate]. *)
Definition post_calculate (server : Server) (req : CalculateBody)
  : Response * Server :=
  if negb (is_truthy (baseline req)) || negb (is_truthy (current req))
     || negb (isArray (baseline req)) || negb (isArray (current req))
  then
    ({| status := 400;
        body := ErrorBody
                  "Invalid input: baseline and current must be arrays" |},
     server)
  else if negb (Nat.eqb (length (elements (baseline req)))
                  (length (elements (current req))))
  then
    ({| status := 400;
        body :=
          ErrorBody
            "Baseline and current distributions must have the same length"
     |},
     server)
  else
    match compute_and_store server req with
    | Ok (metrics, row) =>
        ({| status := 200; body := SuccessBody metrics row |},
         {| drift_metrics := drift_metrics server ++ [row];
            insert_error := insert_error server;
            console := console server |})
    | Throw err =>
        ({| status := 500;
            body := ErrorBody "Failed to calculate drift metrics" |},
         {| drift_metrics := drift_metrics server;
            insert_error := insert_error server;
            console := console server ++ [err] |})
    end.

(** Both fields are arrays of the same length. *)
Definition well_formed (req : CalculateBody) : Prop :=
  exists b c : list R,
    baseline req = NumberArray b /\ current req = NumberArray c /\
    length b = length c.

End DriftRoute.

(** ** routes/drift.ts on binary64 numbers *)

(** The handler of [POST /calculate] again, with the metric functions of
    [Metrics64]: the numbers it computes, stores and returns are the rounded
    ones. *)
Module DriftRoute64.

Import PrimFloat.
Import Metrics64.
Local Open Scope float_scope.

Inductive BodyValue : Type :=
| Missing
| NotArray (truthy : bool)
| NumberArray (values : list float).

Record CalculateBody : Type := {
  baseline : BodyValue;
  current : BodyValue;
  modelId : option string
}.

Definition is_truthy (v : BodyValue) : bool :=
  match v with
  | Missing => false
  | NotArray t => t
  | NumberArray _ => true
  end.

Definition isArray (v : BodyValue) : bool :=
  match v with
  | NumberArray _ => true
  | _ => false
  end.

Definition elements (v : BodyValue) : list float :=
  match v with
  | NumberArray values => values
  | _ => []
  end.

(** A row of [drift_metrics]. *)
Record MetricRow : Type := {
  row_id : Z;
  row_model_id : string;
  row_cosine_distance : float;
  row_kl_divergence : float;
  row_baseline_distribution : list float;
  row_current_distribution : list float
}.

Record Server : Type := {
  drift_metrics : list MetricRow;
  insert_error : MetricRow -> option string;
  console : list string
}.

Record MetricsBody : Type := {
  cosineDistance : float;
  cosineSimilarity : float;
  klDivergence : float
}.

Inductive Body : Type :=
| ErrorBody (error : string)
| SuccessBody (metrics : MetricsBody) (stored : MetricRow).

Record Response : Type := {
  status : Z;
  body : Body
}.

Section MathLog.
Variable Math_log : float -> float.

(** The [try] block: both metrics, then the insert. *)
Definition compute_and_store (server : Server) (req : CalculateBody)
  : result (MetricsBody * MetricRow) :=
  match calculateCosineSimilarity (elements (baseline req))
          (elements (current req)) with
  | Throw err => Throw err
  | Ok cosineSimilarity =>
      match calculateKLDivergence Math_log (elements (baseline req))
              (elements (current req)) with
      | Throw err => Throw err
      | Ok klDivergence =>
          let cosineDistance := 1 - cosineSimilarity in
          let row :=
            {| row_id := (Z.of_nat (length (drift_metrics server)) + 1)%Z;
               row_model_id := DriftRoute.model_id_or_default (modelId req);
               row_cosine_distance := cosineDistance;
               row_kl_divergence := klDivergence;
               row_baseline_distribution := elements (baseline req);
               row_current_distribution := elements (current req) |} in
          match insert_error server row with
          | Some err => Throw err
          | None =>
              Ok ({| cosineDistance := cosineDistance;
                     cosineSimilarity := cosineSimilarity;
                     klDivergence := klDivergence |}, row)
          end
      end
  end.

(** The handler of [POST /calculate]. *)
Definition post_calculate (server : Server) (req : CalculateBody)
  : Response * Server :=
  if negb (is_truthy (baseline req)) || negb (is_truthy (current req))
     || negb (isArray (baseline req)) || negb (isArray (current req))
  then
    ({| status := 400;
        body := ErrorBody
                  "Invalid input: baseline and current must be arrays" |},
     server)
  else if negb (Nat.eqb (length (elements (baseline req)))
                  (length (elements (current req))))
  then
    ({| status := 400;
        body :=
          ErrorBody
            "Baseline and current distributions must have the same length"
     |},
     server)
  else
    match compute_and_store server req with
    | Ok (metrics, row) =>
        ({| status := 200; body := SuccessBody metrics row |},
         {| drift_metrics := drift_metrics server ++ [row];
            insert_error := insert_error server;
            console := console server |})
    | Throw err =>
        ({| status := 500;
            body := ErrorBody "Failed to calculate drift metrics" |},
         {| drift_metrics := drift_metrics server;
            insert_error := insert_error server;
            console := console server ++ [err] |})
    end.

End MathLog.

(** A server with an empty table whose database accepts every row. *)
Definition fresh_server : Server :=
  {| drift_metrics := [];
     insert_error := fun _ => None;
     console := [] |}.

End DriftRoute64.

(** ** services/ingestion.ts: sample distributions *)

Module Ingestion.

Local Open Scope R_scope.

(** [Math.exp(-Math.pow(i - size / 2, 2) / (2 * Math.pow(size / 4, 2)))] *)
Definition base (size i : nat) : R :=
  exp (- ((INR i - INR size / 2) ^ 2) / (2 * (INR size / 4) ^ 2)).

(** [generateSampleDistribution(size, drift)].  [random i] is what
    [Math.random()] returns in the pass of the loop with index [i]. *)
Definition generateSampleDistribution (random : nat -> R) (size : nat)
  (drift : R) : list R :=
  map (fun i =>
         let driftValue := drift * (random i - 0.5) * 2 in
         Rmax 0 (base size i + driftValue))
    (seq 0 size).

(** The contract of [Math.random]. *)
Definition in_unit_interval (random : nat -> R) : Prop :=
  forall i : nat, 0 <= random i < 1.

End Ingestion.

(** * Properties of metrics.ts *)

Module MetricsFacts.

Import Metrics.
Local Open Scope R_scope.

(** *** Index loops as folds over the paired entries *)

Section IndexLoop.
Variable St : Type.
Variable g : St -> R -> R -> St.

Lemma at_index_middle (pre post : list R) (x : R) :
  at_index (pre ++ x :: post) (length pre) = x.
Proof. unfold at_index. apply nth_middle. Qed.

Lemma index_loop_offset (a b pa pb : list R) (acc : St) :
  length pa = length pb ->
  length a = length b ->
  fold_left (fun s i => g s (at_index (pa ++ a) i) (at_index (pb ++ b) i))
    (seq (length pa) (length a)) acc
  = fold_left (fun s xy => g s (fst xy) (snd xy)) (combine a b) acc.
Proof.
  revert b pa pb acc.
  induction a as [|x a IH]; intros [|y b] pa pb acc Hp Hl;
    simpl in Hl; try discriminate; [reflexivity|].
  cbn [length seq fold_left combine fst snd].
  rewrite at_index_middle, Hp, at_index_middle.
  specialize (IH b (pa ++ [x]) (pb ++ [y]) (g acc x y)).
  rewrite !length_app, <- !app_assoc in IH. simpl in IH.
  rewrite !Nat.add_1_r, <- Hp in IH.
  rewrite <- Hp.
  apply IH; [reflexivity | now injection Hl].
Qed.

Lemma index_loop (a b : list R) (acc : St) :
  length a = length b ->
  fold_left (fun s i => g s (at_index a i) (at_index b i))
    (seq 0 (length a)) acc
  = fold_left (fun s xy => g s (fst xy) (snd xy)) (combine a b) acc.
Proof.
  intro Hl. exact (index_loop_offset a b [] [] acc eq_refl Hl).
Qed.
End IndexLoop.

(** *** The sums the cosine loop accumulates *)

Lemma cosine_acc_fold (a b : list R) (d ma mb : R) :
  length a = length b ->
  fold_left (fun s xy => cosine_acc s (fst xy) (snd xy)) (combine a b)
    (d, ma, mb)
  = (d + dot a b, ma + dot a a, mb + dot b b).
Proof.
  revert b d ma mb.
  induction a as [|x a IH]; intros [|y b] d ma mb Hl; simpl in Hl;
    try discriminate.
  - simpl. now rewrite !Rplus_0_r.
  - cbn [combine fold_left fst snd cosine_acc dot].
    rewrite IH by now injection Hl.
    f_equal; [f_equal|]; ring.
Qed.

Lemma cosine_loop_sums (a b : list R) :
  length a = length b ->
  cosine_loop a b = (dot a b, dot a a, dot b b).
Proof.
  intro Hl. unfold cosine_loop.
  change (cosine_step a b)
    with (fun s i => cosine_acc s (at_index a i) (at_index b i)).
  rewrite (index_loop _ cosine_acc a b (0, 0, 0) Hl).
  rewrite cosine_acc_fold by assumption.
  now rewrite !Rplus_0_l.
Qed.

Lemma same_length_test (A : Type) (a b : list A) :
  length a = length b -> negb (Nat.eqb (length a) (length b)) = false.
Proof. intros ->. now rewrite Nat.eqb_refl. Qed.

Lemma different_length_test (A : Type) (a b : list A) :
  length a <> length b -> negb (Nat.eqb (length a) (length b)) = true.
Proof. intro H. apply Nat.eqb_neq in H. now rewrite H. Qed.

(** What [calculateCosineSimilarity] returns on equal lengths, in terms of
    the three sums. *)
Lemma cosine_unfold (a b : list R) :
  length a = length b ->
  calculateCosineSimilarity a b =
    if Req_dec_T (sqrt (dot a a)) 0 then Ok 0
    else if Req_dec_T (sqrt (dot b b)) 0 then Ok 0
    else Ok (dot a b / (sqrt (dot a a) * sqrt (dot b b))).
Proof.
  intro Hl. unfold calculateCosineSimilarity.
  rewrite (same_length_test _ a b Hl), (cosine_loop_sums a b Hl).
  reflexivity.
Qed.

(** C5. On inputs of different lengths both functions throw on their first
    line, before any sum is formed, whatever the entries are: the cosine
    similarity throws "Vectors must have the same length" and the KL
    divergence "Distributions must have the same length" (the error the spec
    calls DimensionMismatch).  No number is returned. *)
Theorem length_mismatch_throws (a b : list R) :
  length a <> length b ->
  calculateCosineSimilarity a b = Throw "Vectors must have the same length" /\
  calculateKLDivergence a b = Throw "Distributions must have the same length".
Proof.
  intro Hl. unfold calculateCosineSimilarity, calculateKLDivergence.
  now rewrite (different_length_test _ a b Hl).
Qed.

Lemma length_mismatch_throws_witness :
  calculateCosineSimilarity [1; 2; 3] [1; 2]
    = Throw "Vectors must have the same length" /\
  calculateKLDivergence [1; 2; 3] [1; 2]
    = Throw "Distributions must have the same length".
Proof. apply (length_mismatch_throws [1; 2; 3] [1; 2]). simpl. lia. Defined.

(** C9. On two empty vectors the cosine similarity returns 0: the lengths
    agree, the loop body never runs, both magnitudes are [sqrt 0 = 0], and the
    zero-magnitude branch returns before the division. *)
Theorem cosine_empty_vectors :
  calculateCosineSimilarity [] [] = Ok 0.
Proof.
  unfold calculateCosineSimilarity, cosine_loop. simpl.
  rewrite sqrt_0.
  destruct (Req_dec_T 0 0) as [_|N]; [reflexivity | now elim N].
Qed.

(** *** The KL loop *)

Lemma reduce_sum_acc (p : list R) (acc : R) :
  fold_left (fun a val => a + val) p acc = acc + reduce_sum p.
Proof.
  unfold reduce_sum. revert acc.
  induction p as [|x p IH]; intro acc; simpl; [lra|].
  rewrite (IH (acc + x)), (IH (0 + x)). lra.
Qed.

Lemma reduce_sum_cons (x : R) (p : list R) :
  reduce_sum (x :: p) = x + reduce_sum p.
Proof.
  unfold reduce_sum at 1. simpl. rewrite reduce_sum_acc. lra.
Qed.

Lemma reduce_sum_nil : reduce_sum [] = 0.
Proof. reflexivity. Qed.




(** *** Sums of non-negative entries *)

Lemma reduce_sum_nonneg (p : list R) :
  Forall (fun x => 0 <= x) p -> 0 <= reduce_sum p.
Proof.
  induction 1 as [|x p Hx Hp IH].
  - rewrite reduce_sum_nil. lra.
  - rewrite reduce_sum_cons. lra.
Qed.

End MetricsFacts.

(** * Rounding to binary64 *)

(** Facts about the specification of the binary64 operations
    ([SpecFloat]): how many binary digits a rounded result has, from which
    it follows that a sum of numbers that are not negative is at least as
    large, up to a factor of two, as each of them, and that dividing a
    number by such a sum never gives [Infinity]. *)
Module Rounding.

Import Magnitude.
Local Open Scope Z_scope.

Lemma fexp_eq (k : Z) : fexp k = Z.max (k - 53) (-1074).
Proof. reflexivity. Qed.

Lemma digits_bounds (p : positive) :
  2 ^ (Z.pos (digits p) - 1) <= Z.pos p < 2 ^ Z.pos (digits p).
Proof.
  induction p as [p IH|p IH|]; cbn [SpecFloat.digits2_pos];
    [| |split; reflexivity].
  all: rewrite Pos2Z.inj_succ;
    replace (Z.succ (Z.pos (digits p)) - 1)
      with (Z.succ (Z.pos (digits p) - 1)) by lia;
    rewrite !Z.pow_succ_r by lia;
    replace (2 ^ Z.pos (digits p)) with (2 * 2 ^ (Z.pos (digits p) - 1)) in *
      by (rewrite <- Z.pow_succ_r by lia; f_equal; lia);
    lia.
Qed.

Lemma digits_le (p : positive) (k : Z) :
  Z.pos p < 2 ^ k -> Z.pos (digits p) <= k.
Proof.
  intro H.
  destruct (Z.le_gt_cases (Z.pos (digits p)) k) as [|Hk]; [assumption|].
  exfalso. pose proof (digits_bounds p) as [Hl _].
  destruct (Z.lt_ge_cases k 0) as [Hneg|Hpos].
  - rewrite Z.pow_neg_r in H by assumption. lia.
  - assert (2 ^ k <= 2 ^ (Z.pos (digits p) - 1))
      by (apply Z.pow_le_mono_r; lia).
    lia.
Qed.

Lemma digits_gt (p : positive) (k : Z) :
  2 ^ k <= Z.pos p -> k < Z.pos (digits p).
Proof.
  intro H.
  destruct (Z.lt_ge_cases k (Z.pos (digits p))) as [|Hk]; [assumption|].
  exfalso. pose proof (digits_bounds p) as [_ Hu].
  assert (2 ^ Z.pos (digits p) <= 2 ^ k) by (apply Z.pow_le_mono_r; lia).
  lia.
Qed.

Lemma digits_mono (p q : positive) :
  Z.pos p <= Z.pos q -> Z.pos (digits p) <= Z.pos (digits q).
Proof.
  intro H. apply digits_le. pose proof (digits_bounds q). lia.
Qed.

Lemma digits_shift (p : positive) (d : positive) :
  digits (Pos.iter xO p d) = (digits p + d)%positive.
Proof.
  revert p. induction d as [|d IH] using Pos.peano_ind; intro p.
  - cbn. lia.
  - rewrite Pos.iter_succ. cbn [SpecFloat.digits2_pos]. rewrite IH. lia.
Qed.

Lemma shift_value (p : positive) (d : positive) :
  Z.pos (Pos.iter xO p d) = Z.pos p * 2 ^ Z.pos d.
Proof.
  revert p. induction d as [|d IH] using Pos.peano_ind; intro p.
  - cbn. lia.
  - rewrite Pos.iter_succ, Pos2Z.inj_xO, IH, Pos2Z.inj_succ, Z.pow_succ_r
      by lia.
    lia.
Qed.

(** *** Shifting to the right *)

Lemma shr_1_m (r : SpecFloat.shr_record) :
  0 <= SpecFloat.shr_m r ->
  SpecFloat.shr_m (SpecFloat.shr_1 r) = SpecFloat.shr_m r / 2.
Proof.
  destruct r as [m r s]. cbn [SpecFloat.shr_m]. intro Hm.
  destruct m as [|[p|p|]|p]; cbn [SpecFloat.shr_1 SpecFloat.shr_m];
    try lia; try reflexivity.
  - rewrite Pos2Z.inj_xI. apply (Z.div_unique _ _ _ 1); lia.
  - rewrite Pos2Z.inj_xO. apply (Z.div_unique _ _ _ 0); lia.
Qed.

Lemma iter_shr_m (n : positive) (r : SpecFloat.shr_record) :
  0 <= SpecFloat.shr_m r ->
  SpecFloat.shr_m (SpecFloat.iter_pos SpecFloat.shr_1 n r)
  = SpecFloat.shr_m r / 2 ^ Z.pos n.
Proof.
  revert r. induction n as [n IH|n IH|]; intros r Hr;
    cbn [SpecFloat.iter_pos].
  - assert (H1 : 0 <= SpecFloat.shr_m (SpecFloat.shr_1 r))
      by (rewrite shr_1_m by assumption; apply Z.div_pos; lia).
    assert (H2 : 0 <= SpecFloat.shr_m
                        (SpecFloat.iter_pos SpecFloat.shr_1 n
                           (SpecFloat.shr_1 r)))
      by (rewrite IH by assumption; apply Z.div_pos; lia).
    rewrite IH, IH, shr_1_m by assumption.
    rewrite !Z.div_div by lia. f_equal.
    replace (Z.pos n~1) with (1 + Z.pos n + Z.pos n) by lia.
    rewrite !Z.pow_add_r by lia. change (2 ^ 1) with 2. ring.
  - assert (H2 : 0 <= SpecFloat.shr_m (SpecFloat.iter_pos SpecFloat.shr_1 n r))
      by (rewrite IH by assumption; apply Z.div_pos; lia).
    rewrite IH, IH by assumption.
    rewrite !Z.div_div by lia. f_equal.
    replace (Z.pos n~0) with (Z.pos n + Z.pos n) by lia.
    rewrite !Z.pow_add_r by lia. ring.
  - rewrite shr_1_m by assumption. reflexivity.
Qed.


Lemma Zdigits2_nonneg (m : Z) : 0 <= SpecFloat.Zdigits2 m.
Proof. destruct m; cbn; lia. Qed.

Lemma Zdigits2_upper (m : Z) : 0 <= m -> m < 2 ^ SpecFloat.Zdigits2 m.
Proof.
  destruct m as [|p|p]; cbn [SpecFloat.Zdigits2]; intro;
    [reflexivity | apply digits_bounds | lia].
Qed.

Lemma Zdigits2_le (m k : Z) :
  0 <= m < 2 ^ k -> 0 <= k -> SpecFloat.Zdigits2 m <= k.
Proof.
  destruct m as [|p|p]; cbn [SpecFloat.Zdigits2]; intros [Hm Hk] Hpos;
    try lia.
  now apply digits_le.
Qed.

Lemma Zdigits2_div (m n : Z) :
  0 <= m -> 0 < n ->
  0 <= m / 2 ^ n /\
  SpecFloat.Zdigits2 (m / 2 ^ n) <= Z.max (SpecFloat.Zdigits2 m - n) 0.
Proof.
  intros Hm Hn.
  assert (Hp : 0 < 2 ^ n) by (apply Z.pow_pos_nonneg; lia).
  assert (Hq : 0 <= m / 2 ^ n) by (apply Z.div_pos; lia).
  split; [assumption|].
  pose proof (Zdigits2_upper m Hm) as Hu.
  pose proof (Zdigits2_nonneg m) as Hd.
  apply Zdigits2_le; [|lia]. split; [assumption|].
  apply Z.div_lt_upper_bound; [assumption|].
  rewrite <- Z.pow_add_r by lia.
  assert (2 ^ SpecFloat.Zdigits2 m
          <= 2 ^ (n + Z.max (SpecFloat.Zdigits2 m - n) 0))
    by (apply Z.pow_le_mono_r; lia).
  lia.
Qed.

Lemma Zdigits2_succ (m : Z) :
  0 <= m -> SpecFloat.Zdigits2 (m + 1) <= SpecFloat.Zdigits2 m + 1.
Proof.
  intro Hm. pose proof (Zdigits2_upper m Hm). pose proof (Zdigits2_nonneg m).
  apply Zdigits2_le; [|lia].
  rewrite Z.pow_add_r by lia. change (2 ^ 1) with 2. lia.
Qed.

(** Dropping [n] of the [d] digits of a positive number leaves a positive
    number of [d - n] digits. *)
Lemma digits_div (p : positive) (n : Z) :
  0 < n < Z.pos (digits p) ->
  exists q : positive,
    Z.pos p / 2 ^ n = Z.pos q /\ Z.pos (digits q) = Z.pos (digits p) - n.
Proof.
  intros [Hn Hd]. pose proof (digits_bounds p) as [Hl Hu].
  assert (Hp : 0 < 2 ^ n) by (apply Z.pow_pos_nonneg; lia).
  assert (Hlow : 2 ^ (Z.pos (digits p) - n - 1) <= Z.pos p / 2 ^ n).
  { apply Z.div_le_lower_bound; [assumption|].
    rewrite <- Z.pow_add_r by lia.
    replace (n + (Z.pos (digits p) - n - 1)) with (Z.pos (digits p) - 1)
      by lia.
    assumption. }
  assert (Hup : Z.pos p / 2 ^ n < 2 ^ (Z.pos (digits p) - n)).
  { apply Z.div_lt_upper_bound; [assumption|].
    rewrite <- Z.pow_add_r by lia.
    replace (n + (Z.pos (digits p) - n)) with (Z.pos (digits p)) by lia.
    assumption. }
  assert (0 < 2 ^ (Z.pos (digits p) - n - 1))
    by (apply Z.pow_pos_nonneg; lia).
  destruct (Z.pos p / 2 ^ n) as [|q|q] eqn:E; try lia.
  exists q. split; [reflexivity|].
  pose proof (digits_le q _ Hup). pose proof (digits_gt q _ Hlow). lia.
Qed.

(** *** Rounding a mantissa and an exponent to a binary64 number *)

Lemma shr_record_m (m : Z) (l : SpecFloat.location) :
  SpecFloat.shr_m (SpecFloat.shr_record_of_loc m l) = m.
Proof. destruct l as [|[]]; reflexivity. Qed.

Lemma shr_fexp_cases (m e : Z) (l : SpecFloat.location) :
  0 <= m ->
  exists (mrs : SpecFloat.shr_record) (e' : Z),
    SpecFloat.shr_fexp 53 1024 m e l = (mrs, e') /\
    ((fexp (SpecFloat.Zdigits2 m + e) - e <= 0 /\
      SpecFloat.shr_m mrs = m /\ e' = e) \/
     (0 < fexp (SpecFloat.Zdigits2 m + e) - e /\
      SpecFloat.shr_m mrs = m / 2 ^ (fexp (SpecFloat.Zdigits2 m + e) - e) /\
      e' = fexp (SpecFloat.Zdigits2 m + e))).
Proof.
  intro Hm. unfold SpecFloat.shr_fexp, SpecFloat.shr.
  destruct (fexp (SpecFloat.Zdigits2 m + e) - e) as [|n|n] eqn:En.
  - do 2 eexists. split; [reflexivity|]. left.
    rewrite shr_record_m. repeat split; lia.
  - do 2 eexists. split; [reflexivity|]. right.
    rewrite iter_shr_m, shr_record_m by (rewrite shr_record_m; assumption).
    repeat split; lia.
  - do 2 eexists. split; [reflexivity|]. left.
    rewrite shr_record_m. repeat split; lia.
Qed.

Lemma round_nearest_even_cases (m : Z) (l : SpecFloat.location) :
  SpecFloat.round_nearest_even m l = m \/
  SpecFloat.round_nearest_even m l = m + 1.
Proof.
  destruct l as [|[]]; cbn; try (now left); try (now right).
  destruct (Z.even m); [now left | now right].
Qed.

(** The two shifts and the rounding between them, as arithmetic. *)
Lemma round_aux_cases (s : bool) (mz ez : Z) (l : SpecFloat.location) :
  0 <= mz ->
  exists m1 e1 m1r m2 e2 : Z,
    ((fexp (SpecFloat.Zdigits2 mz + ez) - ez <= 0 /\ m1 = mz /\ e1 = ez) \/
     (0 < fexp (SpecFloat.Zdigits2 mz + ez) - ez /\
      m1 = mz / 2 ^ (fexp (SpecFloat.Zdigits2 mz + ez) - ez) /\
      e1 = fexp (SpecFloat.Zdigits2 mz + ez))) /\
    (m1r = m1 \/ m1r = m1 + 1) /\
    ((fexp (SpecFloat.Zdigits2 m1r + e1) - e1 <= 0 /\ m2 = m1r /\ e2 = e1) \/
     (0 < fexp (SpecFloat.Zdigits2 m1r + e1) - e1 /\
      m2 = m1r / 2 ^ (fexp (SpecFloat.Zdigits2 m1r + e1) - e1) /\
      e2 = fexp (SpecFloat.Zdigits2 m1r + e1))) /\
    SpecFloat.binary_round_aux 53 1024 s mz ez l
    = match m2 with
      | 0 => SpecFloat.S754_zero s
      | Z.pos m =>
          if e2 <=? 971 then SpecFloat.S754_finite s m e2
          else SpecFloat.S754_infinity s
      | Z.neg _ => SpecFloat.S754_nan
      end.
Proof.
  intro Hm. unfold SpecFloat.binary_round_aux.
  destruct (shr_fexp_cases mz ez l Hm) as (mrs1 & e1 & -> & H1).
  set (m1 := SpecFloat.shr_m mrs1) in *.
  set (m1r := SpecFloat.round_nearest_even m1
                (SpecFloat.loc_of_shr_record mrs1)).
  assert (Hm1 : 0 <= m1).
  { destruct H1 as [(_ & -> & _)|(Hn & -> & _)]; [assumption|].
    apply Z.div_pos; [assumption|]. apply Z.pow_pos_nonneg; lia. }
  assert (Hr : m1r = m1 \/ m1r = m1 + 1)
    by apply round_nearest_even_cases.
  assert (Hm1r : 0 <= m1r) by lia.
  destruct (shr_fexp_cases m1r e1 SpecFloat.loc_Exact Hm1r)
    as (mrs2 & e2 & -> & H2).
  exists m1, e1, m1r, (SpecFloat.shr_m mrs2), e2.
  split; [destruct H1 as [(? & ? & ?)|(? & ? & ?)]; [left | right];
          repeat split; assumption|].
  split; [assumption|].
  split; [destruct H2 as [(? & ? & ?)|(? & ? & ?)]; [left | right];
          repeat split; assumption|].
  reflexivity.
Qed.

(** Rounding cannot overflow when the mantissa and the exponent are small
    enough. *)
Lemma round_aux_finite (s s' : bool) (mz ez : Z) (l : SpecFloat.location) :
  0 <= mz -> ez <= 970 -> SpecFloat.Zdigits2 mz + ez <= 1023 ->
  SpecFloat.binary_round_aux 53 1024 s mz ez l <> SpecFloat.S754_infinity s'.
Proof.
  intros Hm He Hd.
  destruct (round_aux_cases s mz ez l Hm)
    as (m1 & e1 & m1r & m2 & e2 & H1 & Hr & H2 & ->).
  rewrite !fexp_eq in *.
  assert (Hb1 : 0 <= m1 /\ e1 <= 970 /\ SpecFloat.Zdigits2 m1 + e1 <= 1023).
  { destruct H1 as [(_ & -> & ->)|(Hn & -> & ->)]; [lia|].
    destruct (Zdigits2_div mz _ Hm Hn) as [Hq Hdq]. lia. }
  destruct Hb1 as (Hm1 & He1 & Hd1).
  assert (Hb2 : 0 <= m1r /\ SpecFloat.Zdigits2 m1r + e1 <= 1024).
  { destruct Hr as [->| ->]; [lia|].
    pose proof (Zdigits2_succ m1 Hm1). lia. }
  destruct Hb2 as (Hm1r & Hd1r).
  assert (He2 : e2 <= 971)
    by (destruct H2 as [(_ & _ & ->)|(_ & _ & ->)]; lia).
  destruct m2 as [|p|p]; try discriminate.
  apply Z.leb_le in He2. now rewrite He2.
Qed.

(** Rounding a positive mantissa whose exponent is not below the least one
    gives [Infinity] or a number with at least as many digits above the
    binary point. *)
Lemma round_aux_grows (s : bool) (p : positive) (ez : Z)
  (l : SpecFloat.location) :
  -1074 <= ez ->
  SpecFloat.binary_round_aux 53 1024 s (Z.pos p) ez l
  = SpecFloat.S754_infinity s \/
  exists (m : positive) (e : Z),
    SpecFloat.binary_round_aux 53 1024 s (Z.pos p) ez l
    = SpecFloat.S754_finite s m e /\
    Z.pos (digits p) + ez <= Z.pos (digits m) + e.
Proof.
  intro He.
  destruct (round_aux_cases s (Z.pos p) ez l ltac:(lia))
    as (m1 & e1 & m1r & m2 & e2 & H1 & Hr & H2 & ->).
  rewrite !fexp_eq in *. cbn [SpecFloat.Zdigits2] in H1.
  assert (Hb1 : exists q1 : positive,
             m1 = Z.pos q1 /\ -1074 <= e1 /\
             Z.pos (digits p) + ez <= Z.pos (digits q1) + e1).
  { destruct H1 as [(_ & -> & ->)|(Hn & -> & ->)]; [exists p; lia|].
    destruct (digits_div p (Z.max (Z.pos (digits p) + ez - 53) (-1074) - ez))
      as (q & Eq & Dq); [lia|].
    exists q. split; [assumption|]. lia. }
  destruct Hb1 as (q1 & -> & He1 & Hd1).
  assert (Hb2 : exists q2 : positive,
             m1r = Z.pos q2 /\
             Z.pos (digits p) + ez <= Z.pos (digits q2) + e1).
  { destruct Hr as [->| ->]; [exists q1; lia|].
    exists (q1 + 1)%positive. split; [lia|].
    assert (Z.pos (digits q1) <= Z.pos (digits (q1 + 1)))
      by (apply digits_mono; lia).
    lia. }
  destruct Hb2 as (q2 & -> & Hd2). cbn [SpecFloat.Zdigits2] in H2.
  assert (Hb3 : exists q3 : positive,
             m2 = Z.pos q3 /\
             Z.pos (digits p) + ez <= Z.pos (digits q3) + e2).
  { destruct H2 as [(_ & -> & ->)|(Hn & -> & ->)]; [exists q2; lia|].
    destruct (digits_div q2 (Z.max (Z.pos (digits q2) + e1 - 53) (-1074) - e1))
      as (q & Eq & Dq); [lia|].
    exists q. split; [assumption|]. lia. }
  destruct Hb3 as (q3 & -> & Hd3).
  destruct (e2 <=? 971); [right; now exists q3, e2 | now left].
Qed.


(** *** Valid numbers *)

Lemma valid_finite (s : bool) (m : positive) (e : Z) :
  SpecFloat.valid_binary 53 1024 (SpecFloat.S754_finite s m e) = true ->
  -1074 <= e <= 971 /\ Z.pos (digits m) <= 53.
Proof.
  cbn [SpecFloat.valid_binary]. unfold SpecFloat.bounded,
    SpecFloat.canonical_mantissa.
  intros [Hc He]%andb_prop. apply Z.eqb_eq in Hc. apply Z.leb_le in He.
  rewrite fexp_eq in Hc. change (1024 - 53) with 971 in He. lia.
Qed.

(** *** Addition of positive numbers *)

Lemma shl_align_spec (m : positive) (e e' : Z) :
  snd (SpecFloat.shl_align m e e') = Z.min e e' /\
  Z.pos (digits (fst (SpecFloat.shl_align m e e')))
  + snd (SpecFloat.shl_align m e e')
  = Z.pos (digits m) + e.
Proof.
  unfold SpecFloat.shl_align.
  destruct (e' - e) as [|d|d] eqn:Ed; cbn [fst snd]; [lia | lia |].
  rewrite digits_shift. lia.
Qed.

Lemma SFadd_positive (ma mb : positive) (ea eb : Z) :
  -1074 <= ea -> -1074 <= eb ->
  SpecFloat.SFadd 53 1024 (SpecFloat.S754_finite false ma ea)
    (SpecFloat.S754_finite false mb eb)
  = SpecFloat.S754_infinity false \/
  exists (m : positive) (e : Z),
    SpecFloat.SFadd 53 1024 (SpecFloat.S754_finite false ma ea)
      (SpecFloat.S754_finite false mb eb)
    = SpecFloat.S754_finite false m e /\
    Z.pos (digits ma) + ea <= Z.pos (digits m) + e /\
    Z.pos (digits mb) + eb <= Z.pos (digits m) + e.
Proof.
  intros Ha Hb.
  cbn [SpecFloat.SFadd SpecFloat.cond_Zopp].
  set (ez := Z.min ea eb).
  destruct (shl_align_spec ma ea ez) as [Sa Da].
  destruct (shl_align_spec mb eb ez) as [Sb Db].
  set (ma' := fst (SpecFloat.shl_align ma ea ez)) in *.
  set (mb' := fst (SpecFloat.shl_align mb eb ez)) in *.
  change (Z.pos ma' + Z.pos mb') with (Z.pos (ma' + mb')).
  cbn [SpecFloat.binary_normalize]. unfold SpecFloat.binary_round.
  set (M := (ma' + mb')%positive).
  assert (HMa : Z.pos (digits ma') <= Z.pos (digits M))
    by (apply digits_mono; lia).
  assert (HMb : Z.pos (digits mb') <= Z.pos (digits M))
    by (apply digits_mono; lia).
  destruct (shl_align_spec M ez (fexp (Z.pos (digits M) + ez))) as [Sz Dz].
  destruct (SpecFloat.shl_align M ez (fexp (Z.pos (digits M) + ez)))
    as [mz ez'].
  cbn [fst snd] in Sz, Dz. rewrite fexp_eq in Sz.
  destruct (round_aux_grows false mz ez' SpecFloat.loc_Exact ltac:(lia))
    as [Hinf|(m & e & E & Hd)]; [now left|].
  right. exists m, e. split; [assumption|]. lia.
Qed.

(** *** Division by a number that is not smaller *)

Lemma SFdiv_not_infinity (s : bool) (ma mb : positive) (ea eb : Z) :
  Z.pos (digits ma) + ea <= Z.pos (digits mb) + eb ->
  SpecFloat.SFdiv 53 1024 (SpecFloat.S754_finite false ma ea)
    (SpecFloat.S754_finite false mb eb)
  <> SpecFloat.S754_infinity s.
Proof.
  intro Hord.
  cbn [SpecFloat.SFdiv]. unfold SpecFloat.SFdiv_core_binary.
  cbn [SpecFloat.Zdigits2].
  set (e' := Z.min (fexp (Z.pos (digits ma) + ea - (Z.pos (digits mb) + eb)))
               (ea - eb)).
  assert (He' : e' <= -53 /\ e' <= ea - eb)
    by (subst e'; rewrite fexp_eq; lia).
  set (m' := match ea - eb - e' with
             | 0 => Z.pos ma
             | Z.pos _ => Z.shiftl (Z.pos ma) (ea - eb - e')
             | Z.neg _ => 0
             end).
  assert (Hm' : m' = Z.pos ma * 2 ^ (ea - eb - e')).
  { subst m'. destruct (ea - eb - e') as [|n|n] eqn:En; [cbn; lia| |lia].
    apply Z.shiftl_mul_pow2. lia. }
  pose proof (Z.div_eucl_eq m' (Z.pos mb) ltac:(lia)) as Heq.
  pose proof (Z.mod_pos_bound m' (Z.pos mb) ltac:(lia)) as Hmod.
  unfold Z.modulo in Hmod.
  destruct (Z.div_eucl m' (Z.pos mb)) as [q r].
  pose proof (digits_bounds ma) as [_ Hua].
  pose proof (digits_bounds mb) as [Hlb _].
  assert (Hpow : 0 < 2 ^ (ea - eb - e')) by (apply Z.pow_pos_nonneg; lia).
  assert (Hq : 0 <= q) by nia.
  assert (Hdq : SpecFloat.Zdigits2 q + e' <= 1).
  { set (k := Z.max (Z.pos (digits ma) + (ea - eb - e')
                     - Z.pos (digits mb) + 1) 0).
    assert (SpecFloat.Zdigits2 q <= k); [|lia].
    apply Zdigits2_le; [|lia]. split; [assumption|].
    assert (Hm'u : m' < 2 ^ (Z.pos (digits ma) + (ea - eb - e'))).
    { rewrite Hm', Z.pow_add_r by lia. nia. }
    assert (Hle : 2 ^ (Z.pos (digits ma) + (ea - eb - e'))
                  <= 2 ^ (Z.pos (digits mb) - 1) * 2 ^ k).
    { rewrite <- Z.pow_add_r by lia. apply Z.pow_le_mono_r; lia. }
    assert (0 < 2 ^ k) by (apply Z.pow_pos_nonneg; lia).
    nia. }
  apply round_aux_finite; lia.
Qed.


(** *** Sums of numbers that are not negative *)

Lemma covers_refl (x : SpecFloat.spec_float) : not_negative x -> covers x x.
Proof. destruct x as [s|[]| |[] m e]; cbn; trivial; lia. Qed.

Lemma covers_not_negative (S x : SpecFloat.spec_float) :
  covers S x -> not_negative S.
Proof.
  destruct x as [s|[]| |[] m e], S as [s'|[]| |[] m' e']; cbn; trivial.
Qed.

Lemma covers_trans (c b a : SpecFloat.spec_float) :
  covers c b -> covers b a -> covers c a.
Proof.
  destruct a as [sa|[]| |[] ma ea], b as [sb|[]| |[] mb eb],
    c as [sc|[]| |[] mc ec]; cbn; trivial; try contradiction; lia.
Qed.

Lemma SFadd_covers (a b : SpecFloat.spec_float) :
  SpecFloat.valid_binary 53 1024 a = true ->
  SpecFloat.valid_binary 53 1024 b = true ->
  not_negative a -> not_negative b ->
  covers (SpecFloat.SFadd 53 1024 a b) a /\
  covers (SpecFloat.SFadd 53 1024 a b) b.
Proof.
  intros Va Vb Na Nb.
  destruct a as [sa|[]| |[] ma ea]; try contradiction;
    destruct b as [sb|[]| |[] mb eb]; try contradiction;
    try (cbn; split; trivial; lia);
    try (destruct sa; cbn; split; trivial; lia);
    try (destruct sb; cbn; split; trivial; lia);
    try (destruct sa, sb; cbn; split; trivial; lia).
  apply valid_finite in Va, Vb.
  destruct (SFadd_positive ma mb ea eb) as [->|(m & e & -> & Ha & Hb)];
    try lia; cbn; split; trivial.
Qed.

(** A number that is covered is never divided to [Infinity]. *)
Lemma SFdiv_covered (S x : SpecFloat.spec_float) :
  covers S x ->
  SpecFloat.SFdiv 53 1024 x S <> SpecFloat.S754_infinity false.
Proof.
  destruct x as [sx|[]| |[] mx ex], S as [sS|[]| |[] mS eS]; cbn [covers];
    try contradiction; intro H; try discriminate;
    try (destruct sx; discriminate).
  now apply SFdiv_not_infinity.
Qed.

(** *** Signs of results *)

Lemma round_aux_sign (mz ez : Z) (l : SpecFloat.location) :
  sign_clear (SpecFloat.binary_round_aux 53 1024 false mz ez l).
Proof.
  unfold SpecFloat.binary_round_aux.
  destruct (SpecFloat.shr_fexp 53 1024 mz ez l) as [mrs1 e1].
  destruct (SpecFloat.shr_fexp 53 1024 _ e1 SpecFloat.loc_Exact)
    as [mrs2 e2].
  destruct (SpecFloat.shr_m mrs2) as [|m|m]; cbn; trivial.
  now destruct (_ <=? _).
Qed.

Lemma SFmul_sign (a b : SpecFloat.spec_float) :
  not_below_zero a -> not_below_zero b ->
  not_below_zero (SpecFloat.SFmul 53 1024 a b).
Proof.
  destruct a as [sa|[]| |[] ma ea]; try contradiction;
    destruct b as [sb|[]| |[] mb eb]; try contradiction; intros _ _;
    cbn [SpecFloat.SFmul xorb]; cbn; trivial.
  pose proof (round_aux_sign (Z.pos (ma * mb)) (ea + eb) SpecFloat.loc_Exact)
    as H.
  destruct (SpecFloat.binary_round_aux _ _ _ _ _ _) as [[]|[]| |[] m e];
    cbn in *; trivial.
Qed.

Lemma SFmul_sign_clear (a b : SpecFloat.spec_float) :
  sign_clear a -> sign_clear b -> sign_clear (SpecFloat.SFmul 53 1024 a b).
Proof.
  destruct a as [[]|[]| |[] ma ea]; try contradiction;
    destruct b as [[]|[]| |[] mb eb]; try contradiction; intros _ _;
    cbn [SpecFloat.SFmul xorb]; cbn; trivial.
  apply round_aux_sign.
Qed.

Lemma SFmul_square (a : SpecFloat.spec_float) :
  not_below_zero a -> sign_clear (SpecFloat.SFmul 53 1024 a a).
Proof.
  destruct a as [[]|[]| |[] ma ea]; try contradiction; intros _;
    cbn [SpecFloat.SFmul xorb]; cbn; trivial.
  apply round_aux_sign.
Qed.

Lemma SFadd_sign (a b : SpecFloat.spec_float) :
  sign_clear a -> not_below_zero b ->
  sign_clear (SpecFloat.SFadd 53 1024 a b).
Proof.
  destruct a as [[]|[]| |[] ma ea]; try contradiction;
    destruct b as [sb|[]| |[] mb eb]; try contradiction; intros _ _;
    try (cbn; trivial; fail); try (destruct sb; cbn; trivial; fail).
  cbn [SpecFloat.SFadd SpecFloat.cond_Zopp].
  change (Z.pos ?x + Z.pos ?y) with (Z.pos (x + y)).
  cbn [SpecFloat.binary_normalize]. unfold SpecFloat.binary_round.
  destruct (SpecFloat.shl_align _ _ _) as [mz ez'].
  apply round_aux_sign.
Qed.

Lemma SFsqrt_sign (a : SpecFloat.spec_float) :
  sign_clear a -> sign_clear (SpecFloat.SFsqrt 53 1024 a).
Proof.
  destruct a as [[]|[]| |[] ma ea]; try contradiction; intros _;
    cbn [SpecFloat.SFsqrt]; cbn; trivial.
  destruct (SpecFloat.SFsqrt_core_binary 53 1024 (Z.pos ma) ea) as [[q e] l].
  apply round_aux_sign.
Qed.

Lemma SFdiv_sign (a b : SpecFloat.spec_float) :
  sign_clear a -> sign_clear b -> sign_clear (SpecFloat.SFdiv 53 1024 a b).
Proof.
  destruct a as [[]|[]| |[] ma ea]; try contradiction;
    destruct b as [[]|[]| |[] mb eb]; try contradiction; intros _ _;
    cbn [SpecFloat.SFdiv xorb]; cbn; trivial.
  destruct (SpecFloat.SFdiv_core_binary 53 1024 (Z.pos ma) ea (Z.pos mb) eb)
    as [[q e] l].
  apply round_aux_sign.
Qed.

End Rounding.

(** * Properties of metrics.ts on binary64 numbers *)

Module Metrics64Facts.

Import PrimFloat.
Import Metrics64.
Local Open Scope float_scope.

(** *** Arithmetic of binary64 numbers *)

Lemma mul_comm (x y : float) : x * y = y * x.
Proof.
  apply FloatAxioms.Prim2SF_inj. rewrite !FloatAxioms.mul_spec.
  unfold FloatAxioms.SF64mul, SpecFloat.SFmul.
  destruct (FloatOps.Prim2SF x) as [sx|sx| |sx mx ex],
           (FloatOps.Prim2SF y) as [sy|sy| |sy my ey];
    try reflexivity; rewrite (xorb_comm sx sy); try reflexivity.
  now rewrite (Pos.mul_comm mx my), (Z.add_comm ex ey).
Qed.

Lemma add_nan_l (y : float) : nan + y = nan.
Proof.
  apply FloatAxioms.Prim2SF_inj. now rewrite FloatAxioms.add_spec.
Qed.

Lemma add_nan_r (x : float) : x + nan = nan.
Proof.
  apply FloatAxioms.Prim2SF_inj. rewrite FloatAxioms.add_spec.
  now destruct (FloatOps.Prim2SF x).
Qed.

Lemma div_nan_r (x : float) : x / nan = nan.
Proof.
  apply FloatAxioms.Prim2SF_inj. rewrite FloatAxioms.div_spec.
  now destruct (FloatOps.Prim2SF x).
Qed.

Lemma div_eucl_shift (m : positive) :
  Z.div_eucl (Z.shiftl (Z.pos m) 53) (Z.pos m) = (9007199254740992, 0)%Z.
Proof.
  rewrite Z.shiftl_mul_pow2 by lia.
  change (2 ^ 53)%Z with 9007199254740992%Z.
  assert (Hq : (Z.pos m * 9007199254740992 / Z.pos m = 9007199254740992)%Z).
  { rewrite Z.mul_comm. apply Z.div_mul. lia. }
  assert (Hr : ((Z.pos m * 9007199254740992) mod Z.pos m = 0)%Z).
  { rewrite Z.mul_comm. apply Z.mod_mul. lia. }
  unfold Z.div, Z.modulo in Hq, Hr.
  destruct (Z.div_eucl (Z.pos m * 9007199254740992) (Z.pos m)) as [q r].
  simpl in Hq, Hr. now subst.
Qed.

(** A finite nonzero number divided by itself is exactly [1]. *)
Lemma div_self (x : float) (s : bool) (m : positive) (e : Z) :
  FloatOps.Prim2SF x = SpecFloat.S754_finite s m e -> x / x = 1.
Proof.
  intro Hx. apply FloatAxioms.Prim2SF_inj.
  rewrite FloatAxioms.div_spec, Hx.
  unfold FloatAxioms.SF64div, SpecFloat.SFdiv, SpecFloat.SFdiv_core_binary.
  rewrite Z.sub_diag, Z.sub_diag.
  change (Z.min (SpecFloat.fexp FloatOps.prec FloatOps.emax 0) 0) with (-53)%Z.
  cbn [Z.sub Z.opp Z.add].
  rewrite div_eucl_shift, xorb_nilpotent.
  assert (Hl : SpecFloat.new_location (Z.pos m) 0 = SpecFloat.loc_Exact).
  { unfold SpecFloat.new_location. now destruct (Z.even (Z.pos m)). }
  now rewrite Hl.
Qed.

Lemma mul_zero_r (x : float) (m : positive) (e : Z) :
  FloatOps.Prim2SF x = SpecFloat.S754_finite false m e -> x * 0 = 0.
Proof.
  intro Hx. apply FloatAxioms.Prim2SF_inj.
  now rewrite FloatAxioms.mul_spec, Hx.
Qed.

(** What [x === 0] accepts: [+0] and [-0]. *)
Lemma eqb_zero (x : float) :
  (x =? 0) = true ->
  exists s : bool, FloatOps.Prim2SF x = SpecFloat.S754_zero s.
Proof.
  rewrite FloatAxioms.eqb_spec. unfold SpecFloat.SFeqb.
  destruct (FloatOps.Prim2SF x) as [s|s| |s m e]; simpl;
    try discriminate; try (destruct s; discriminate).
  intros _. now exists s.
Qed.

Lemma zero_square (x : float) : (x =? 0) = true -> x * x = 0.
Proof.
  intros [s Hx]%eqb_zero. apply FloatAxioms.Prim2SF_inj.
  rewrite FloatAxioms.mul_spec, Hx. now destruct s.
Qed.

(** *** Comparisons *)

Lemma SFcompare_antisym (x y : SpecFloat.spec_float) :
  SpecFloat.SFcompare y x = option_map CompOpp (SpecFloat.SFcompare x y).
Proof.
  destruct x as [sx|sx| |sx mx ex], y as [sy|sy| |sy my ey]; simpl;
    try reflexivity;
    try (destruct sx; reflexivity); try (destruct sy; reflexivity);
    try (destruct sx, sy; reflexivity).
  destruct sx, sy; try reflexivity; simpl;
    rewrite (Z.compare_antisym ex ey); destruct (ex ?= ey)%Z; simpl;
    try reflexivity; f_equal.
  - f_equal. symmetry. exact (Pos.compare_cont_antisym mx my Eq).
  - symmetry. exact (Pos.compare_cont_antisym mx my Eq).
Qed.

Lemma ltb_asym (x y : float) : (x <? y) = true -> (y <? x) = false.
Proof.
  rewrite !FloatAxioms.ltb_spec. unfold SpecFloat.SFltb.
  rewrite (SFcompare_antisym (FloatOps.Prim2SF x) (FloatOps.Prim2SF y)).
  destruct (SpecFloat.SFcompare _ _) as [[]|]; simpl; congruence.
Qed.

Lemma ltb_not_nan (x y : float) : (x <? y) = true -> is_nan y = false.
Proof.
  unfold is_nan. rewrite FloatAxioms.ltb_spec, FloatAxioms.eqb_spec.
  unfold SpecFloat.SFltb, SpecFloat.SFeqb.
  destruct (FloatOps.Prim2SF y) as [sy|sy| |sy my ey];
    destruct (FloatOps.Prim2SF x) as [sx|sx| |sx mx ex]; simpl;
    try discriminate; try reflexivity; intros _;
    try (destruct sy; reflexivity).
  all: destruct sy; simpl; rewrite Z.compare_refl, Pos.compare_cont_refl;
    reflexivity.
Qed.

(** A number above [epsilon] is [Infinity] or a positive finite number. *)
Lemma above_epsilon (x : float) :
  (epsilon <? x) = true ->
  x = infinity \/
  exists (m : positive) (e : Z),
    FloatOps.Prim2SF x = SpecFloat.S754_finite false m e.
Proof.
  rewrite FloatAxioms.ltb_spec. unfold SpecFloat.SFltb.
  destruct (FloatOps.Prim2SF x) as [s|s| |s m e] eqn:Hx;
    try (destruct s; discriminate); try discriminate.
  - destruct s; [discriminate|]. intros _. left.
    now apply FloatAxioms.Prim2SF_inj.
  - destruct s; [discriminate|]. intros _. right. now exists m, e.
Qed.

Lemma max_above_epsilon (x : float) :
  (epsilon <? x) = true -> Math_max x epsilon = x.
Proof.
  intro H. unfold Math_max.
  now rewrite (ltb_not_nan _ _ H), (ltb_asym _ _ H), H.
Qed.

(** *** Index loops as folds over the paired entries *)

Section PairedLoop.
Variable St : Type.
Variable g : St -> float -> float -> St.

Lemma paired_loop_offset (a b pa pb : list float) (acc : St) :
  length pa = length pb ->
  length a = length b ->
  fold_left (fun s i => g s (at_index (pa ++ a) i) (at_index (pb ++ b) i))
    (seq (length pa) (length a)) acc
  = fold_left (fun s xy => g s (fst xy) (snd xy)) (combine a b) acc.
Proof.
  unfold at_index. revert b pa pb acc.
  induction a as [|x a IH]; intros [|y b] pa pb acc Hp Hl;
    simpl in Hl; try discriminate; [reflexivity|].
  cbn [length seq fold_left combine fst snd].
  rewrite nth_middle, Hp, nth_middle.
  specialize (IH b (pa ++ [x]) (pb ++ [y]) (g acc x y)).
  rewrite !length_app, <- !app_assoc in IH. simpl in IH.
  rewrite !Nat.add_1_r, <- Hp in IH.
  rewrite <- Hp.
  apply IH; [reflexivity | now injection Hl].
Qed.

Lemma paired_loop (a b : list float) (acc : St) :
  length a = length b ->
  fold_left (fun s i => g s (at_index a i) (at_index b i))
    (seq 0 (length a)) acc
  = fold_left (fun s xy => g s (fst xy) (snd xy)) (combine a b) acc.
Proof.
  intro Hl. exact (paired_loop_offset a b [] [] acc eq_refl Hl).
Qed.
End PairedLoop.

(** *** calculateCosineSimilarity *)

Lemma cosine_loop_pairs (a b : list float) :
  length a = length b ->
  cosine_loop a b
  = fold_left (fun s xy => cosine_acc s (fst xy) (snd xy)) (combine a b)
      (0, 0, 0).
Proof.
  intro Hl. unfold cosine_loop.
  change (cosine_step a b)
    with (fun s i => cosine_acc s (at_index a i) (at_index b i)).
  now apply paired_loop.
Qed.

Lemma cosine_pairs_swap (a b : list float) (d ma mb : float) :
  length a = length b ->
  fold_left (fun s xy => cosine_acc s (fst xy) (snd xy)) (combine b a)
    (d, mb, ma)
  = let '(d', ma', mb') :=
      fold_left (fun s xy => cosine_acc s (fst xy) (snd xy)) (combine a b)
        (d, ma, mb) in
    (d', mb', ma').
Proof.
  revert b d ma mb.
  induction a as [|x a IH]; intros [|y b] d ma mb Hl; simpl in Hl;
    try discriminate; [reflexivity|].
  cbn [combine fold_left fst snd cosine_acc].
  rewrite (mul_comm y x). apply IH. now injection Hl.
Qed.

(** The length test decides between throwing and returning, and two empty
    vectors have similarity [0]. *)
Lemma cosine_length_mismatch (a b : list float) :
  length a <> length b ->
  calculateCosineSimilarity a b = Throw "Vectors must have the same length".
Proof.
  intro Hl. unfold calculateCosineSimilarity.
  now apply Nat.eqb_neq in Hl as ->.
Qed.

Lemma cosine_of_empty_vectors : calculateCosineSimilarity [] [] = Ok 0.
Proof. reflexivity. Qed.

Lemma cosine_returns (a b : list float) :
  length a = length b ->
  exists sim : float, calculateCosineSimilarity a b = Ok sim.
Proof.
  intro Hl. unfold calculateCosineSimilarity.
  rewrite Hl, Nat.eqb_refl. cbn [negb].
  destruct (cosine_loop a b) as [[d ma] mb].
  destruct (_ || _); now eexists.
Qed.

(** C4.  On [[1, 5]] against itself the function returns
    [1.0000000000000002], the number after [1], although no entry is
    negative, and on [[1, 5]] against [[-1, -5]] it returns
    [-1.0000000000000002]: the three sums are exact ([26]), but
    [Math.sqrt(26)] is rounded down and so is the product of the two
    magnitudes, [25.999999999999996].  The cosine distance
    [1 - cosineSimilarity] of [[1, 5]] from itself is negative. *)
Theorem cosine_exceeds_one :
  calculateCosineSimilarity [1; 5] [1; 5] = Ok 1.0000000000000002 /\
  (1 <? 1.0000000000000002) = true /\
  calculateCosineSimilarity [1; 5] [-1; -5] = Ok (-1.0000000000000002) /\
  (-1.0000000000000002 <? -1) = true /\
  sqrt 26 * sqrt 26 = 25.999999999999996 /\
  1 - 1.0000000000000002 = -2.2204460492503131e-16.
Proof. repeat split. Qed.

(** X27. [calculateCosineSimilarity(a, b)] and
    [calculateCosineSimilarity(b, a)] have the same outcome for all [a] and
    [b], zero vectors and vectors of different lengths included: the same
    error, or the same number, or NaN in both orders. *)
Theorem cosine_symmetric (a b : list float) :
  calculateCosineSimilarity a b = calculateCosineSimilarity b a.
Proof.
  unfold calculateCosineSimilarity.
  rewrite (Nat.eqb_sym (length b) (length a)).
  destruct (Nat.eqb (length a) (length b)) eqn:Hl; [|reflexivity].
  apply Nat.eqb_eq in Hl. cbn [negb].
  rewrite (cosine_loop_pairs a b Hl), (cosine_loop_pairs b a (eq_sym Hl)).
  rewrite (cosine_pairs_swap a b 0 0 0 Hl).
  destruct (fold_left _ (combine a b) _) as [[d ma] mb].
  now rewrite (orb_comm (sqrt mb =? 0)), (mul_comm (sqrt mb)).
Qed.

Lemma zero_vector_magnitude (a b : list float) (d mb : float) :
  length a = length b ->
  forallb (fun x => x =? 0) a = true ->
  exists d' mb' : float,
    fold_left (fun s xy => cosine_acc s (fst xy) (snd xy)) (combine a b)
      (d, 0, mb) = (d', 0, mb').
Proof.
  revert b d mb.
  induction a as [|x a IH]; intros [|y b] d mb Hl; simpl in Hl;
    try discriminate; [intros _; now exists d, mb|].
  cbn [forallb combine fold_left fst snd cosine_acc].
  intros [Hx Ha]%andb_prop. rewrite (zero_square x Hx).
  change (0 + 0) with 0. apply IH; [now injection Hl | assumption].
Qed.

(** X26. A vector whose entries are all [+0] or [-0] has similarity [0] with
    every vector of its length, whichever argument it is, also when the
    other vector holds NaN or [Infinity]. *)
Theorem cosine_of_zero_vector (a b : list float) :
  length a = length b ->
  forallb (fun x => x =? 0) a = true ->
  calculateCosineSimilarity a b = Ok 0 /\
  calculateCosineSimilarity b a = Ok 0.
Proof.
  intros Hl Ha. unfold calculateCosineSimilarity.
  rewrite Hl, Nat.eqb_refl. cbn [negb].
  rewrite (cosine_loop_pairs a b Hl), (cosine_loop_pairs b a (eq_sym Hl)).
  rewrite (cosine_pairs_swap a b 0 0 0 Hl).
  destruct (zero_vector_magnitude a b 0 0 Hl Ha) as (d & mb & ->).
  split; [reflexivity|].
  change (sqrt 0 =? 0) with true. now rewrite orb_true_r.
Qed.

Lemma cosine_of_zero_vector_witness :
  calculateCosineSimilarity [0; -0] [nan; infinity] = Ok 0 /\
  calculateCosineSimilarity [nan; infinity] [0; -0] = Ok 0.
Proof.
  apply (cosine_of_zero_vector [0; -0] [nan; infinity]); reflexivity.
Defined.

(** *** Vectors without negative entries *)

Lemma leb_zero_sign (x : float) :
  (0 <=? x) = true -> Magnitude.not_below_zero (FloatOps.Prim2SF x).
Proof.
  rewrite FloatAxioms.leb_spec. unfold SpecFloat.SFleb.
  destruct (FloatOps.Prim2SF x) as [s|[]| |[] m e]; cbn; trivial;
    discriminate.
Qed.

Lemma sign_clear_not_below (x : float) :
  Magnitude.sign_clear (FloatOps.Prim2SF x) -> (x <? 0) = false.
Proof.
  rewrite FloatAxioms.ltb_spec. unfold SpecFloat.SFltb.
  destruct (FloatOps.Prim2SF x) as [[]|[]| |[] m e]; cbn; trivial;
    contradiction.
Qed.

Lemma cosine_pairs_sign (a b : list float) (d ma mb : float) :
  length a = length b ->
  nonnegative a = true -> nonnegative b = true ->
  Magnitude.sign_clear (FloatOps.Prim2SF d) ->
  Magnitude.sign_clear (FloatOps.Prim2SF ma) ->
  Magnitude.sign_clear (FloatOps.Prim2SF mb) ->
  let '(d', ma', mb') :=
    fold_left (fun s xy => cosine_acc s (fst xy) (snd xy)) (combine a b)
      (d, ma, mb) in
  Magnitude.sign_clear (FloatOps.Prim2SF d') /\
  Magnitude.sign_clear (FloatOps.Prim2SF ma') /\
  Magnitude.sign_clear (FloatOps.Prim2SF mb').
Proof.
  revert b d ma mb.
  induction a as [|x a IH]; intros [|y b] d ma mb Hl Ha Hb Hd Hma Hmb;
    simpl in Hl; try discriminate; [now repeat split|].
  cbn [nonnegative forallb] in Ha, Hb.
  apply andb_prop in Ha as [Hx Ha]. apply andb_prop in Hb as [Hy Hb].
  apply leb_zero_sign in Hx, Hy.
  cbn [combine fold_left fst snd cosine_acc].
  apply IH; try assumption; [now injection Hl| | |];
    rewrite FloatAxioms.add_spec, FloatAxioms.mul_spec;
    apply Rounding.SFadd_sign; try assumption.
  - now apply Rounding.SFmul_sign.
  - apply Rounding.SFmul_sign; assumption.
  - apply Rounding.SFmul_sign; assumption.
Qed.

(** X31. For two vectors of the same length without negative or NaN
    entries, [calculateCosineSimilarity] never returns a number below zero:
    the result is [+0], a positive number, [Infinity] or NaN (the last two
    when a sum overflows or the product of the magnitudes underflows). *)
Theorem cosine_not_negative (a b : list float) :
  length a = length b ->
  nonnegative a = true ->
  nonnegative b = true ->
  exists sim : float,
    calculateCosineSimilarity a b = Ok sim /\ (sim <? 0) = false.
Proof.
  intros Hl Ha Hb. unfold calculateCosineSimilarity.
  rewrite Hl, Nat.eqb_refl. cbn [negb].
  rewrite (cosine_loop_pairs a b Hl).
  pose proof (cosine_pairs_sign a b 0 0 0 Hl Ha Hb I I I) as H.
  destruct (fold_left _ (combine a b) _) as [[d ma] mb].
  destruct H as (Hd & Hma & Hmb).
  destruct (_ || _); eexists; (split; [reflexivity|]);
    [reflexivity|].
  apply sign_clear_not_below.
  rewrite FloatAxioms.div_spec, FloatAxioms.mul_spec,
    !FloatAxioms.sqrt_spec.
  apply Rounding.SFdiv_sign; [assumption|].
  apply Rounding.SFmul_sign_clear; now apply Rounding.SFsqrt_sign.
Qed.

Lemma cosine_not_negative_witness :
  exists sim : float,
    calculateCosineSimilarity [1e200; 0] [1e200; 3] = Ok sim /\
    (sim <? 0) = false.
Proof.
  apply (cosine_not_negative [1e200; 0] [1e200; 3]); reflexivity.
Defined.

(** *** Sums of entries that are not negative *)

Lemma leb_zero (x : float) :
  (0 <=? x) = true -> Magnitude.not_negative (FloatOps.Prim2SF x).
Proof.
  rewrite FloatAxioms.leb_spec. unfold SpecFloat.SFleb.
  destruct (FloatOps.Prim2SF x) as [s|[]| |[] m e]; cbn; trivial;
    discriminate.
Qed.

Lemma ltb_zero (x : float) :
  (0 <? x) = true ->
  FloatOps.Prim2SF x = SpecFloat.S754_infinity false \/
  exists (m : positive) (e : Z),
    FloatOps.Prim2SF x = SpecFloat.S754_finite false m e.
Proof.
  rewrite FloatAxioms.ltb_spec. unfold SpecFloat.SFltb.
  destruct (FloatOps.Prim2SF x) as [s|[]| |[] m e]; cbn;
    try discriminate; intros _; [now left|].
  right. now exists m, e.
Qed.

Lemma not_above_zero (x : float) :
  (0 <=? x) = true -> (0 <? x) = false ->
  exists s : bool, FloatOps.Prim2SF x = SpecFloat.S754_zero s.
Proof.
  rewrite FloatAxioms.leb_spec, FloatAxioms.ltb_spec.
  unfold SpecFloat.SFleb, SpecFloat.SFltb.
  destruct (FloatOps.Prim2SF x) as [s|[]| |[] m e]; cbn;
    try discriminate.
  intros _ _. now exists s.
Qed.

Lemma eqb_zero_spec (x : float) :
  (x =? 0)
  = match FloatOps.Prim2SF x with
    | SpecFloat.S754_zero _ => true
    | _ => false
    end.
Proof.
  rewrite FloatAxioms.eqb_spec. unfold SpecFloat.SFeqb.
  destruct (FloatOps.Prim2SF x) as [s|[]| |[] m e]; reflexivity.
Qed.

Lemma eqb_infinity (x : float) :
  FloatOps.Prim2SF x <> SpecFloat.S754_infinity false ->
  (x =? infinity) = false.
Proof.
  rewrite FloatAxioms.eqb_spec. unfold SpecFloat.SFeqb.
  destruct (FloatOps.Prim2SF x) as [s|[]| |[] m e]; cbn; trivial.
  intro H. now elim H.
Qed.

(** The running sum covers where it started and every entry added. *)
Lemma reduce_covers (p : list float) (acc : float) :
  Magnitude.not_negative (FloatOps.Prim2SF acc) ->
  nonnegative p = true ->
  Magnitude.covers (FloatOps.Prim2SF (fold_left (fun a val => a + val) p acc))
    (FloatOps.Prim2SF acc) /\
  forall x : float,
    In x p ->
    Magnitude.covers
      (FloatOps.Prim2SF (fold_left (fun a val => a + val) p acc))
      (FloatOps.Prim2SF x).
Proof.
  revert acc. induction p as [|v p IH]; intros acc Hacc Hp.
  - split; [now apply Rounding.covers_refl | contradiction].
  - cbn [nonnegative forallb] in Hp. apply andb_prop in Hp as [Hv Hp].
    cbn [fold_left].
    destruct (Rounding.SFadd_covers (FloatOps.Prim2SF acc)
                (FloatOps.Prim2SF v))
      as [Ca Cv];
      try apply FloatAxioms.Prim2SF_valid; try assumption;
      [now apply leb_zero|].
    change (SpecFloat.SFadd 53 1024) with FloatAxioms.SF64add in Ca, Cv.
    rewrite <- FloatAxioms.add_spec in Ca, Cv.
    destruct (IH (acc + v) (Rounding.covers_not_negative _ _ Ca) Hp)
      as [Cs Cin].
    split; [exact (Rounding.covers_trans _ _ _ Cs Ca)|].
    intros x [<-|Hx]; [exact (Rounding.covers_trans _ _ _ Cs Cv)|].
    now apply Cin.
Qed.

Lemma reduce_sum_covers (p : list float) (x : float) :
  nonnegative p = true -> In x p ->
  Magnitude.covers (FloatOps.Prim2SF (reduce_sum p)) (FloatOps.Prim2SF x).
Proof.
  intros Hp Hx. now apply (reduce_covers p 0 I Hp).
Qed.

Lemma nonnegative_shares (p : list float) :
  nonnegative p = true -> no_infinite_share p = true.
Proof.
  intro Hp. unfold no_infinite_share. apply forallb_forall. intros x Hx.
  apply negb_true_iff, eqb_infinity.
  rewrite FloatAxioms.div_spec.
  apply Rounding.SFdiv_covered. now apply reduce_sum_covers.
Qed.

Lemma reduce_zeros (p : list float) (acc : float) (s : bool) :
  FloatOps.Prim2SF acc = SpecFloat.S754_zero s ->
  nonnegative p = true -> has_positive p = false ->
  exists s' : bool,
    FloatOps.Prim2SF (fold_left (fun a val => a + val) p acc)
    = SpecFloat.S754_zero s'.
Proof.
  revert acc s. induction p as [|v p IH]; intros acc s Hacc Hp Hn.
  - now exists s.
  - cbn [nonnegative forallb] in Hp. apply andb_prop in Hp as [Hv Hp].
    cbn [has_positive existsb] in Hn. apply orb_false_elim in Hn as [Hz Hn].
    destruct (not_above_zero v Hv Hz) as [sv Ev].
    cbn [fold_left].
    assert (exists s', FloatOps.Prim2SF (acc + v) = SpecFloat.S754_zero s')
      as [s' E].
    { rewrite FloatAxioms.add_spec, Hacc, Ev. destruct s, sv; now eexists. }
    exact (IH (acc + v) s' E Hp Hn).
Qed.

(** The zero test of [calculateKLDivergence] on an input without negative
    entries: the running sum is zero exactly when no entry is above zero. *)
Lemma zero_sum_test (p : list float) :
  nonnegative p = true ->
  (reduce_sum p =? 0) = negb (has_positive p).
Proof.
  intro Hp. destruct (has_positive p) eqn:Hpos; cbn [negb].
  - apply existsb_exists in Hpos as (x & Hx & Hx0).
    pose proof (reduce_sum_covers p x Hp Hx) as C.
    rewrite eqb_zero_spec.
    destruct (ltb_zero x Hx0) as [E|(m & e & E)]; rewrite E in C;
      destruct (FloatOps.Prim2SF (reduce_sum p)) as [s|[]| |[] mS eS];
      cbn in C; trivial; contradiction.
  - destruct (reduce_zeros p 0 false eq_refl Hp Hpos) as [s E].
    fold (reduce_sum p) in E. now rewrite eqb_zero_spec, E.
Qed.

(** *** calculateKLDivergence *)

Section WithLog.
Variable Math_log : float -> float.

Lemma kl_outcome (p q : list float) :
  length p = length q ->
  calculateKLDivergence Math_log p q
  = if (reduce_sum p =? 0) || (reduce_sum q =? 0) then
      Throw "Distributions cannot sum to zero"
    else
      Ok (fold_left (fun d xy => kl_acc Math_log d (fst xy) (snd xy))
            (combine (normalize (reduce_sum p) p)
               (normalize (reduce_sum q) q)) 0).
Proof.
  intro Hl. unfold calculateKLDivergence.
  rewrite Hl, Nat.eqb_refl. cbn [negb].
  destruct (_ || _); [reflexivity|]. f_equal.
  fold (normalize (reduce_sum p) p). fold (normalize (reduce_sum q) q).
  change (kl_step Math_log (normalize (reduce_sum p) p)
            (normalize (reduce_sum q) q))
    with (fun d i => kl_acc Math_log d
                       (at_index (normalize (reduce_sum p) p) i)
                       (at_index (normalize (reduce_sum q) q) i)).
  apply paired_loop. unfold normalize. now rewrite !length_map.
Qed.

Lemma kl_length_mismatch (p q : list float) :
  length p <> length q ->
  calculateKLDivergence Math_log p q
  = Throw "Distributions must have the same length".
Proof.
  intro Hl. unfold calculateKLDivergence.
  now apply Nat.eqb_neq in Hl as ->.
Qed.

(** X4. [calculateKLDivergence] throws "Distributions must have the same
    length" exactly when the lengths differ, throws "Distributions cannot sum
    to zero" exactly when the lengths agree and the running binary64 sum of
    [p] or of [q] is [+0] or [-0], and returns a number exactly when the
    lengths agree and neither running sum is zero.  The sums are the rounded
    ones: [[1, 2^-60, -1]] is refused although its entries add up to
    [2^-60], and a sum that is NaN is let through. *)
Theorem kl_throws_exactly (p q : list float) :
  (calculateKLDivergence Math_log p q
   = Throw "Distributions must have the same length"
   <-> length p <> length q) /\
  (calculateKLDivergence Math_log p q
   = Throw "Distributions cannot sum to zero"
   <-> length p = length q /\
       (reduce_sum p =? 0) || (reduce_sum q =? 0) = true) /\
  ((exists divergence : float,
      calculateKLDivergence Math_log p q = Ok divergence)
   <-> length p = length q /\
       (reduce_sum p =? 0) || (reduce_sum q =? 0) = false).
Proof.
  destruct (Nat.eq_dec (length p) (length q)) as [Hl|Hl].
  - rewrite (kl_outcome p q Hl).
    destruct (_ || _).
    + split; [split; [discriminate | contradiction]|].
      split; [split; [now split | reflexivity]|].
      split; [intros [v H]; discriminate | intros [_ H]; discriminate].
    + split; [split; [discriminate | contradiction]|].
      split; [split; [discriminate | intros [_ H]; discriminate]|].
      split; [now split | intros _; now eexists].
  - rewrite (kl_length_mismatch p q Hl).
    split; [split; [intros _; exact Hl | reflexivity]|].
    split; [split; [discriminate | intros [H _]; contradiction]|].
    split; [intros [v H]; discriminate | intros [H _]; contradiction].
Qed.

(** *** The divergence of an input from itself *)

Lemma kl_acc_self (x : float) :
  Math_log 1 = 0 -> (x =? infinity) = false -> kl_acc Math_log 0 x x = 0.
Proof.
  intros Hlog Hx. unfold kl_acc.
  destruct (epsilon <? x) eqn:E; [|reflexivity].
  rewrite (max_above_epsilon x E).
  destruct (above_epsilon x E) as [->|(m & e & Hm)]; [discriminate|].
  now rewrite (div_self x false m e Hm), Hlog, (mul_zero_r x m e Hm).
Qed.

Lemma kl_pairs_self (s : float) (p : list float) :
  Math_log 1 = 0 ->
  forallb (fun val => negb (val / s =? infinity)) p = true ->
  fold_left (fun d xy => kl_acc Math_log d (fst xy) (snd xy))
    (combine (normalize s p) (normalize s p)) 0 = 0.
Proof.
  intros Hlog. induction p as [|x p IH]; [reflexivity|].
  cbn [forallb normalize map combine fold_left fst snd].
  intros [Hx Hp]%andb_prop.
  rewrite kl_acc_self; [now apply IH | assumption |].
  now apply negb_true_iff.
Qed.


(** X28. For a distribution, an input without negative or NaN entries that
    has an entry above zero, [calculateKLDivergence(p, p)] is [+0], with
    every [Math.log] that maps [1] to [+0]: the running sum is at least half
    of every entry, so it is not zero and no normalized entry is
    [Infinity].  Entries may be [Infinity] or so large that the sum
    overflows; their terms are skipped. *)
Theorem kl_of_distribution (p : list float) :
  Math_log 1 = 0 ->
  nonnegative p = true ->
  has_positive p = true ->
  calculateKLDivergence Math_log p p = Ok 0.
Proof.
  intros Hlog Hp Hpos.
  rewrite (kl_outcome p p eq_refl), (zero_sum_test p Hp), Hpos.
  cbn [negb orb]. f_equal.
  apply kl_pairs_self; [assumption|].
  exact (nonnegative_shares p Hp).
Qed.

(** X29. On two inputs of the same length without negative or NaN entries,
    [calculateKLDivergence] returns a number when each input has an entry
    above zero, and throws "Distributions cannot sum to zero" otherwise:
    without negative entries the running sum cannot cancel. *)
Theorem kl_of_distributions_returns (p q : list float) :
  length p = length q ->
  nonnegative p = true ->
  nonnegative q = true ->
  (has_positive p && has_positive q = true ->
   exists divergence : float,
     calculateKLDivergence Math_log p q = Ok divergence) /\
  (has_positive p && has_positive q = false ->
   calculateKLDivergence Math_log p q
   = Throw "Distributions cannot sum to zero").
Proof.
  intros Hl Hp Hq.
  rewrite (kl_outcome p q Hl), (zero_sum_test p Hp), (zero_sum_test q Hq).
  rewrite <- negb_andb.
  split; intros ->; cbn [negb]; [now eexists | reflexivity].
Qed.

(** *** Inputs with the same normalized entries *)




(** *** NaN among the entries *)

Lemma reduce_nan (p : list float) :
  fold_left (fun acc val => acc + val) p nan = nan.
Proof.
  induction p as [|x p IH]; [reflexivity|].
  cbn [fold_left]. now rewrite add_nan_l.
Qed.

Lemma reduce_sum_nan (p : list float) : In nan p -> reduce_sum p = nan.
Proof.
  unfold reduce_sum. generalize 0.
  induction p as [|x p IH]; intros acc; [contradiction|].
  cbn [fold_left]. intros [->|Hin].
  - rewrite add_nan_r. apply reduce_nan.
  - now apply IH.
Qed.

Lemma kl_pairs_nan (p n : list float) :
  fold_left (fun d xy => kl_acc Math_log d (fst xy) (snd xy))
    (combine (normalize nan p) n) 0 = 0.
Proof.
  revert n. induction p as [|x p IH]; intros [|y n]; try reflexivity.
  cbn [normalize map combine fold_left fst snd].
  rewrite div_nan_r. exact (IH n).
Qed.

(** X25. When an entry of [p] is NaN and [q] has the length of [p] and a
    running sum that is not zero, [calculateKLDivergence(p, q)] returns [+0]:
    the sum of [p] is NaN, which passes the zero test, every normalized
    entry of [p] is NaN, and [NaN > epsilon] is false, so every term is
    skipped. *)
Theorem kl_nan_entry (p q : list float) :
  length p = length q ->
  In nan p ->
  (reduce_sum q =? 0) = false ->
  calculateKLDivergence Math_log p q = Ok 0.
Proof.
  intros Hl Hin Hq.
  rewrite (kl_outcome p q Hl), (reduce_sum_nan p Hin), Hq.
  change ((nan =? 0) || false) with false. cbv iota. f_equal.
  apply kl_pairs_nan.
Qed.

End WithLog.


Lemma kl_of_distribution_witness :
  calculateKLDivergence Fdlibm.log [0; 1e308; 1e308; infinity]
    [0; 1e308; 1e308; infinity] = Ok 0 /\
  calculateKLDivergence Fdlibm.log [0.1; 0.2; 0.7] [0.1; 0.2; 0.7] = Ok 0.
Proof.
  split.
  - apply (kl_of_distribution Fdlibm.log [0; 1e308; 1e308; infinity]);
      reflexivity.
  - apply (kl_of_distribution Fdlibm.log [0.1; 0.2; 0.7]); reflexivity.
Defined.

Lemma kl_of_distributions_returns_witness :
  (exists divergence : float,
     calculateKLDivergence Fdlibm.log [1e16; 1] [0; 3] = Ok divergence) /\
  calculateKLDivergence Fdlibm.log [1e16; 1] [0; -0]
  = Throw "Distributions cannot sum to zero".
Proof.
  destruct (kl_of_distributions_returns Fdlibm.log [1e16; 1] [0; 3])
    as [Hr _]; try reflexivity.
  destruct (kl_of_distributions_returns Fdlibm.log [1e16; 1] [0; -0])
    as [_ Ht]; try reflexivity.
  split; [now apply Hr | now apply Ht].
Defined.




(** C3.  The divergence can be negative.  For [p = [1, 99999999999]] and
    [q = [0, 1]] the first normalized entry of [p], [1e-11], is below
    [epsilon] and its term is skipped; what remains is [x * Math.log(x)] with
    [x = 0.99999999999] below [1], which is negative:
    [-1.0000000827353711e-11] with the logarithm of fdlibm.  For
    [p = [0.1, 0.2, 0.3]] and [q = [1, 2, 3]] nothing is skipped or floored,
    but the last normalized entries are [0.49999999999999989] and [0.5],
    and the result is [-1.1102230246251565e-16]. *)
Theorem kl_goes_negative :
  normalize (reduce_sum [1; 99999999999]) [1; 99999999999]
  = [1e-11; 0.99999999999] /\
  (1e-11 <? epsilon) = true /\
  (0.99999999999 <? 1) = true /\
  (forall Math_log : float -> float,
     calculateKLDivergence Math_log [1; 99999999999] [0; 1]
     = Ok (0 + 0.99999999999 * Math_log 0.99999999999)) /\
  calculateKLDivergence Fdlibm.log [1; 99999999999] [0; 1]
  = Ok (-1.0000000827353711e-11) /\
  (forall Math_log : float -> float,
     calculateKLDivergence Math_log [0.1; 0.2; 0.3] [1; 2; 3]
     = Ok (0 + 0.16666666666666666 * Math_log 1
           + 0.33333333333333331 * Math_log 1
           + 0.49999999999999989 * Math_log 0.99999999999999978)) /\
  calculateKLDivergence Fdlibm.log [0.1; 0.2; 0.3] [1; 2; 3]
  = Ok (-1.1102230246251565e-16) /\
  (-1.1102230246251565e-16 <? 0) = true.
Proof.
  repeat split.
Qed.

Lemma kl_nan_entry_witness :
  calculateKLDivergence Fdlibm.log [0.5; nan] [1; 1] = Ok 0.
Proof.
  apply (kl_nan_entry Fdlibm.log [0.5; nan] [1; 1]).
  - reflexivity.
  - right. left. reflexivity.
  - reflexivity.
Defined.

End Metrics64Facts.

(** * Properties of the drift worker *)

Module WorkerFacts.

Import PrimFloat.
Import Worker.
Import Scenarios.
Local Open Scope Z_scope.
Local Open Scope string_scope.
Local Open Scope list_scope.

Ltac world_simpl :=
  cbn [service_compute_drift service_health db_error models drift_runs alerts
       clock trace emit add_drift_run add_alert advance_clock].

(** C2. Whenever [createAlert] completes, it has appended exactly one alert
    row, for the given model and drift run, whose severity is "critical" if
    and only if [kl_divergence > criticalThreshold] and "warning" otherwise;
    the threshold is 0.5, so a KL divergence of 0.6 gives "critical" and one
    of 0.3 gives "warning". *)
Theorem createAlert_severity (w w' : World) (modelId driftRunId : Z)
  (drift : Drift) (modelName : string) :
  createAlert modelId driftRunId drift modelName w = (Ok tt, w') ->
  exists row : AlertRow,
    alerts w' = alerts w ++ [row] /\
    alert_model_id row = modelId /\
    alert_drift_run_id row = driftRunId /\
    (severity row = "critical" <->
       (criticalThreshold DRIFT_CONFIG <? kl_divergence drift)%float = true) /\
    (severity row = "warning" <->
       (criticalThreshold DRIFT_CONFIG <? kl_divergence drift)%float = false) /\
    criticalThreshold DRIFT_CONFIG = 0.5%float /\
    (kl_divergence drift = 0.6%float -> severity row = "critical") /\
    (kl_divergence drift = 0.3%float -> severity row = "warning").
Proof.
  unfold createAlert, query, bind, pool_query, console_log, effect.
  destruct (db_error _ _ _) as [err|]; [discriminate|].
  intro E. injection E as <-. eexists. cbn [alerts add_alert emit].
  split; [reflexivity|]. split; [reflexivity|]. split; [reflexivity|].
  cbn [severity].
  change (criticalThreshold DRIFT_CONFIG) with 0.5%float.
  assert ((0.5 <? 0.6)%float = true) as H6 by reflexivity.
  assert ((0.5 <? 0.3)%float = false) as H3 by reflexivity.
  destruct (0.5 <? kl_divergence drift)%float eqn:Hcmp;
    (split; [split; congruence|]); (split; [split; congruence|]);
    (split; [reflexivity|]); split; intro Hkl; rewrite Hkl in Hcmp;
    congruence.
Qed.

Lemma createAlert_severity_witness :
  exists row : AlertRow,
    alerts (snd (createAlert 1 7 (drift_with_kl 0.6%float true)
                   "fraud-detector" (quiet_world [fraud_model]
                                       (service_failing_for 0))))
      = [] ++ [row] /\
    alert_model_id row = 1 /\
    alert_drift_run_id row = 7 /\
    severity row = "critical".
Proof.
  destruct (createAlert_severity
              (quiet_world [fraud_model] (service_failing_for 0))
              (snd (createAlert 1 7 (drift_with_kl 0.6%float true)
                      "fraud-detector"
                      (quiet_world [fraud_model] (service_failing_for 0))))
              1 7 (drift_with_kl 0.6%float true) "fraud-detector")
    as (row & Ha & Hm & Hr & _ & _ & _ & H6 & _).
  - reflexivity.
  - exists row. repeat split; trivial. now apply H6.
Defined.

(** The two values named in the claim, run through [createAlert]. *)
Example createAlert_kl_06_critical :
  map severity
    (alerts (snd (createAlert 1 7 (drift_with_kl 0.6%float true)
                    "fraud-detector" (quiet_world [] (service_failing_for 0)))))
  = ["critical"].
Proof. reflexivity. Qed.

Example createAlert_kl_03_warning :
  map severity
    (alerts (snd (createAlert 1 7 (drift_with_kl 0.3%float true)
                    "fraud-detector" (quiet_world [] (service_failing_for 0)))))
  = ["warning"].
Proof. reflexivity. Qed.

(** [checkModel] raises an alert exactly when the answer says
    [drift_detected]. *)
Lemma checkModel_alerts (m : Model) (w w' : World) (drift : Drift) :
  service_compute_drift w (id m) = Ok drift ->
  checkModel m w = (Ok tt, w') ->
  if drift_detected drift
  then exists row, alerts w' = alerts w ++ [row] /\
         severity row =
           (if (criticalThreshold DRIFT_CONFIG <? kl_divergence drift)%float
            then "critical" else "warning")
  else alerts w' = alerts w.
Proof.
  intros Hs.
  unfold checkModel, createAlert, storeDriftRun, computeDrift, console_log,
    query, pool_query, effect, ret, bind.
  world_simpl. rewrite Hs. world_simpl.
  destruct (db_error w (clock w) (InsertDriftRun (id m) drift));
    [discriminate|].
  destruct (drift_detected drift); world_simpl.
  - match goal with
    | |- context [db_error w ?t ?s] => destruct (db_error w t s)
    end; [discriminate|].
    intro E. injection E as <-. eexists. cbn. split; reflexivity.
  - intro E. now injection E as <-.
Qed.

(** *** One cycle of the worker *)

Lemma checked_models_app (xs ys : list Event) :
  checked_models (xs ++ ys) = checked_models xs ++ checked_models ys.
Proof.
  induction xs as [|e xs IH]; [reflexivity|].
  destruct e; simpl; now rewrite IH.
Qed.

Lemma sleeps_app (xs ys : list Event) :
  sleeps (xs ++ ys) = sleeps xs ++ sleeps ys.
Proof.
  induction xs as [|e xs IH]; [reflexivity|].
  destruct e; simpl; now rewrite IH.
Qed.

Ltac trace_filter :=
  rewrite ?checked_models_app, ?sleeps_app; cbn [checked_models sleeps];
  rewrite ?app_nil_r; try reflexivity.

(** [checkModel] requests the drift of its model first and of no other
    model, whether it completes or throws. *)
Lemma checkModel_checked (m : Model) (w : World) :
  checked_models (trace (snd (checkModel m w)))
  = checked_models (trace w) ++ [id m].
Proof.
  unfold checkModel, createAlert, storeDriftRun, computeDrift, console_log,
    query, pool_query, effect, ret, bind.
  cbn [service_compute_drift emit db_error clock trace].
  destruct (service_compute_drift w (id m)) as [drift|err]; cbn;
    [|trace_filter].
  destruct (db_error w (clock w) (InsertDriftRun (id m) drift)); cbn;
    [trace_filter|].
  destruct (drift_detected drift); cbn; [|trace_filter].
  match goal with
  | |- context [db_error w ?t ?s] => destruct (db_error w t s)
  end; cbn; trace_filter.
Qed.

Lemma for_of_app (A : Type) (pre post : list A) (body : A -> M unit)
  (w : World) :
  for_of (pre ++ post) body w =
    match for_of pre body w with
    | (Ok _, w1) => for_of post body w1
    | (Throw err, w1) => (Throw err, w1)
    end.
Proof.
  revert w. induction pre as [|x pre IH]; intro w; [reflexivity|].
  cbn [app for_of]. unfold bind.
  destruct (body x w) as [[[]|err] w1]; [apply IH | reflexivity].
Qed.

Lemma for_of_checked (ms : list Model) (w w' : World) :
  for_of ms checkModel w = (Ok tt, w') ->
  checked_models (trace w') = checked_models (trace w) ++ map id ms.
Proof.
  revert w. induction ms as [|m ms IH]; intros w E.
  - injection E as <-. cbn. now rewrite app_nil_r.
  - cbn [for_of] in E. unfold bind in E.
    pose proof (checkModel_checked m w) as Hm.
    destruct (checkModel m w) as [[[]|err] w1]; [|discriminate].
    rewrite (IH w1 E). cbn [snd] in Hm. rewrite Hm.
    now rewrite <- app_assoc.
Qed.

Lemma runDriftCheck_unfold (w : World) :
  runDriftCheck w =
    match db_error w (clock w) SelectModels with
    | Some err =>
        (Ok tt, emit (Print (CycleError (clock w) err)) (cycle_start w))
    | None =>
        match for_of (models w) checkModel (cycle_start w) with
        | (Ok _, w1) =>
            (Ok tt, emit (Print (DriftCheckComplete (clock w))) w1)
        | (Throw err, w1) =>
            (Ok tt, emit (Print (CycleError (clock w) err)) w1)
        end
    end.
Proof.
  unfold runDriftCheck, bind, now, try_catch, query, pool_query, console_log,
    console_error, effect, cycle_start.
  cbn [emit db_error clock models].
  destruct (db_error w (clock w) SelectModels); [reflexivity|].
  destruct (for_of (models w) checkModel _) as [[[]|err] w1]; reflexivity.
Qed.

(** C1, amended.  [runDriftCheck] never throws: a failure anywhere in the
    cycle is caught and logged.  A failing [checkModel] ends the cycle: when
    the registry is [pre ++ m :: post], the checks of [pre] complete and the
    check of [m] throws [err], the cycle stops in the world the failing check
    left, with [err] logged; [checkModel] has been entered for [pre] and [m],
    in order, and for no model of [post]. *)
Theorem runDriftCheck_stops_at_first_failure (w w1 w2 : World)
  (pre post : list Model) (m : Model) (err : string) :
  db_error w (clock w) SelectModels = None ->
  models w = pre ++ m :: post ->
  for_of pre checkModel (cycle_start w) = (Ok tt, w1) ->
  checkModel m w1 = (Throw err, w2) ->
  runDriftCheck w = (Ok tt, emit (Print (CycleError (clock w) err)) w2) /\
  checked_models (trace (snd (runDriftCheck w)))
    = checked_models (trace w) ++ map id pre ++ [id m] /\
  (forall w0 : World, fst (runDriftCheck w0) = Ok tt).
Proof.
  intros Hdb Hms Hpre Hm.
  assert (runDriftCheck w
          = (Ok tt, emit (Print (CycleError (clock w) err)) w2)) as E.
  { rewrite runDriftCheck_unfold, Hdb, Hms, for_of_app, Hpre.
    cbn [for_of]. unfold bind. now rewrite Hm. }
  split; [exact E|]. split.
  - rewrite E. cbn [snd emit trace].
    rewrite checked_models_app. cbn [checked_models]. rewrite app_nil_r.
    pose proof (checkModel_checked m w1) as Hc. rewrite Hm in Hc.
    cbn [snd] in Hc. rewrite Hc.
    rewrite (for_of_checked pre _ _ Hpre).
    unfold cycle_start. cbn [emit trace].
    rewrite !checked_models_app. cbn [checked_models].
    now rewrite !app_nil_r, <- app_assoc.
  - intro w0. rewrite runDriftCheck_unfold.
    destruct (db_error w0 (clock w0) SelectModels); [reflexivity|].
    destruct (for_of (models w0) checkModel _) as [[[]|e] w3]; reflexivity.
Qed.

(** *** Start-up *)

Lemma services_ready_outside (w w1 : World) (t : Z) :
  service_health w1 = service_health w ->
  db_error w1 = db_error w ->
  services_ready w1 t = services_ready w t.
Proof. unfold services_ready. now intros -> ->. Qed.

(** An attempt made while both services answer returns at once. *)
Lemma attempt_ready (w : World) (i : nat) (delayMs : Z) :
  services_ready w (clock w) = true ->
  exists w1 : World,
    waitForServices_loop (S i) delayMs w = (Ok tt, w1) /\
    clock w1 = clock w /\
    sleeps (trace w1) = sleeps (trace w).
Proof.
  unfold services_ready. intro Hr. apply andb_prop in Hr as [Hh Hd].
  cbn [waitForServices_loop].
  unfold try_catch, axios_get_health, pool_query, console_log, effect, ret,
    bind.
  world_simpl. rewrite Hh. world_simpl.
  destruct (db_error w (clock w) SelectOne); [discriminate|].
  eexists. split; [reflexivity|]. cbn. split; [reflexivity|trace_filter].
Qed.

(** An attempt made while a service is down logs, sleeps [delayMs] and
    goes on with one attempt fewer. *)
Lemma attempt_not_ready (w : World) (i : nat) (delayMs : Z) :
  services_ready w (clock w) = false ->
  exists w1 : World,
    waitForServices_loop (S i) delayMs w = waitForServices_loop i delayMs w1 /\
    clock w1 = clock w + Z.max 0 delayMs /\
    service_health w1 = service_health w /\
    db_error w1 = db_error w /\
    sleeps (trace w1) = sleeps (trace w) ++ [delayMs] /\
    checked_models (trace w1) = checked_models (trace w).
Proof.
  unfold services_ready. intro Hr.
  cbn [waitForServices_loop].
  unfold try_catch, axios_get_health, pool_query, console_log, sleep, effect,
    ret, bind.
  world_simpl.
  destruct (service_health w (clock w)); world_simpl.
  - destruct (db_error w (clock w) SelectOne); [|discriminate].
    eexists. split; [reflexivity|]. cbn.
    repeat split; trace_filter.
  - eexists. split; [reflexivity|]. cbn.
    repeat split; trace_filter.
Qed.

Lemma loop_returns (k : nat) :
  forall (i : nat) (w : World) (delayMs : Z),
    0 <= delayMs ->
    (k < i)%nat ->
    (forall j : nat, (j < k)%nat ->
       services_ready w (clock w + Z.of_nat j * delayMs) = false) ->
    services_ready w (clock w + Z.of_nat k * delayMs) = true ->
    exists w' : World,
      waitForServices_loop i delayMs w = (Ok tt, w') /\
      clock w' = clock w + Z.of_nat k * delayMs /\
      sleeps (trace w') = sleeps (trace w) ++ repeat delayMs k.
Proof.
  induction k as [|k IH]; intros i w delayMs Hd Hk Hdown Hup;
    destruct i as [|i]; try lia.
  - replace (clock w + Z.of_nat 0 * delayMs) with (clock w) in Hup by lia.
    destruct (attempt_ready w i delayMs Hup) as (w1 & E & Hc & Hs).
    exists w1. cbn [repeat]. rewrite app_nil_r. repeat split; trivial. lia.
  - assert (services_ready w (clock w) = false) as H0.
    { specialize (Hdown 0%nat ltac:(lia)).
      now replace (clock w + Z.of_nat 0 * delayMs) with (clock w) in Hdown
        by lia. }
    destruct (attempt_not_ready w i delayMs H0)
      as (w1 & E & Hc & Hh & Hdb & Hs & _).
    rewrite Z.max_r in Hc by assumption.
    destruct (IH i w1 delayMs Hd ltac:(lia)) as (w' & E' & Hc' & Hs').
    + intros j Hj. rewrite (services_ready_outside w w1 _ Hh Hdb), Hc.
      specialize (Hdown (S j) ltac:(lia)).
      now replace (clock w + delayMs + Z.of_nat j * delayMs)
        with (clock w + Z.of_nat (S j) * delayMs) by lia.
    + rewrite (services_ready_outside w w1 _ Hh Hdb), Hc.
      now replace (clock w + delayMs + Z.of_nat k * delayMs)
        with (clock w + Z.of_nat (S k) * delayMs) by lia.
    + exists w'. rewrite E, E'. split; [reflexivity|]. split; [lia|].
      rewrite Hs', Hs. cbn [repeat]. now rewrite <- app_assoc.
Qed.

Lemma loop_gives_up (i : nat) :
  forall (w : World) (delayMs : Z),
    0 <= delayMs ->
    (forall j : nat, (j < i)%nat ->
       services_ready w (clock w + Z.of_nat j * delayMs) = false) ->
    exists w' : World,
      waitForServices_loop i delayMs w = (Throw "Services unavailable", w') /\
      sleeps (trace w') = sleeps (trace w) ++ repeat delayMs i /\
      checked_models (trace w') = checked_models (trace w).
Proof.
  induction i as [|i IH]; intros w delayMs Hd Hdown.
  - exists w. cbn. rewrite app_nil_r. repeat split.
  - assert (services_ready w (clock w) = false) as H0.
    { specialize (Hdown 0%nat ltac:(lia)).
      now replace (clock w + Z.of_nat 0 * delayMs) with (clock w) in Hdown
        by lia. }
    destruct (attempt_not_ready w i delayMs H0)
      as (w1 & E & Hc & Hh & Hdb & Hs & Hm).
    rewrite Z.max_r in Hc by assumption.
    destruct (IH w1 delayMs Hd) as (w' & E' & Hs' & Hm').
    + intros j Hj. rewrite (services_ready_outside w w1 _ Hh Hdb), Hc.
      specialize (Hdown (S j) ltac:(lia)).
      now replace (clock w + delayMs + Z.of_nat j * delayMs)
        with (clock w + Z.of_nat (S j) * delayMs) by lia.
    + exists w'. rewrite E, E'. split; [reflexivity|]. split.
      * rewrite Hs', Hs. cbn [repeat]. now rewrite <- app_assoc.
      * now rewrite Hm', Hm.
Qed.

Lemma waitForServices_unfold (maxRetries : nat) (delayMs : Z) (w : World) :
  waitForServices maxRetries delayMs w
  = waitForServices_loop maxRetries delayMs (emit (Print WaitingForServices) w).
Proof. reflexivity. Qed.

(** C6. [waitForServices] probes the computation service and the database
    once per attempt, sleeping [delayMs] after each failed attempt.  If both
    answer on attempt [k] (counted from 0) and not before, with
    [k < maxRetries], it returns then, after exactly [k] sleeps.  If no
    attempt succeeds it throws "Services unavailable" after [maxRetries]
    sleeps; in [main], called with the defaults 30 and 2000 ms, that error
    reaches the handler that logs it and exits with code 1, and no drift
    check is run. *)
Theorem waitForServices_retries (w : World) (maxRetries : nat) (delayMs : Z) :
  0 <= delayMs ->
  (forall k : nat,
     (k < maxRetries)%nat ->
     (forall j : nat, (j < k)%nat ->
        services_ready w (clock w + Z.of_nat j * delayMs) = false) ->
     services_ready w (clock w + Z.of_nat k * delayMs) = true ->
     exists w' : World,
       waitForServices maxRetries delayMs w = (Ok tt, w') /\
       clock w' = clock w + Z.of_nat k * delayMs /\
       sleeps (trace w') = sleeps (trace w) ++ repeat delayMs k) /\
  ((forall j : nat, (j < maxRetries)%nat ->
      services_ready w (clock w + Z.of_nat j * delayMs) = false) ->
   exists w' : World,
     waitForServices maxRetries delayMs w
       = (Throw "Services unavailable", w') /\
     sleeps (trace w') = sleeps (trace w) ++ repeat delayMs maxRetries) /\
  (default_maxRetries = 30%nat /\ default_delayMs = 2000) /\
  ((forall j : nat, (j < default_maxRetries)%nat ->
      services_ready w (clock w + Z.of_nat j * default_delayMs) = false) ->
   exists w' : World,
     main w = (Throw "Services unavailable", w') /\
     sleeps (trace w')
       = sleeps (trace w) ++ repeat default_delayMs default_maxRetries /\
     run_main w
       = emit (ProcessExit 1)
           (emit (Print (Fatal "Services unavailable")) w') /\
     checked_models (trace (run_main w)) = checked_models (trace w)).
Proof.
  intro Hd. split; [|split; [|split; [split; reflexivity|]]].
  - intros k Hk Hdown Hup. rewrite waitForServices_unfold.
    destruct (loop_returns k maxRetries (emit (Print WaitingForServices) w)
                delayMs Hd Hk Hdown Hup) as (w' & E & Hc & Hs).
    exists w'. split; [exact E|]. split; [exact Hc|].
    rewrite Hs. world_simpl. now trace_filter.
  - intros Hdown. rewrite waitForServices_unfold.
    destruct (loop_gives_up maxRetries (emit (Print WaitingForServices) w)
                delayMs Hd Hdown) as (w' & E & Hs & _).
    exists w'. split; [exact E|].
    rewrite Hs. world_simpl. now trace_filter.
  - intros Hdown.
    destruct (loop_gives_up default_maxRetries
                (emit (Print WaitingForServices) w) default_delayMs
                ltac:(unfold default_delayMs; lia) Hdown)
      as (w' & E & Hs & Hm).
    assert (main w = (Throw "Services unavailable", w')) as Em.
    { unfold main, bind. now rewrite waitForServices_unfold, E. }
    exists w'. split; [exact Em|]. split.
    { rewrite Hs. world_simpl. now trace_filter. }
    unfold run_main. rewrite Em. split; [reflexivity|].
    cbn [emit trace]. trace_filter.
    rewrite Hm. world_simpl. now trace_filter.
Qed.

(** C1, as stated, fails.  Of three registered models the drift computation
    of the second throws while the third would be checked without error; the
    cycle requests drift for the first two and never enters [checkModel] for
    the third. *)
Lemma runDriftCheck_skips_later_models :
  models world_second_fails = [fraud_model; churn_model; ranker_model] /\
  (forall w : World,
     service_compute_drift w = service_failing_for 2 ->
     fst (checkModel churn_model w)
       = Throw "Request failed with status code 500") /\
  fst (checkModel ranker_model (cycle_start world_second_fails)) = Ok tt /\
  checked_models (trace (snd (runDriftCheck world_second_fails))) = [1; 2] /\
  ~ In (id ranker_model)
      (checked_models (trace (snd (runDriftCheck world_second_fails)))).
Proof.
  split; [reflexivity|]. split.
  { intros w Hw. unfold checkModel, computeDrift, bind. world_simpl.
    now rewrite Hw. }
  split; [reflexivity|]. split; [reflexivity|].
  cbn. intros [H|[H|[]]]; discriminate.
Qed.

Lemma runDriftCheck_stops_at_first_failure_witness :
  exists w2 : World,
    runDriftCheck world_second_fails
      = (Ok tt,
         emit (Print (CycleError 0 "Request failed with status code 500")) w2)
    /\
    checked_models (trace (snd (runDriftCheck world_second_fails)))
      = [] ++ map id [fraud_model] ++ [id churn_model].
Proof.
  pose (w1 := snd (for_of [fraud_model] checkModel
                     (cycle_start world_second_fails))).
  pose (w2 := snd (checkModel churn_model w1)).
  exists w2.
  destruct (runDriftCheck_stops_at_first_failure world_second_fails w1 w2
              [fraud_model] [ranker_model] churn_model
              "Request failed with status code 500") as (E & Hc & _).
  - reflexivity.
  - reflexivity.
  - reflexivity.
  - reflexivity.
  - split; [exact E | exact Hc].
Defined.

Lemma waitForServices_retries_witness :
  (exists w' : World,
     waitForServices 30 2000 world_ready_at_4000 = (Ok tt, w') /\
     clock w' = 4000 /\
     sleeps (trace w') = [] ++ repeat 2000 2) /\
  (exists w' : World,
     main world_never_ready = (Throw "Services unavailable", w') /\
     sleeps (trace w') = [] ++ repeat default_delayMs default_maxRetries /\
     run_main world_never_ready
       = emit (ProcessExit 1)
           (emit (Print (Fatal "Services unavailable")) w')).
Proof.
  split.
  - destruct (waitForServices_retries world_ready_at_4000 30 2000)
      as (Hret & _); [lia|].
    apply (Hret 2%nat).
    + lia.
    + intros j Hj. destruct j as [|[|j]]; [reflexivity | reflexivity | lia].
    + reflexivity.
  - destruct (waitForServices_retries world_never_ready 30 2000)
      as (_ & _ & _ & Hmain); [lia|].
    destruct Hmain as (w' & Em & Hs & Er & _).
    + intros j Hj. reflexivity.
    + exists w'. split; [exact Em|]. split; [exact Hs | exact Er].
Defined.

End WorkerFacts.

(** * Properties of GET /drift/latest *)

Module ApiFacts.

Import Api.
Import Scenarios.
Local Open Scope Z_scope.
Local Open Scope string_scope.
Local Open Scope list_scope.

Lemma newest_none (rows : list DriftRun) : newest rows = None -> rows = [].
Proof.
  destruct rows as [|r rest]; [reflexivity|]. simpl.
  destruct (newest rest) as [r'|]; [|discriminate].
  destruct (created_at r' <=? created_at r)%Z; discriminate.
Qed.

Lemma newest_is_greatest (rows : list DriftRun) (r : DriftRun) :
  newest rows = Some r ->
  In r rows /\ forall r', In r' rows -> created_at r' <= created_at r.
Proof.
  revert r. induction rows as [|x rest IH]; intros r E; [discriminate|].
  simpl in E. destruct (newest rest) as [y|] eqn:Hy.
  - destruct (IH y eq_refl) as [Hin Hmax].
    destruct (created_at y <=? created_at x)%Z eqn:Hc; injection E as <-.
    + apply Z.leb_le in Hc. split; [now left|].
      intros r' [<-|Hr']; [lia|]. specialize (Hmax r' Hr'). lia.
    + apply Z.leb_gt in Hc. split; [now right|].
      intros r' [<-|Hr']; [lia | now apply Hmax].
  - injection E as <-. apply newest_none in Hy. subst rest.
    split; [now left|]. intros r' [<-|[]]. lia.
Qed.

Lemma select_latest_spec (db : Database) (m : Z) :
  ((forall r, In r (drift_runs db) -> model_id r <> m) /\
   select_latest db m = []) \/
  (exists r, latest_run db m r /\ select_latest db m = [r]).
Proof.
  unfold select_latest.
  destruct (newest (filter _ (drift_runs db))) as [r|] eqn:E.
  - right. exists r. split; [|reflexivity].
    destruct (newest_is_greatest _ _ E) as [Hin Hmax].
    apply filter_In in Hin as [Hin Hm]. apply Z.eqb_eq in Hm.
    repeat split; trivial.
    intros r' Hr' Hm'. apply Hmax, filter_In. split; [assumption|].
    now apply Z.eqb_eq.
  - left. split; [|reflexivity].
    apply newest_none in E. intros r Hr Hm.
    assert (In r (filter (fun r0 => (model_id r0 =? m)%Z) (drift_runs db)))
      as Hf by (apply filter_In; split; [assumption | now apply Z.eqb_eq]).
    now rewrite E in Hf.
Qed.

(** C8. When the query succeeds for the requested model [m], the handler
    answers 200 with one of three statuses: "no_data" when no drift run of
    [m] exists, and otherwise, for a latest drift run of [m], "stable" when
    its [drift_detected] is false and "drift_detected" when it is true. *)
Theorem drift_latest_status (db : Database) (query_model_id : option string)
  (m : Z) :
  query_error db = None ->
  requested_model db query_model_id = Some m ->
  ((forall r, In r (drift_runs db) -> model_id r <> m) ->
   get_drift_latest db query_model_id
     = {| http_status := 200;
          body := NoData "no_data" "No drift runs found" |}) /\
  ((exists r, In r (drift_runs db) /\ model_id r = m) ->
   exists r : DriftRun,
     latest_run db m r /\
     http_status (get_drift_latest db query_model_id) = 200 /\
     (drift_detected r = Some false ->
      status_of (body (get_drift_latest db query_model_id)) = Some "stable") /\
     (drift_detected r = Some true ->
      status_of (body (get_drift_latest db query_model_id))
        = Some "drift_detected")).
Proof.
  intros Hq Hm.
  assert (query db (modelId_of query_model_id) = Ok (select_latest db m))
    as Eq.
  { unfold query, requested_model in *. rewrite Hq.
    destruct (modelId_of query_model_id) as [s|n].
    - now rewrite Hm.
    - now injection Hm as ->. }
  unfold get_drift_latest. cbv zeta. rewrite Eq.
  destruct (select_latest_spec db m) as [[Hnone ->]|(r & Hr & ->)].
  - split; [reflexivity|]. intros (r & Hin & Hmr). now elim (Hnone r Hin).
  - split.
    + intro Hnone. destruct Hr as (Hin & Hmr & _). now elim (Hnone r Hin).
    + intros _. exists r. split; [exact Hr|]. split; [reflexivity|].
      split; intros ->; reflexivity.
Qed.

Lemma drift_latest_status_witness :
  exists r : DriftRun,
    latest_run database_example 1 r /\
    http_status (get_drift_latest database_example (Some "1")) = 200 /\
    status_of (body (get_drift_latest database_example (Some "1")))
      = Some "stable".
Proof.
  destruct (drift_latest_status database_example (Some "1") 1)
    as (_ & Hsome); [reflexivity | reflexivity |].
  destruct Hsome as (r & Hr & Hs & Hstable & _).
  - exists (run_at 200 1 (Some false)). split; [right; now left | reflexivity].
  - exists r. split; [exact Hr|]. split; [exact Hs|].
    apply Hstable.
    destruct Hr as (Hin & Hm & Hmax).
    specialize (Hmax (run_at 200 1 (Some false))
                  ltac:(right; now left) eq_refl).
    destruct Hin as [<-|[<-|[<-|[]]]]; cbn in Hm, Hmax; try reflexivity;
      [lia | discriminate].
Defined.

(** The three answers on the example table: model 1 was last seen stable,
    model 2 last drifted, model 3 has no run; without a parameter the request
    is about model 1. *)
Example drift_latest_three_states :
  status_of (body (get_drift_latest database_example (Some "1")))
    = Some "stable" /\
  status_of (body (get_drift_latest database_example (Some "2")))
    = Some "drift_detected" /\
  status_of (body (get_drift_latest database_example (Some "3")))
    = Some "no_data" /\
  get_drift_latest database_example None
    = get_drift_latest database_example (Some "1").
Proof. repeat split. Qed.

End ApiFacts.

(** * Further properties of metrics.ts *)

Module MetricsExtra.

Import Metrics.
Import MetricsFacts.
Local Open Scope R_scope.

Lemma dot_self_zero (a : list R) : Forall (fun x => x = 0) a -> dot a a = 0.
Proof.
  induction 1 as [|x a Hx Ha IH]; simpl; [reflexivity|].
  rewrite IH, Hx. ring.
Qed.

(** X2. When every entry of one of two equal-length vectors is zero, the
    cosine similarity is 0 in either argument order, whatever the other
    vector holds: the zero magnitude is caught before the division. *)
Theorem cosine_zero_vector (a b : list R) :
  length a = length b ->
  Forall (fun x => x = 0) a ->
  calculateCosineSimilarity a b = Ok 0 /\
  calculateCosineSimilarity b a = Ok 0.
Proof.
  intros Hl Ha. pose proof (dot_self_zero a Ha) as Hz.
  rewrite (cosine_unfold a b Hl), (cosine_unfold b a (eq_sym Hl)), Hz, sqrt_0.
  destruct (Req_dec_T 0 0) as [_|N]; [|now elim N].
  split; [reflexivity|].
  destruct (Req_dec_T (sqrt (dot b b)) 0); reflexivity.
Qed.

Lemma cosine_zero_vector_witness :
  calculateCosineSimilarity [0; 0] [5; 7] = Ok 0 /\
  calculateCosineSimilarity [5; 7] [0; 0] = Ok 0.
Proof.
  apply (cosine_zero_vector [0; 0] [5; 7]); [reflexivity|].
  repeat constructor.
Defined.

End MetricsExtra.

(** * Further properties of the drift worker *)

Module WorkerExtra.

Import PrimFloat.
Import Worker.
Import WorkerViews.
Import Scenarios.
Import WorkerFacts.
Local Open Scope Z_scope.
Local Open Scope string_scope.
Local Open Scope list_scope.

Ltac run_checkModel :=
  unfold checkModel, createAlert, storeDriftRun, computeDrift, console_log,
    query, pool_query, effect, ret, bind, after_store_query, stored_run,
    raised_alert, alert_insert, alert_severity, alert_message,
    next_drift_run_id in *;
  world_simpl.

(** *** The five ways [checkModel] can end *)

Lemma checkModel_service_fails (m : Model) (w : World) (err : string) :
  service_compute_drift w (id m) = Throw err ->
  checkModel m w
  = (Throw err,
     emit (HttpPostComputeDrift (id m) (windowMinutes DRIFT_CONFIG)
             (baselineMinutes DRIFT_CONFIG)) w).
Proof. intro Hs. run_checkModel. now rewrite Hs. Qed.

Lemma checkModel_store_fails (m : Model) (w : World) (drift : Drift)
  (err : string) :
  service_compute_drift w (id m) = Ok drift ->
  db_error w (clock w) (InsertDriftRun (id m) drift) = Some err ->
  checkModel m w = (Throw err, after_store_query w m drift).
Proof.
  intros Hs Hd. run_checkModel. rewrite Hs. world_simpl. now rewrite Hd.
Qed.

Lemma checkModel_stable (m : Model) (w : World) (drift : Drift) :
  service_compute_drift w (id m) = Ok drift ->
  db_error w (clock w) (InsertDriftRun (id m) drift) = None ->
  drift_detected drift = false ->
  checkModel m w
  = (Ok tt,
     add_drift_run (stored_run w m drift) (after_store_query w m drift)).
Proof.
  intros Hs Hd Hf. run_checkModel. rewrite Hs. world_simpl.
  rewrite Hd, Hf. reflexivity.
Qed.

Lemma checkModel_alert_fails (m : Model) (w : World) (drift : Drift)
  (err : string) :
  service_compute_drift w (id m) = Ok drift ->
  db_error w (clock w) (InsertDriftRun (id m) drift) = None ->
  drift_detected drift = true ->
  db_error w (clock w) (alert_insert w m drift) = Some err ->
  checkModel m w
  = (Throw err,
     emit (Query (alert_insert w m drift))
       (add_drift_run (stored_run w m drift) (after_store_query w m drift))).
Proof.
  intros Hs Hd Ht Ha. run_checkModel. rewrite Hs. world_simpl.
  rewrite Hd, Ht. world_simpl. cbn [run_id]. rewrite Ha. reflexivity.
Qed.

Lemma checkModel_alerted (m : Model) (w : World) (drift : Drift) :
  service_compute_drift w (id m) = Ok drift ->
  db_error w (clock w) (InsertDriftRun (id m) drift) = None ->
  drift_detected drift = true ->
  db_error w (clock w) (alert_insert w m drift) = None ->
  checkModel m w
  = (Ok tt,
     emit (Print (AlertLine (alert_severity drift) (alert_message m drift)))
       (add_alert (raised_alert w m drift)
          (emit (Query (alert_insert w m drift))
             (add_drift_run (stored_run w m drift)
                (after_store_query w m drift))))).
Proof.
  intros Hs Hd Ht Ha. run_checkModel. rewrite Hs. world_simpl.
  rewrite Hd, Ht. world_simpl. cbn [run_id]. rewrite Ha. reflexivity.
Qed.

Ltac checkModel_cases m w :=
  let d := fresh "drift" in
  let e := fresh "err" in
  let Hs := fresh "Hs" in
  let Hd := fresh "Hd" in
  let Ht := fresh "Ht" in
  let Ha := fresh "Ha" in
  destruct (service_compute_drift w (id m)) as [d|e] eqn:Hs;
  [ destruct (db_error w (clock w) (InsertDriftRun (id m) d)) as [e|] eqn:Hd;
    [ rewrite (checkModel_store_fails m w d e Hs Hd) in *
    | destruct (drift_detected d) eqn:Ht;
      [ destruct (db_error w (clock w) (alert_insert w m d)) as [e|] eqn:Ha;
        [ rewrite (checkModel_alert_fails m w d e Hs Hd Ht Ha) in *
        | rewrite (checkModel_alerted m w d Hs Hd Ht Ha) in * ]
      | rewrite (checkModel_stable m w d Hs Hd Ht) in * ] ]
  | rewrite (checkModel_service_fails m w e Hs) in * ].

(** X7. A check that completes has stored exactly one drift run, carrying
    the model's id and the answer of the computation service, and exactly
    one alert if the answer says [drift_detected] and none otherwise; the
    alert names the same model and the id of the run just stored. *)
Theorem checkModel_writes (m : Model) (w w' : World) :
  checkModel m w = (Ok tt, w') ->
  exists (drift : Drift) (run : DriftRunRow),
    service_compute_drift w (id m) = Ok drift /\
    drift_runs w' = drift_runs w ++ [run] /\
    run_model_id run = id m /\
    run_drift run = drift /\
    (drift_detected drift = false -> alerts w' = alerts w) /\
    (drift_detected drift = true ->
     exists alert : AlertRow,
       alerts w' = alerts w ++ [alert] /\
       alert_model_id alert = id m /\
       alert_drift_run_id alert = run_id run).
Proof.
  intro E. checkModel_cases m w; try discriminate;
    injection E as <-; exists drift, (stored_run w m drift);
    unfold after_store_query; world_simpl;
    (split; [reflexivity|]); (split; [reflexivity|]);
    (split; [reflexivity|]); (split; [reflexivity|]);
    (split; [congruence|]); intro Hdet; try congruence.
  exists (raised_alert w m drift). repeat split.
Qed.

Lemma checkModel_writes_witness :
  exists (run : DriftRunRow) (alert : AlertRow),
    drift_runs (snd (checkModel churn_model world_one_drifts)) = [] ++ [run] /\
    run_model_id run = 2 /\
    alerts (snd (checkModel churn_model world_one_drifts)) = [] ++ [alert] /\
    alert_model_id alert = 2 /\
    alert_drift_run_id alert = run_id run.
Proof.
  destruct (checkModel_writes churn_model world_one_drifts
              (snd (checkModel churn_model world_one_drifts)))
    as (drift & run & Hs & Hr & Hm & Hd & _ & Hyes); [reflexivity|].
  injection Hs as <-.
  destruct (Hyes eq_refl) as (alert & Ha & Ham & Har).
  exists run, alert. repeat split; assumption.
Defined.

(** X8. A check that throws never leaves an alert behind.  It leaves the
    drift runs untouched too, unless it was the insert of the alert that
    failed: then the run of the drifting model stays stored without an
    alert. *)
Theorem checkModel_failure_writes (m : Model) (w w' : World) (err : string) :
  checkModel m w = (Throw err, w') ->
  alerts w' = alerts w /\
  (drift_runs w' = drift_runs w \/
   exists (drift : Drift) (run : DriftRunRow),
     service_compute_drift w (id m) = Ok drift /\
     drift_detected drift = true /\
     db_error w (clock w)
       (InsertAlert (id m) (run_id run)
          (if (criticalThreshold DRIFT_CONFIG <? kl_divergence drift)%float
           then "critical" else "warning")
          {| message_model := name m;
             message_kl := kl_divergence drift;
             message_cosine := cosine_similarity drift |}) = Some err /\
     drift_runs w' = drift_runs w ++ [run] /\
     run_model_id run = id m /\
     run_drift run = drift).
Proof.
  intro E. checkModel_cases m w; try discriminate;
    injection E as <- <-; unfold after_store_query; world_simpl;
    (split; [reflexivity|]); try (left; reflexivity).
  right. exists drift, (stored_run w m drift). repeat split; assumption.
Qed.

Lemma checkModel_failure_writes_witness :
  alerts (snd (checkModel fraud_model world_rejecting_alerts)) = [] /\
  map run_model_id
    (drift_runs (snd (checkModel fraud_model world_rejecting_alerts))) = [1].
Proof.
  destruct (checkModel_failure_writes fraud_model world_rejecting_alerts
              (snd (checkModel fraud_model world_rejecting_alerts))
              "deadlock detected")
    as (Ha & [Hr|(d & run & _ & _ & _ & Hr & Hm & _)]).
  - reflexivity.
  - discriminate Hr.
  - split; [exact Ha|]. rewrite Hr. cbn. now rewrite Hm.
Defined.

(** *** What a cycle writes *)

Lemma alerts_match_runs_app (runs1 runs2 : list DriftRunRow)
  (als1 als2 : list AlertRow) :
  alerts_match_runs runs1 als1 -> alerts_match_runs runs2 als2 ->
  alerts_match_runs (runs1 ++ runs2) (als1 ++ als2).
Proof.
  unfold alerts_match_runs. intros H1 H2. apply Forall_app. split.
  - eapply Forall_impl; [|exact H1].
    intros a (run & Hin & Hrest). exists run. split; [|exact Hrest].
    apply in_or_app. now left.
  - eapply Forall_impl; [|exact H2].
    intros a (run & Hin & Hrest). exists run. split; [|exact Hrest].
    apply in_or_app. now right.
Qed.

(** One check extends the two tables by at most one run and at most one
    alert, and changes nothing else the next check depends on. *)
Lemma checkModel_extends (m : Model) (w : World) :
  exists (runs : list DriftRunRow) (als : list AlertRow),
    drift_runs (snd (checkModel m w)) = drift_runs w ++ runs /\
    alerts (snd (checkModel m w)) = alerts w ++ als /\
    clock (snd (checkModel m w)) = clock w /\
    (length als <= length runs)%nat /\
    (map run_model_id runs = [] \/ map run_model_id runs = [id m]) /\
    alerts_match_runs runs als /\
    (forall u, fst (checkModel m w) = Ok u -> map run_model_id runs = [id m]).
Proof.
  checkModel_cases m w; unfold after_store_query; world_simpl.
  - exists [], []. rewrite !app_nil_r.
    repeat split; trivial; [now left | constructor | discriminate].
  - exists [stored_run w m drift], []. rewrite !app_nil_r.
    repeat split; trivial; [cbn; lia | now right | constructor].
  - exists [stored_run w m drift], [raised_alert w m drift].
    repeat split; trivial; [now right|].
    constructor; [|constructor].
    exists (stored_run w m drift). repeat split; trivial. now left.
  - exists [stored_run w m drift], []. rewrite !app_nil_r.
    repeat split; trivial; [cbn; lia | now right | constructor].
  - exists [], []. rewrite !app_nil_r.
    repeat split; trivial; [now left | constructor | discriminate].
Qed.

Lemma for_of_extends (ms : list Model) :
  forall w : World,
  exists (runs : list DriftRunRow) (als : list AlertRow) (n : nat),
    drift_runs (snd (for_of ms checkModel w)) = drift_runs w ++ runs /\
    alerts (snd (for_of ms checkModel w)) = alerts w ++ als /\
    clock (snd (for_of ms checkModel w)) = clock w /\
    (length als <= length runs)%nat /\
    map run_model_id runs = firstn n (map id ms) /\
    alerts_match_runs runs als /\
    (forall u, fst (for_of ms checkModel w) = Ok u ->
     map run_model_id runs = map id ms).
Proof.
  induction ms as [|m ms IH]; intro w.
  - exists [], [], 0%nat. cbn. rewrite !app_nil_r.
    repeat split; trivial. constructor.
  - destruct (checkModel_extends m w)
      as (runs1 & als1 & Hr1 & Ha1 & Hc1 & Hl1 & Hm1 & Hf1 & Hok1).
    cbn [for_of]. unfold bind.
    destruct (checkModel m w) as [[[]|err] w1]; cbn [fst snd] in *.
    + destruct (IH w1) as (runs2 & als2 & n & Hr2 & Ha2 & Hc2 & Hl2 & Hm2
                            & Hf2 & Hok2).
      exists (runs1 ++ runs2), (als1 ++ als2), (S n).
      rewrite Hr2, Ha2, Hc2, Hr1, Ha1, Hc1, <- !app_assoc.
      split; [reflexivity|]. split; [reflexivity|]. split; [reflexivity|].
      split; [rewrite !length_app; lia|].
      specialize (Hok1 tt eq_refl).
      split; [|split].
      * rewrite map_app, Hok1, Hm2. reflexivity.
      * now apply alerts_match_runs_app.
      * intros u Hu. rewrite map_app, Hok1, (Hok2 u Hu). reflexivity.
    + destruct Hm1 as [Hm1|Hm1].
      * exists runs1, als1, 0%nat. repeat split; trivial. discriminate.
      * exists runs1, als1, 1%nat. repeat split; trivial. discriminate.
Qed.

(** X9. A cycle only appends to the two tables and never touches the clock.
    The drift runs it adds are for an initial stretch of the registry, one
    per model and in registry order; it adds no more alerts than drift runs,
    and every alert it adds names a drift run added in the same cycle, with
    the same model, whose answer says [drift_detected]. *)
Theorem runDriftCheck_appends (w : World) :
  exists (runs : list DriftRunRow) (als : list AlertRow) (n : nat),
    drift_runs (snd (runDriftCheck w)) = drift_runs w ++ runs /\
    alerts (snd (runDriftCheck w)) = alerts w ++ als /\
    clock (snd (runDriftCheck w)) = clock w /\
    map run_model_id runs = firstn n (map id (models w)) /\
    (length als <= length runs)%nat /\
    Forall (fun alert =>
              exists run : DriftRunRow,
                In run runs /\
                alert_drift_run_id alert = run_id run /\
                alert_model_id alert = run_model_id run /\
                drift_detected (run_drift run) = true) als.
Proof.
  rewrite runDriftCheck_unfold.
  destruct (db_error w (clock w) SelectModels) as [err|].
  - exists [], [], 0%nat. cbn. rewrite !app_nil_r.
    repeat split; trivial.
  - destruct (for_of_extends (models w) (cycle_start w))
      as (runs & als & n & Hr & Ha & Hc & Hl & Hm & Hf & _).
    exists runs, als, n.
    destruct (for_of (models w) checkModel (cycle_start w))
      as [[[]|err] w1]; cbn [fst snd] in *; world_simpl;
      rewrite Hr, Ha, Hc; repeat split; trivial.
Qed.

Lemma for_of_all_succeed (ms : list Model) :
  forall w : World,
    (forall t s, db_error w t s = None) ->
    (forall m, In m ms ->
       exists drift, service_compute_drift w (id m) = Ok drift) ->
    exists (w' : World) (runs : list DriftRunRow) (als : list AlertRow),
      for_of ms checkModel w = (Ok tt, w') /\
      drift_runs w' = drift_runs w ++ runs /\
      alerts w' = alerts w ++ als /\
      map run_model_id runs = map id ms /\
      map (fun run => Ok (run_drift run)) runs
        = map (fun m => service_compute_drift w (id m)) ms /\
      map alert_model_id als = map id (filter (drifting w) ms).
Proof.
  induction ms as [|m ms IH]; intros w Hdb Hsvc.
  - exists w, [], []. cbn. rewrite !app_nil_r. repeat split.
  - destruct (Hsvc m (or_introl eq_refl)) as [drift Hs].
    cbn [for_of]. unfold bind.
    cbn [filter map]. unfold drifting at 1. rewrite Hs.
    destruct (drift_detected drift) eqn:Ht.
    + rewrite (checkModel_alerted m w drift Hs (Hdb _ _) Ht (Hdb _ _)).
      match goal with
      | |- context [for_of ms checkModel ?w1] =>
          destruct (IH w1) as (w' & runs & als & E & Hr & Ha & Hm & Hd & Hal);
          [exact Hdb | intros m' Hm'; apply Hsvc; now right |]
      end.
      exists w', (stored_run w m drift :: runs),
        (raised_alert w m drift :: als).
      rewrite E, Hr, Ha. unfold after_store_query. world_simpl.
      rewrite <- !app_assoc. cbn [map app].
      rewrite Hm, Hd, Hal. repeat split.
    + rewrite (checkModel_stable m w drift Hs (Hdb _ _) Ht).
      match goal with
      | |- context [for_of ms checkModel ?w1] =>
          destruct (IH w1) as (w' & runs & als & E & Hr & Ha & Hm & Hd & Hal);
          [exact Hdb | intros m' Hm'; apply Hsvc; now right |]
      end.
      exists w', (stored_run w m drift :: runs), als.
      rewrite E, Hr, Ha. unfold after_store_query. world_simpl.
      rewrite <- !app_assoc. cbn [map app].
      rewrite Hm, Hd, Hal. repeat split.
Qed.

(** X10. When the database accepts every statement and the computation
    service answers for every registered model, a cycle stores one drift run
    per registered model, in registry order and with the service's answer,
    raises one alert for each model whose answer says [drift_detected], in
    the same order, and ends by printing that the check is complete. *)
Theorem runDriftCheck_all_succeed (w : World) :
  (forall t s, db_error w t s = None) ->
  (forall m, In m (models w) ->
     exists drift, service_compute_drift w (id m) = Ok drift) ->
  exists (runs : list DriftRunRow) (als : list AlertRow) (events : list Event),
    drift_runs (snd (runDriftCheck w)) = drift_runs w ++ runs /\
    alerts (snd (runDriftCheck w)) = alerts w ++ als /\
    map run_model_id runs = map id (models w) /\
    map (fun run => Ok (run_drift run)) runs
      = map (fun m => service_compute_drift w (id m)) (models w) /\
    map alert_model_id als = map id (filter (drifting w) (models w)) /\
    trace (snd (runDriftCheck w))
      = events ++ [Print (DriftCheckComplete (clock w))].
Proof.
  intros Hdb Hsvc. rewrite runDriftCheck_unfold, Hdb.
  destruct (for_of_all_succeed (models w) (cycle_start w) Hdb Hsvc)
    as (w' & runs & als & E & Hr & Ha & Hm & Hd & Hal).
  rewrite E. exists runs, als, (trace w'). cbn [snd]. world_simpl.
  repeat split; assumption.
Qed.

Lemma runDriftCheck_all_succeed_witness :
  exists (runs : list DriftRunRow) (als : list AlertRow) (events : list Event),
    drift_runs (snd (runDriftCheck world_one_drifts)) = [] ++ runs /\
    alerts (snd (runDriftCheck world_one_drifts)) = [] ++ als /\
    map run_model_id runs = [1; 2; 3] /\
    map alert_model_id als = [2] /\
    trace (snd (runDriftCheck world_one_drifts))
      = events ++ [Print (DriftCheckComplete 0)].
Proof.
  destruct (runDriftCheck_all_succeed world_one_drifts)
    as (runs & als & events & Hr & Ha & Hm & _ & Hal & Ht).
  - reflexivity.
  - intros m _. unfold world_one_drifts, quiet_world, service_drifting_for.
    cbn. destruct (id m =? 2)%Z; eexists; reflexivity.
  - exists runs, als, events. repeat split; assumption.
Defined.

(** X11. When the query for the registry fails, the cycle checks no model
    and writes nothing: it prints the start line, sends the query, prints the
    error and returns normally. *)
Theorem runDriftCheck_registry_fails (w : World) (err : string) :
  db_error w (clock w) SelectModels = Some err ->
  fst (runDriftCheck w) = Ok tt /\
  trace (snd (runDriftCheck w))
    = trace w ++ [Print (StartingDriftCheck (clock w)); Query SelectModels;
                  Print (CycleError (clock w) err)] /\
  drift_runs (snd (runDriftCheck w)) = drift_runs w /\
  alerts (snd (runDriftCheck w)) = alerts w.
Proof.
  intro Hdb. rewrite runDriftCheck_unfold, Hdb. unfold cycle_start.
  cbn [fst snd]. world_simpl. rewrite <- !app_assoc. repeat split.
Qed.

Lemma runDriftCheck_registry_fails_witness :
  fst (runDriftCheck world_database_down) = Ok tt /\
  trace (snd (runDriftCheck world_database_down))
    = [] ++ [Print (StartingDriftCheck 0); Query SelectModels;
             Print (CycleError 0 "connection refused")] /\
  drift_runs (snd (runDriftCheck world_database_down)) = [] /\
  alerts (snd (runDriftCheck world_database_down)) = [].
Proof.
  apply (runDriftCheck_registry_fails world_database_down
           "connection refused").
  reflexivity.
Defined.

(** *** Start-up probes *)

Lemma health_probes_app (xs ys : list Event) :
  health_probes (xs ++ ys) = (health_probes xs + health_probes ys)%nat.
Proof.
  induction xs as [|e xs IH]; [reflexivity|].
  destruct e; simpl; now rewrite IH.
Qed.

Lemma database_probes_app (xs ys : list Event) :
  database_probes (xs ++ ys)
  = (database_probes xs + database_probes ys)%nat.
Proof.
  induction xs as [|e xs IH]; [reflexivity|].
  destruct e as [| |[]| | | |]; simpl; now rewrite IH.
Qed.

Ltac run_attempt :=
  cbn [waitForServices_loop];
  unfold try_catch, axios_get_health, pool_query, console_log, sleep, effect,
    ret, bind;
  world_simpl.

Lemma loop_health_down (i : nat) (delayMs : Z) (w : World) :
  service_health w (clock w) = false ->
  waitForServices_loop (S i) delayMs w
  = waitForServices_loop i delayMs
      (advance_clock delayMs
         (emit (Sleep delayMs)
            (emit (Print (Retrying i)) (emit HttpGetHealth w)))).
Proof. intro Hh. run_attempt. now rewrite Hh. Qed.

Lemma loop_database_down (i : nat) (delayMs : Z) (w : World) (err : string) :
  service_health w (clock w) = true ->
  db_error w (clock w) SelectOne = Some err ->
  waitForServices_loop (S i) delayMs w
  = waitForServices_loop i delayMs
      (advance_clock delayMs
         (emit (Sleep delayMs)
            (emit (Print (Retrying i))
               (emit (Query SelectOne) (emit HttpGetHealth w))))).
Proof. intros Hh Hd. run_attempt. rewrite Hh. world_simpl. now rewrite Hd. Qed.

Lemma loop_ready (i : nat) (delayMs : Z) (w : World) :
  service_health w (clock w) = true ->
  db_error w (clock w) SelectOne = None ->
  waitForServices_loop (S i) delayMs w
  = (Ok tt,
     emit (Print ServicesReady)
       (emit (Query SelectOne) (emit HttpGetHealth w))).
Proof. intros Hh Hd. run_attempt. rewrite Hh. world_simpl. now rewrite Hd. Qed.

Ltac count_events :=
  world_simpl;
  rewrite ?health_probes_app, ?database_probes_app, ?sleeps_app;
  cbn [health_probes database_probes sleeps].

Lemma loop_probes (i : nat) :
  forall (delayMs : Z) (w : World),
  exists h q s : nat,
    health_probes (trace (snd (waitForServices_loop i delayMs w)))
      = (health_probes (trace w) + h)%nat /\
    database_probes (trace (snd (waitForServices_loop i delayMs w)))
      = (database_probes (trace w) + q)%nat /\
    sleeps (trace (snd (waitForServices_loop i delayMs w)))
      = sleeps (trace w) ++ repeat delayMs s /\
    (q <= h <= i)%nat /\
    drift_runs (snd (waitForServices_loop i delayMs w)) = drift_runs w /\
    alerts (snd (waitForServices_loop i delayMs w)) = alerts w /\
    match fst (waitForServices_loop i delayMs w) with
    | Ok _ => h = S s
    | Throw msg => msg = "Services unavailable" /\ h = i /\ s = i
    end.
Proof.
  induction i as [|i IH]; intros delayMs w.
  - exists 0%nat, 0%nat, 0%nat. cbn. rewrite app_nil_r.
    repeat split; lia.
  - destruct (service_health w (clock w)) eqn:Hh.
    + destruct (db_error w (clock w) SelectOne) as [err|] eqn:Hd.
      * rewrite (loop_database_down i delayMs w err Hh Hd).
        match goal with
        | |- context [waitForServices_loop i delayMs ?w1] =>
            destruct (IH delayMs w1)
              as (h & q & s & Hhp & Hqp & Hs & Hle & Hr & Ha & Hres)
        end.
        exists (S h), (S q), (S s).
        rewrite Hhp, Hqp, Hs, Hr, Ha. count_events.
        rewrite <- !app_assoc. cbn [app repeat].
        repeat split; try lia.
        destruct (fst _); [lia|]. destruct Hres as (-> & -> & ->).
        repeat split.
      * rewrite (loop_ready i delayMs w Hh Hd).
        exists 1%nat, 1%nat, 0%nat. cbn [fst snd]. count_events.
        cbn [repeat]. rewrite !app_nil_r. repeat split; lia.
    + rewrite (loop_health_down i delayMs w Hh).
      match goal with
      | |- context [waitForServices_loop i delayMs ?w1] =>
          destruct (IH delayMs w1)
            as (h & q & s & Hhp & Hqp & Hs & Hle & Hr & Ha & Hres)
      end.
      exists (S h), q, (S s).
      rewrite Hhp, Hqp, Hs, Hr, Ha. count_events.
      rewrite <- !app_assoc. cbn [app repeat].
      repeat split; try lia.
      destruct (fst _); [lia|]. destruct Hres as (-> & -> & ->).
      repeat split.
Qed.

(** X12. [waitForServices] makes at most [maxRetries] health probes, probes
    the database no more often than the health endpoint, sleeps [delayMs]
    once after every failed attempt and writes nothing to the tables.  It
    returns normally right after a successful attempt; the only error it
    throws is "Services unavailable", after exactly [maxRetries] probes and
    as many sleeps; with [maxRetries = 0] it throws without probing. *)
Theorem waitForServices_probes (maxRetries : nat) (delayMs : Z) (w : World) :
  exists h q s : nat,
    health_probes (trace (snd (waitForServices maxRetries delayMs w)))
      = (health_probes (trace w) + h)%nat /\
    database_probes (trace (snd (waitForServices maxRetries delayMs w)))
      = (database_probes (trace w) + q)%nat /\
    sleeps (trace (snd (waitForServices maxRetries delayMs w)))
      = sleeps (trace w) ++ repeat delayMs s /\
    (q <= h <= maxRetries)%nat /\
    drift_runs (snd (waitForServices maxRetries delayMs w)) = drift_runs w /\
    alerts (snd (waitForServices maxRetries delayMs w)) = alerts w /\
    match fst (waitForServices maxRetries delayMs w) with
    | Ok _ => h = S s
    | Throw msg =>
        msg = "Services unavailable" /\ h = maxRetries /\ s = maxRetries
    end.
Proof.
  rewrite waitForServices_unfold.
  destruct (loop_probes maxRetries delayMs (emit (Print WaitingForServices) w))
    as (h & q & s & Hhp & Hqp & Hs & Hle & Hr & Ha & Hres).
  exists h, q, s. rewrite Hhp, Hqp, Hs, Hr, Ha. count_events.
  rewrite !app_nil_r, !Nat.add_0_r. repeat split; try lia. exact Hres.
Qed.

Lemma runDriftCheck_returns (w : World) : fst (runDriftCheck w) = Ok tt.
Proof.
  rewrite runDriftCheck_unfold.
  destruct (db_error w (clock w) SelectModels); [reflexivity|].
  destruct (for_of (models w) checkModel _) as [[[]|e] w3]; reflexivity.
Qed.

(** X13. Once [waitForServices] has returned, [main] cannot fail: it runs one
    drift check at once, then registers [runDriftCheck] under the schedule
    [*/5 * * * *] and prints that the worker is running, whatever happened
    in that first check; the process does not exit. *)
Theorem main_after_startup (w w1 : World) :
  waitForServices default_maxRetries default_delayMs w = (Ok tt, w1) ->
  main w
  = (Ok tt,
     emit (Print (WorkerRunning "*/5 * * * *"))
       (emit (CronScheduled "*/5 * * * *") (snd (runDriftCheck w1)))) /\
  run_main w
  = emit (Print (WorkerRunning "*/5 * * * *"))
      (emit (CronScheduled "*/5 * * * *") (snd (runDriftCheck w1))).
Proof.
  intro E.
  assert (main w
          = (Ok tt,
             emit (Print (WorkerRunning "*/5 * * * *"))
               (emit (CronScheduled "*/5 * * * *")
                  (snd (runDriftCheck w1))))) as Em.
  { unfold main, bind. rewrite E.
    pose proof (runDriftCheck_returns w1) as Hr.
    destruct (runDriftCheck w1) as [[[]|e] w2]; [reflexivity|discriminate]. }
  split; [exact Em|]. unfold run_main. now rewrite Em.
Qed.

Lemma main_after_startup_witness :
  checked_models (trace (run_main world_second_fails)) = [1; 2] /\
  exists events : list Event,
    trace (run_main world_second_fails)
      = events ++ [CronScheduled "*/5 * * * *";
                   Print (WorkerRunning "*/5 * * * *")].
Proof.
  destruct (main_after_startup world_second_fails
              (snd (waitForServices default_maxRetries default_delayMs
                      world_second_fails))) as [_ Hr].
  - reflexivity.
  - rewrite Hr. split; [reflexivity|].
    eexists. cbn [emit trace]. rewrite <- app_assoc. reflexivity.
Defined.

End WorkerExtra.

(** * Properties of GET /drift/history *)

Module ApiListsFacts.

Import Api.
Import ApiLists.
Import Scenarios.
Local Open Scope string_scope.
Local Open Scope list_scope.
Local Open Scope Z_scope.

Lemma firstn_subset (A : Type) (n : nat) (rows : list A) (x : A) :
  In x (firstn n rows) -> In x rows.
Proof.
  revert rows. induction n as [|n IH]; intros [|y rows]; simpl; try tauto.
  intros [->|Hx]; [now left | right; now apply IH].
Qed.

Lemma skipn_subset (A : Type) (n : nat) (rows : list A) (x : A) :
  In x (skipn n rows) -> In x rows.
Proof.
  revert rows. induction n as [|n IH]; intros [|y rows]; simpl; try tauto.
  intro Hx. right. now apply IH.
Qed.

Section OrderBy.
Variable A : Type.
Variable key : A -> Z.

Lemma insert_desc_in (r x : A) (rows : list A) :
  In x (insert_desc key r rows) <-> x = r \/ In x rows.
Proof.
  induction rows as [|y rows IH]; simpl.
  - intuition.
  - destruct (key y <=? key r); simpl; [intuition|].
    rewrite IH. intuition.
Qed.

Lemma order_desc_in (x : A) (rows : list A) :
  In x (order_desc key rows) <-> In x rows.
Proof.
  induction rows as [|y rows IH]; simpl; [tauto|].
  rewrite insert_desc_in, IH. intuition.
Qed.

Lemma insert_desc_length (r : A) (rows : list A) :
  length (insert_desc key r rows) = S (length rows).
Proof.
  induction rows as [|y rows IH]; simpl; [reflexivity|].
  destruct (key y <=? key r); simpl; [reflexivity | now rewrite IH].
Qed.

Lemma order_desc_length (rows : list A) :
  length (order_desc key rows) = length rows.
Proof.
  induction rows as [|y rows IH]; simpl; [reflexivity|].
  now rewrite insert_desc_length, IH.
Qed.

Lemma insert_desc_descending (r : A) (rows : list A) :
  descending key rows -> descending key (insert_desc key r rows).
Proof.
  induction rows as [|y rows IH]; simpl.
  - intros _. split; [intros r' []|exact I].
  - intros [Hy Hrest]. destruct (key y <=? key r) eqn:Hc.
    + apply Z.leb_le in Hc. simpl. split; [|split; assumption].
      intros r' [<-|Hr']; [assumption|]. specialize (Hy r' Hr'). lia.
    + apply Z.leb_gt in Hc. simpl. split; [|now apply IH].
      intros r' Hr'. apply insert_desc_in in Hr' as [->|Hr']; [lia|].
      now apply Hy.
Qed.

Lemma order_desc_descending (rows : list A) :
  descending key (order_desc key rows).
Proof.
  induction rows as [|y rows IH]; simpl; [exact I|].
  now apply insert_desc_descending.
Qed.

(** In a descending list everything past the first [n] entries is at most
    every one of the first [n]. *)
Lemma descending_firstn (n : nat) (rows : list A) :
  descending key rows ->
  descending key (firstn n rows) /\
  forall r r', In r (skipn n rows) -> In r' (firstn n rows) ->
               key r <= key r'.
Proof.
  revert rows. induction n as [|n IH]; intros rows Hd.
  - simpl. split; [exact I|]. intros r r' _ [].
  - destruct rows as [|x rows]; simpl.
    + split; [exact I|]. intros r r' [].
    + destruct Hd as [Hx Hd]. destruct (IH rows Hd) as [Hf Hs].
      split.
      * split; [|exact Hf]. intros r' Hr'. apply Hx.
        now apply (firstn_subset _ n).
      * intros r r' Hr [<-|Hr'].
        -- apply Hx. now apply (skipn_subset _ n).
        -- now apply Hs.
Qed.

End OrderBy.

Lemma ascending_app (xs ys : list DriftRun) :
  ascending xs -> ascending ys ->
  (forall x y, In x xs -> In y ys -> created_at x <= created_at y) ->
  ascending (xs ++ ys).
Proof.
  induction xs as [|x xs IH]; simpl; intros Hx Hy Hxy; [assumption|].
  destruct Hx as [Hx Hxs]. split.
  - intros r' Hr'. apply in_app_or in Hr' as [Hr'|Hr'].
    + now apply Hx.
    + apply Hxy; [now left | assumption].
  - apply IH; trivial. intros a b Ha Hb. apply Hxy; [now right | assumption].
Qed.

Lemma ascending_rev (rows : list DriftRun) :
  descending created_at rows -> ascending (rev rows).
Proof.
  induction rows as [|x rows IH]; simpl; [trivial|].
  intros [Hx Hd]. apply ascending_app.
  - now apply IH.
  - simpl. split; [intros r' []|exact I].
  - intros a b Ha [<-|[]]. apply Hx. now apply in_rev.
Qed.

(** The rows the history query selects before [LIMIT]. *)
Lemma history_unfold (db : Database) (qm ql : option string) (m n : Z) :
  query_error db = None ->
  integer_of_param (integer_of_text db) (param_or qm DEFAULT_MODEL_ID) = Ok m ->
  integer_of_param (integer_of_text db) (param_or ql 50) = Ok n ->
  0 <= n ->
  get_drift_history db qm ql
  = Rows (rev (firstn (Z.to_nat n)
                 (order_desc created_at
                    (filter (fun r => model_id r =? m) (drift_runs db))))).
Proof.
  intros Hq Hm Hn Hpos.
  unfold get_drift_history, query_history, limit_rows. cbv zeta.
  rewrite Hq, Hm, Hn.
  destruct (n <? 0) eqn:Hneg; [apply Z.ltb_lt in Hneg; lia | reflexivity].
Qed.

(** X14. When the query succeeds for model [m] with a limit [n >= 0],
    [GET /drift/history] answers with stored runs of model [m] only, oldest
    first, at most [n] of them and as many as there are if fewer; they are
    the most recent ones: a run of [m] that is left out is no newer than any
    run that is returned. *)
Theorem drift_history_rows (db : Database) (qm ql : option string) (m n : Z) :
  query_error db = None ->
  integer_of_param (integer_of_text db) (param_or qm DEFAULT_MODEL_ID) = Ok m ->
  integer_of_param (integer_of_text db) (param_or ql 50) = Ok n ->
  0 <= n ->
  exists rows : list DriftRun,
    get_drift_history db qm ql = Rows rows /\
    ascending rows /\
    length rows
      = Nat.min (Z.to_nat n)
          (length (filter (fun r => model_id r =? m) (drift_runs db))) /\
    (forall r, In r rows -> In r (drift_runs db) /\ model_id r = m) /\
    (forall r r',
       In r (drift_runs db) -> model_id r = m -> In r' rows ->
       In r rows \/ created_at r <= created_at r').
Proof.
  intros Hq Hm Hn Hpos.
  rewrite (history_unfold db qm ql m n Hq Hm Hn Hpos).
  set (selected := filter (fun r => model_id r =? m) (drift_runs db)).
  set (sorted := order_desc created_at selected).
  exists (rev (firstn (Z.to_nat n) sorted)).
  destruct (descending_firstn _ created_at (Z.to_nat n) sorted
              (order_desc_descending _ created_at selected)) as [Hd Hs].
  split; [reflexivity|]. split; [now apply ascending_rev|]. split; [|split].
  - rewrite length_rev, length_firstn. unfold sorted.
    now rewrite order_desc_length.
  - intros r Hr. apply in_rev in Hr.
    apply (firstn_subset _ (Z.to_nat n)) in Hr. unfold sorted in Hr.
    rewrite (order_desc_in _ created_at) in Hr. unfold selected in Hr.
    apply filter_In in Hr as [Hin Hr].
    split; [assumption | now apply Z.eqb_eq].
  - intros r r' Hin Hmr Hr'.
    assert (In r sorted) as Hsorted.
    { unfold sorted, selected.
      apply (order_desc_in _ created_at), filter_In. split; [assumption|].
      now apply Z.eqb_eq. }
    rewrite <- (firstn_skipn (Z.to_nat n) sorted) in Hsorted.
    apply in_app_or in Hsorted as [Hf|Hk].
    + left. now apply in_rev in Hf.
    + right. apply Hs; [assumption | now apply in_rev].
Qed.

Lemma drift_history_rows_witness :
  exists rows : list DriftRun,
    get_drift_history database_example (Some "1") (Some "1") = Rows rows /\
    ascending rows /\
    length rows = 1%nat /\
    (forall r, In r rows ->
               In r (drift_runs database_example) /\ model_id r = 1).
Proof.
  destruct (drift_history_rows database_example (Some "1") (Some "1") 1 1)
    as (rows & E & Ha & Hl & Hin & _).
  - reflexivity.
  - reflexivity.
  - reflexivity.
  - lia.
  - exists rows. repeat split; trivial; now apply Hin.
Defined.

(** Rows with pairwise different keys are told apart by their key. *)
Lemma same_key_same_row (A : Type) (key : A -> Z) (rows : list A)
  (a b : A) :
  NoDup (map key rows) -> In a rows -> In b rows -> key a = key b -> a = b.
Proof.
  induction rows as [|r rows IH]; [contradiction|].
  cbn [map]. intros Hnd Ha Hb Hk.
  apply NoDup_cons_iff in Hnd as [Hr Hnd].
  destruct Ha as [->|Ha], Hb as [->|Hb]; try reflexivity.
  - exfalso. apply Hr. rewrite Hk. now apply in_map.
  - exfalso. apply Hr. rewrite <- Hk. now apply in_map.
  - now apply IH.
Qed.

(** X15. [GET /drift/latest] and [GET /drift/history] agree on the newest
    run: for the same model and a history limit of at least 1, the row
    behind [/drift/latest] carries the timestamp of the last row of the
    history, and there is no such row when the history is empty.  When no
    two runs of the model share a timestamp it is that very row; among runs
    with equal timestamps the database fixes no order, and nothing is stated
    about which of them either endpoint shows. *)
Theorem latest_is_last_of_history (db : Database) (qm ql : option string)
  (m n : Z) :
  query_error db = None ->
  requested_model db qm = Some m ->
  integer_of_param (integer_of_text db) (param_or qm DEFAULT_MODEL_ID) = Ok m ->
  integer_of_param (integer_of_text db) (param_or ql 50) = Ok n ->
  1 <= n ->
  exists rows latest : list DriftRun,
    get_drift_history db qm ql = Rows rows /\
    query db (modelId_of qm) = Ok latest /\
    map created_at latest = map created_at (firstn 1 (rev rows)) /\
    (NoDup (map created_at
              (filter (fun r => model_id r =? m) (drift_runs db))) ->
     latest = firstn 1 (rev rows)).
Proof.
  intros Hq Hreq Hm Hn Hpos.
  rewrite (history_unfold db qm ql m n Hq Hm Hn ltac:(lia)).
  assert (query db (modelId_of qm) = Ok (select_latest db m)) as ->.
  { unfold query, requested_model in *. rewrite Hq.
    destruct (modelId_of qm) as [s|k].
    - now rewrite Hreq.
    - now injection Hreq as ->. }
  do 2 eexists. split; [reflexivity|]. split; [reflexivity|].
  rewrite rev_involutive. unfold select_latest.
  set (selected := filter (fun r => model_id r =? m) (drift_runs db)).
  pose proof (order_desc_descending _ created_at selected) as Hsorted.
  pose proof (fun r => order_desc_in _ created_at r selected) as Hin.
  destruct (Z.to_nat n) as [|k] eqn:Hk; [lia|].
  destruct (order_desc created_at selected) as [|x sorted].
  - assert (selected = []) as ->.
    { destruct selected as [|r rest]; [reflexivity|].
      exfalso. apply (Hin r). now left. }
    split; [reflexivity | intros _; reflexivity].
  - assert (Hx : In x selected) by (apply Hin; now left).
    destruct (newest selected) as [l|] eqn:Hl.
    + destruct (ApiFacts.newest_is_greatest selected l Hl) as [Hmem Hmax].
      assert (Heq : created_at l = created_at x).
      { apply Z.le_antisymm; [|now apply Hmax].
        apply Hin in Hmem. destruct Hmem as [->|Hmem]; [lia|].
        cbn [descending] in Hsorted. now apply Hsorted. }
      cbn [firstn map]. split; [now rewrite Heq|].
      intro Hnd. f_equal.
      now apply (same_key_same_row _ created_at selected).
    + apply ApiFacts.newest_none in Hl. rewrite Hl in Hx. contradiction.
Qed.

Lemma latest_is_last_of_history_witness :
  exists rows latest : list DriftRun,
    get_drift_history database_example (Some "1") None = Rows rows /\
    query database_example (modelId_of (Some "1")) = Ok latest /\
    map created_at latest = map created_at (firstn 1 (rev rows)) /\
    latest = firstn 1 (rev rows).
Proof.
  destruct (latest_is_last_of_history database_example (Some "1") None 1 50)
    as (rows & latest & Er & El & Et & Hsame); try reflexivity; [lia|].
  exists rows, latest. repeat (split; [assumption|]).
  apply Hsame. vm_compute. repeat constructor; simpl; intuition discriminate.
Defined.

(** X16. The two endpoints treat an empty [model_id] parameter differently.
    [GET /drift/latest] takes it as absent and answers for the default
    model with status 200; [GET /drift/history] binds the empty string, so a
    database that does not read it as an integer makes the request fail
    with status 500. *)
Theorem empty_model_id_parameter (db : Database) (ql : option string) :
  query_error db = None ->
  integer_of_text db "" = None ->
  get_drift_latest db (Some "") = get_drift_latest db None /\
  http_status (get_drift_latest db (Some "")) = 200 /\
  exists error : string,
    get_drift_history db (Some "") ql = Failed 500 error.
Proof.
  intros Hq He. split; [reflexivity|]. split.
  - unfold get_drift_latest, query. cbn. rewrite Hq.
    destruct (select_latest db DEFAULT_MODEL_ID); reflexivity.
  - unfold get_drift_history, query_history. cbn. rewrite Hq, He.
    now eexists.
Qed.

Lemma empty_model_id_parameter_witness :
  get_drift_latest database_example (Some "")
    = get_drift_latest database_example None /\
  http_status (get_drift_latest database_example (Some "")) = 200 /\
  exists error : string,
    get_drift_history database_example (Some "") None = Failed 500 error.
Proof.
  apply (empty_model_id_parameter database_example None); reflexivity.
Defined.

(** *** GET /alerts *)

Lemma in_alerts_join_models (store : AlertStore) (row : AlertWithModel) :
  In row (alerts_join_models store) <->
  In (alert row) (alerts_table store) /\
  exists m : ModelRow,
    In m (models_table store) /\
    alert_model_id (alert row) = Some (model_row_id m) /\
    model_name row = model_row_name m.
Proof.
  unfold alerts_join_models. rewrite in_flat_map. split.
  - intros (a & Ha & Hrow). apply in_map_iff in Hrow as (m & <- & Hm).
    apply filter_In in Hm as [Hm Hj]. cbn. split; [assumption|].
    exists m. split; [assumption|]. split; [|reflexivity].
    unfold joins in Hj. destruct (alert_model_id a) as [k|]; [|discriminate].
    apply Z.eqb_eq in Hj. now subst.
  - intros (Ha & m & Hm & Hid & Hname). exists (alert row).
    split; [assumption|]. apply in_map_iff. exists m. split.
    + destruct row as [a nm]. cbn in *. now subst.
    + apply filter_In. split; [assumption|]. unfold joins. rewrite Hid.
      apply Z.eqb_refl.
Qed.

Lemma alerts_unfold (store : AlertStore) (where_model : option Param)
  (limit : Param) (rows : list AlertWithModel) (n : Z) :
  store_query_error store = None ->
  match where_model with
  | None => Ok (alerts_join_models store)
  | Some p =>
      match integer_of_param (store_integer_of_text store) p with
      | Throw err => Throw err
      | Ok m => Ok (filter (of_model m) (alerts_join_models store))
      end
  end = Ok rows ->
  integer_of_param (store_integer_of_text store) limit = Ok n ->
  0 <= n ->
  query_alerts store where_model limit
  = Ok (firstn (Z.to_nat n) (newest_first rows)).
Proof.
  intros Hq Hsel Hn Hpos. unfold query_alerts, limit_rows. cbv zeta.
  rewrite Hq, Hsel, Hn.
  destruct (n <? 0) eqn:Hneg; [apply Z.ltb_lt in Hneg; lia | reflexivity].
Qed.

(** X17. With a non-empty [model_id] that the database reads as [m] and a
    limit [n >= 0], [GET /alerts] answers with at most [n] rows, newest
    first; every row is a stored alert of model [m] together with the name
    of the registered model [m]. *)
Theorem alerts_of_model (store : AlertStore) (s : string)
  (ql : option string) (m n : Z) :
  store_query_error store = None ->
  s <> ""%string ->
  store_integer_of_text store s = Some m ->
  integer_of_param (store_integer_of_text store) (param_or ql 20) = Ok n ->
  0 <= n ->
  exists rows : list AlertWithModel,
    get_alerts store (Some s) ql = Rows rows /\
    descending (fun row => alert_created_at (alert row)) rows /\
    (length rows <= Z.to_nat n)%nat /\
    forall row, In row rows ->
      In (alert row) (alerts_table store) /\
      alert_model_id (alert row) = Some m /\
      exists mr : ModelRow,
        In mr (models_table store) /\
        model_row_id mr = m /\
        model_name row = model_row_name mr.
Proof.
  intros Hq Hs Hm Hn Hpos.
  apply String.eqb_neq in Hs.
  unfold get_alerts. cbv zeta. rewrite Hs.
  rewrite (alerts_unfold store (Some (Text s)) (param_or ql 20)
             (filter (of_model m) (alerts_join_models store)) n Hq);
    [| cbn; now rewrite Hm | assumption | assumption].
  eexists. split; [reflexivity|].
  split; [|split].
  - apply descending_firstn. apply order_desc_descending.
  - rewrite length_firstn. lia.
  - intros row Hrow. apply firstn_subset in Hrow.
    unfold newest_first in Hrow. rewrite order_desc_in in Hrow.
    apply filter_In in Hrow as [Hj Hof].
    apply in_alerts_join_models in Hj as (Ha & mr & Hmr & Hid & Hname).
    unfold of_model in Hof. rewrite Hid in Hof. apply Z.eqb_eq in Hof.
    split; [assumption|]. split; [now rewrite Hid, Hof|].
    exists mr. repeat split; assumption.
Qed.

(** X18. Without a [model_id] (absent or empty) and with a limit [n >= 0],
    [GET /alerts] answers with at most [n] rows, newest first, drawn from
    the alerts of all registered models, each with the name of its model; an
    alert whose [model_id] is NULL or names no registered model never
    appears; and when [n] is at least the number of joined rows, every alert
    of a registered model appears. *)
Theorem alerts_of_all_models (store : AlertStore) (qm ql : option string)
  (n : Z) :
  store_query_error store = None ->
  qm = None \/ qm = Some ""%string ->
  integer_of_param (store_integer_of_text store) (param_or ql 20) = Ok n ->
  0 <= n ->
  exists rows : list AlertWithModel,
    get_alerts store qm ql = Rows rows /\
    descending (fun row => alert_created_at (alert row)) rows /\
    (length rows <= Z.to_nat n)%nat /\
    (forall row, In row rows ->
       In (alert row) (alerts_table store) /\
       exists mr : ModelRow,
         In mr (models_table store) /\
         alert_model_id (alert row) = Some (model_row_id mr) /\
         model_name row = model_row_name mr) /\
    ((length (alerts_join_models store) <= Z.to_nat n)%nat ->
     forall (a : Alert) (mr : ModelRow),
       In a (alerts_table store) -> In mr (models_table store) ->
       alert_model_id a = Some (model_row_id mr) ->
       In {| alert := a; model_name := model_row_name mr |} rows).
Proof.
  intros Hq Hqm Hn Hpos.
  assert (get_alerts store qm ql
          = Rows (firstn (Z.to_nat n)
                    (newest_first (alerts_join_models store)))) as E.
  { unfold get_alerts. cbv zeta.
    destruct Hqm as [-> | ->]; cbn [String.eqb];
      now rewrite (alerts_unfold store None (param_or ql 20)
                     (alerts_join_models store) n Hq eq_refl Hn Hpos). }
  rewrite E. eexists. split; [reflexivity|].
  split; [|split; [|split]].
  - apply descending_firstn. apply order_desc_descending.
  - rewrite length_firstn. lia.
  - intros row Hrow. apply firstn_subset in Hrow.
    unfold newest_first in Hrow. rewrite order_desc_in in Hrow.
    now apply in_alerts_join_models.
  - intros Hall a mr Ha Hmr Hid.
    rewrite firstn_all2
      by (unfold newest_first; now rewrite order_desc_length).
    unfold newest_first. rewrite order_desc_in.
    apply in_alerts_join_models. cbn. split; [assumption|].
    exists mr. repeat split; assumption.
Qed.

Lemma alerts_of_model_witness :
  exists rows : list AlertWithModel,
    get_alerts alert_store_example (Some "2") None = Rows rows /\
    forall row, In row rows ->
      alert_model_id (alert row) = Some 2 /\
      exists mr : ModelRow,
        In mr (models_table alert_store_example) /\
        model_row_id mr = 2 /\
        model_name row = model_row_name mr.
Proof.
  destruct (alerts_of_model alert_store_example "2" None 2 20)
    as (rows & E & _ & _ & Hrows); try reflexivity.
  - discriminate.
  - lia.
  - exists rows. split; [exact E|]. intros row Hrow.
    destruct (Hrows row Hrow) as (_ & Hm & Hmr). split; assumption.
Defined.

Lemma alerts_of_all_models_witness :
  exists rows : list AlertWithModel,
    get_alerts alert_store_example (Some "") None = Rows rows /\
    (length rows <= 20)%nat /\
    In {| alert := alert_at 10 (Some 1); model_name := "fraud-detector" |}
      rows /\
    In {| alert := alert_at 20 (Some 2); model_name := "churn" |} rows.
Proof.
  destruct (alerts_of_all_models alert_store_example (Some "") None 20)
    as (rows & E & _ & Hlen & _ & Hall); try reflexivity.
  - now right.
  - lia.
  - exists rows. split; [exact E|]. split; [exact Hlen|]. split.
    + apply (Hall ltac:(cbn; lia) (alert_at 10 (Some 1))
               {| model_row_id := 1; model_row_name := "fraud-detector" |});
        cbn; auto.
    + apply (Hall ltac:(cbn; lia) (alert_at 20 (Some 2))
               {| model_row_id := 2; model_row_name := "churn" |});
        cbn; auto.
Defined.

End ApiListsFacts.

(** * Properties of POST /api/drift/calculate *)

Module DriftRouteFacts.

Import Metrics.
Import MetricsFacts.
Import DriftRoute.
Local Open Scope string_scope.
Local Open Scope list_scope.
Local Open Scope R_scope.

Lemma well_formed_passes (server : Server) (req : CalculateBody)
  (b c : list R) :
  baseline req = NumberArray b -> current req = NumberArray c ->
  length b = length c ->
  post_calculate server req =
    match compute_and_store server req with
    | Ok (metrics, row) =>
        ({| status := 200; body := SuccessBody metrics row |},
         {| drift_metrics := drift_metrics server ++ [row];
            insert_error := insert_error server;
            console := console server |})
    | Throw err =>
        ({| status := 500;
            body := ErrorBody "Failed to calculate drift metrics" |},
         {| drift_metrics := drift_metrics server;
            insert_error := insert_error server;
            console := console server ++ [err] |})
    end.
Proof.
  intros Hb Hc Hl. unfold post_calculate. rewrite Hb, Hc. cbn.
  now rewrite Hl, Nat.eqb_refl.
Qed.

Lemma status_of_well_formed (server : Server) (req : CalculateBody) :
  well_formed req ->
  status (fst (post_calculate server req)) = 200%Z \/
  status (fst (post_calculate server req)) = 500%Z.
Proof.
  intros (b & c & Hb & Hc & Hl).
  rewrite (well_formed_passes server req b c Hb Hc Hl).
  destruct (compute_and_store server req) as [[metrics row]|err];
    [now left | now right].
Qed.

(** X19. The handler answers 400 exactly when [baseline] and [current] are
    not two arrays of the same length, and then neither stores nor logs
    anything. *)
Theorem calculate_rejects (server : Server) (req : CalculateBody) :
  (status (fst (post_calculate server req)) = 400%Z <-> ~ well_formed req) /\
  (status (fst (post_calculate server req)) = 400%Z ->
   snd (post_calculate server req) = server).
Proof.
  split.
  - split.
    + intros H400 Hwf.
      destruct (status_of_well_formed server req Hwf) as [H|H];
        rewrite H in H400; discriminate.
    + intro Hn. unfold post_calculate.
      destruct (baseline req) as [|tb|b] eqn:Hb;
        destruct (current req) as [|tc|c] eqn:Hc; cbn;
        try reflexivity;
        try (destruct tb; reflexivity); try (destruct tc; reflexivity);
        try (destruct tb, tc; reflexivity).
      destruct (Nat.eqb (length b) (length c)) eqn:Hl; [|reflexivity].
      exfalso. apply Hn. exists b, c. repeat split; trivial.
      now apply Nat.eqb_eq.
  - unfold post_calculate.
    destruct (_ || _ || _ || _)%bool; [reflexivity|].
    destruct (negb _); [reflexivity|].
    destruct (compute_and_store server req) as [[metrics row]|err];
      discriminate.
Qed.


End DriftRouteFacts.

(** * Properties of POST /api/drift/calculate on binary64 numbers *)

Module DriftRoute64Facts.

Import PrimFloat.
Import Metrics64.
Import Metrics64Facts.
Import DriftRoute64.
Local Open Scope float_scope.

Section WithLog.
Variable Math_log : float -> float.

Lemma arrays_pass (server : Server) (req : CalculateBody)
  (b c : list float) :
  baseline req = NumberArray b -> current req = NumberArray c ->
  length b = length c ->
  post_calculate Math_log server req =
    match compute_and_store Math_log server req with
    | Ok (metrics, row) =>
        ({| status := 200; body := SuccessBody metrics row |},
         {| drift_metrics := drift_metrics server ++ [row];
            insert_error := insert_error server;
            console := console server |})
    | Throw err =>
        ({| status := 500;
            body := ErrorBody "Failed to calculate drift metrics" |},
         {| drift_metrics := drift_metrics server;
            insert_error := insert_error server;
            console := console server ++ [err] |})
    end.
Proof.
  intros Hb Hc Hl. unfold post_calculate. rewrite Hb, Hc. cbn.
  now rewrite Hl, Nat.eqb_refl.
Qed.

(** X20. For two arrays of the same length of which one has a running
    binary64 sum of zero, two empty arrays included, the handler answers 500
    with "Failed to calculate drift metrics", stores nothing and logs
    "Distributions cannot sum to zero". *)
Theorem calculate_refuses_zero_sum (server : Server) (req : CalculateBody)
  (b c : list float) :
  baseline req = NumberArray b ->
  current req = NumberArray c ->
  length b = length c ->
  (reduce_sum b =? 0) || (reduce_sum c =? 0) = true ->
  post_calculate Math_log server req
  = ({| status := 500;
        body := ErrorBody "Failed to calculate drift metrics" |},
     {| drift_metrics := drift_metrics server;
        insert_error := insert_error server;
        console :=
          console server ++ ["Distributions cannot sum to zero"%string] |}).
Proof.
  intros Hb Hc Hl Hz.
  rewrite (arrays_pass server req b c Hb Hc Hl).
  unfold compute_and_store. rewrite Hb, Hc. cbn [elements].
  destruct (cosine_returns b c Hl) as [sim ->].
  now rewrite (kl_outcome Math_log b c Hl), Hz.
Qed.

(** X21. For two arrays of the same length whose running binary64 sums are
    not zero, when the database accepts the row, the handler answers 200 and
    appends exactly one row: it holds the model id (or "default" when none or
    an empty one was sent), the two arrays, the KL divergence and the cosine
    distance [1 - cosineSimilarity] as the metric functions computed them.
    Nothing is logged. *)
Theorem calculate_stores_row (server : Server) (req : CalculateBody)
  (b c : list float) :
  baseline req = NumberArray b ->
  current req = NumberArray c ->
  length b = length c ->
  (reduce_sum b =? 0) || (reduce_sum c =? 0) = false ->
  (forall row, insert_error server row = None) ->
  exists (sim kl : float) (row : MetricRow),
    calculateCosineSimilarity b c = Ok sim /\
    calculateKLDivergence Math_log b c = Ok kl /\
    fst (post_calculate Math_log server req)
      = {| status := 200;
           body := SuccessBody {| cosineDistance := 1 - sim;
                                  cosineSimilarity := sim;
                                  klDivergence := kl |} row |} /\
    drift_metrics (snd (post_calculate Math_log server req))
      = drift_metrics server ++ [row] /\
    console (snd (post_calculate Math_log server req)) = console server /\
    row_model_id row = DriftRoute.model_id_or_default (modelId req) /\
    row_baseline_distribution row = b /\
    row_current_distribution row = c /\
    row_kl_divergence row = kl /\
    row_cosine_distance row = 1 - sim.
Proof.
  intros Hb Hc Hl Hs Hdb.
  destruct (cosine_returns b c Hl) as [sim Es].
  rewrite (arrays_pass server req b c Hb Hc Hl).
  unfold compute_and_store. rewrite Hb, Hc. cbn [elements].
  rewrite Es, (kl_outcome Math_log b c Hl), Hs, Hdb. cbv zeta.
  do 3 eexists.
  cbn [fst snd drift_metrics console row_model_id
    row_baseline_distribution row_current_distribution row_kl_divergence
    row_cosine_distance].
  repeat (split; [reflexivity|]). reflexivity.
Qed.

(** X30. For two arrays of the same length without negative or NaN
    entries, each with an entry above zero, the handler answers 200,
    appends one row and logs nothing whenever the database accepts the
    row, whatever numbers the metric functions compute. *)
Theorem calculate_accepts_distributions (server : Server)
  (req : CalculateBody) (b c : list float) :
  baseline req = NumberArray b ->
  current req = NumberArray c ->
  length b = length c ->
  nonnegative b = true -> has_positive b = true ->
  nonnegative c = true -> has_positive c = true ->
  (forall row, insert_error server row = None) ->
  status (fst (post_calculate Math_log server req)) = 200%Z /\
  console (snd (post_calculate Math_log server req)) = console server /\
  exists row : MetricRow,
    drift_metrics (snd (post_calculate Math_log server req))
    = drift_metrics server ++ [row].
Proof.
  intros Hb Hc Hl Nb Pb Nc Pc Hdb.
  destruct (cosine_returns b c Hl) as [sim Es].
  rewrite (arrays_pass server req b c Hb Hc Hl).
  unfold compute_and_store. rewrite Hb, Hc. cbn [elements].
  rewrite Es, (kl_outcome Math_log b c Hl).
  rewrite (zero_sum_test b Nb), (zero_sum_test c Nc), Pb, Pc.
  cbn [negb orb]. cbv zeta. rewrite Hdb.
  cbn [fst snd status console drift_metrics].
  split; [reflexivity|]. split; [reflexivity|]. now eexists.
Qed.

End WithLog.

Lemma calculate_refuses_zero_sum_witness :
  post_calculate Fdlibm.log fresh_server
    {| baseline := NumberArray [1; 0x1p-60; -1];
       current := NumberArray [1; 2; 3];
       modelId := None |}
  = ({| status := 500;
        body := ErrorBody "Failed to calculate drift metrics" |},
     {| drift_metrics := [];
        insert_error := insert_error fresh_server;
        console := [] ++ ["Distributions cannot sum to zero"%string] |}).
Proof.
  apply (calculate_refuses_zero_sum Fdlibm.log fresh_server _
           [1; 0x1p-60; -1] [1; 2; 3]); reflexivity.
Defined.

Lemma calculate_stores_row_witness :
  exists row : MetricRow,
    fst (post_calculate Fdlibm.log fresh_server
           {| baseline := NumberArray [1; 5]; current := NumberArray [1; 5];
              modelId := None |})
      = {| status := 200;
           body := SuccessBody
                     {| cosineDistance := -2.2204460492503131e-16;
                        cosineSimilarity := 1.0000000000000002;
                        klDivergence := 0 |} row |} /\
    row_model_id row = "default"%string /\
    row_cosine_distance row = -2.2204460492503131e-16.
Proof.
  destruct (calculate_stores_row Fdlibm.log fresh_server
              {| baseline := NumberArray [1; 5];
                 current := NumberArray [1; 5];
                 modelId := None |} [1; 5] [1; 5])
    as (sim & kl & row & Es & Ek & E & _ & _ & Hm & _ & _ & _ & Hd);
    try reflexivity.
  exists row.
  vm_compute in Es. injection Es as <-.
  vm_compute in Ek. injection Ek as <-.
  split; [exact E|]. split; [exact Hm | exact Hd].
Defined.

Lemma calculate_accepts_distributions_witness :
  status (fst (post_calculate Fdlibm.log fresh_server
                 {| baseline := NumberArray [1e200; 0];
                    current := NumberArray [1e200; 1];
                    modelId := None |})) = 200%Z.
Proof.
  apply (calculate_accepts_distributions Fdlibm.log fresh_server _
           [1e200; 0] [1e200; 1]); reflexivity.
Defined.

End DriftRoute64Facts.

(** * Properties of the sample distributions *)

Module IngestionFacts.

Import Metrics.
Import MetricsFacts.
Import Ingestion.
Local Open Scope R_scope.

Lemma base_range (size i : nat) : (0 < size)%nat -> 0 < base size i <= 1.
Proof.
  intro Hs. unfold base. split; [apply exp_pos|].
  rewrite <- exp_0.
  assert (0 < INR size) as Hpos by (apply lt_0_INR; assumption).
  assert (0 < 2 * (INR size / 4) ^ 2) as Hden
    by (apply Rmult_lt_0_compat; [lra | apply pow_lt; lra]).
  assert (0 <= (INR i - INR size / 2) ^ 2) as Hnum by apply pow2_ge_0.
  assert (- (INR i - INR size / 2) ^ 2 / (2 * (INR size / 4) ^ 2) <= 0) as Hle.
  { unfold Rdiv. pose proof (Rinv_0_lt_compat _ Hden). nra. }
  destruct Hle as [Hlt|Heq].
  - left. now apply exp_increasing.
  - rewrite Heq. lra.
Qed.

Lemma sample_entry (random : nat -> R) (size : nat) (drift : R) (x : R) :
  In x (generateSampleDistribution random size drift) <->
  exists i : nat,
    (i < size)%nat /\
    x = Rmax 0 (base size i + drift * (random i - 0.5) * 2).
Proof.
  unfold generateSampleDistribution. rewrite in_map_iff. split.
  - intros (i & <- & Hi). apply in_seq in Hi. exists i.
    split; [lia | reflexivity].
  - intros (i & Hi & ->). exists i. split; [reflexivity|].
    apply in_seq. lia.
Qed.

Lemma sample_undrifted_range (random : nat -> R) (size : nat) :
  Forall (fun x => 0 < x <= 1) (generateSampleDistribution random size 0).
Proof.
  apply Forall_forall. intros x Hx.
  apply sample_entry in Hx as (i & Hi & ->).
  pose proof (base_range size i ltac:(lia)) as Hb.
  rewrite Rmax_right by lra. lra.
Qed.

Lemma sample_undrifted_sum (random : nat -> R) (size : nat) :
  (0 < size)%nat ->
  0 < reduce_sum (generateSampleDistribution random size 0).
Proof.
  intro Hs. pose proof (sample_undrifted_range random size) as Hzero.
  destruct (generateSampleDistribution random size 0) as [|x rest] eqn:E.
  - apply (f_equal (@length R)) in E.
    unfold generateSampleDistribution in E.
    rewrite length_map, length_seq in E. simpl in E. lia.
  - rewrite reduce_sum_cons. inversion Hzero as [|? ? Hx Hrest]; subst.
    assert (0 <= reduce_sum rest).
    { apply reduce_sum_nonneg.
      eapply Forall_impl; [|exact Hrest]. intros z Hz. cbn in Hz. lra. }
    lra.
Qed.

(** X23. [generateSampleDistribution] returns [size] entries, none of them
    negative.  When [Math.random] stays in [0, 1) and the drift is
    non-negative, no entry exceeds [1 + drift]; without drift every entry
    lies in (0, 1], so the entries of a non-empty sample have a positive
    sum. *)
Theorem sample_distribution_shape (random : nat -> R) (size : nat)
  (drift : R) :
  in_unit_interval random ->
  0 <= drift ->
  length (generateSampleDistribution random size drift) = size /\
  Forall (fun x => 0 <= x <= 1 + drift)
    (generateSampleDistribution random size drift) /\
  Forall (fun x => 0 < x <= 1) (generateSampleDistribution random size 0) /\
  ((0 < size)%nat ->
   0 < reduce_sum (generateSampleDistribution random size 0)).
Proof.
  intros Hr Hd.
  split; [|split; [|split]].
  - unfold generateSampleDistribution. now rewrite length_map, length_seq.
  - apply Forall_forall. intros x Hx.
    apply sample_entry in Hx as (i & Hi & ->).
    pose proof (base_range size i ltac:(lia)) as Hb.
    specialize (Hr i). split; [apply Rmax_l|].
    apply Rmax_lub; nra.
  - apply sample_undrifted_range.
  - apply sample_undrifted_sum.
Qed.

Lemma sample_distribution_shape_witness :
  length (generateSampleDistribution (fun _ => 0.25) 4 0.5) = 4%nat /\
  Forall (fun x => 0 <= x <= 1 + 0.5)
    (generateSampleDistribution (fun _ => 0.25) 4 0.5) /\
  Forall (fun x => 0 < x <= 1) (generateSampleDistribution (fun _ => 0.25) 4 0)
  /\
  ((0 < 4)%nat ->
   0 < reduce_sum (generateSampleDistribution (fun _ => 0.25) 4 0)).
Proof.
  apply (sample_distribution_shape (fun _ => 0.25) 4 0.5).
  - intro i. lra.
  - lra.
Defined.

End IngestionFacts.
